(** * The httpsms message service

    A shallow embedding of [api/pkg/services/message_service.go] and of
    [api/pkg/requests/message_thread_update_request.go].

    The service is written against collaborators that are injected into it:
    the message repository, the event dispatcher, the clock, the UUID
    generator and the JSON encoder behind [event.SetData].  They are modelled
    as interfaces (type classes) whose methods thread a hidden state, so every
    theorem of the first part holds for all implementations; concrete
    in-memory implementations are given at the end and used to run the
    service on examples.

    Telemetry (tracer spans, [ctxLogger.Info]) has no influence on results or
    on calls to collaborators and is left out; [ctxLogger.Error] is kept as
    the error log of the world. *)

From Stdlib Require Import ZArith NArith Ascii String List Bool Lia.
From stdpp Require Import base list.
Import ListNotations.
Local Open Scope string_scope.
Local Open Scope Z_scope.
Local Open Scope list_scope.

(** ** Entities *)

(** [uuid.UUID] is an array of 16 bytes: a 128-bit number. *)
Definition UUID : Type := N.

Bind Scope N_scope with UUID.

(** [time.Time] as an instant, counted in seconds from the Unix epoch (the
    fractions of a second play no part here); [.UTC()] does not change the
    instant. *)
Definition Time : Type := Z.

(** [entities.UserID] is a string type; its zero value is the empty string. *)
Definition entities_UserID : Type := string.

Definition UserID_zero : entities_UserID := "".

(** Modelled from the spec: the [entities] package is not under src/; section 3
    gives the message types as MobileOriginated and MobileTerminated. *)
Inductive MessageType : Type :=
| MessageTypeMobileOriginated
| MessageTypeMobileTerminated.

(** Modelled from the spec: the [entities] package is not under src/; section 3
    gives the six lifecycle states of a message. *)
Inductive MessageStatus : Type :=
| MessageStatusPending
| MessageStatusSending
| MessageStatusSent
| MessageStatusDelivered
| MessageStatusFailed
| MessageStatusReceived.

Definition MessageStatus_eqb (a b : MessageStatus) : bool :=
  match a, b with
  | MessageStatusPending, MessageStatusPending
  | MessageStatusSending, MessageStatusSending
  | MessageStatusSent, MessageStatusSent
  | MessageStatusDelivered, MessageStatusDelivered
  | MessageStatusFailed, MessageStatusFailed
  | MessageStatusReceived, MessageStatusReceived => true
  | _, _ => false
  end.

(** Modelled from the spec: [entities.MessageEventName] is not under src/; the
    names handled by [StoreEvent] are Sent, Delivered and Failed, and any other
    name (it is a string type) reaches the [default] branch of its switch. *)
Inductive MessageEventName : Type :=
| MessageEventNameSent
| MessageEventNameDelivered
| MessageEventNameFailed
| MessageEventNameOther (name : string).

(** [entities.Message], with the fields that the service reads or writes.
    The pointer fields of the Go struct are options. *)
Record Message : Type := {
  ID : UUID;
  UserID : entities_UserID;
  Owner : string;
  Contact : string;
  Content : string;
  Type_ : MessageType;
  Status : MessageStatus;
  RequestReceivedAt : Time;
  CreatedAt : Time;
  UpdatedAt : Time;
  OrderTimestamp : Time;
  SendDuration : option Z;
  LastAttemptedAt : option Time;
  SentAt : option Time;
  ReceivedAt : option Time
}.

(** Modelled from the spec: [Message.IsSending] is not under src/; section 4.1
    describes it as the pure predicate guarding the transitions that require
    the status Sending. *)
Definition IsSending (message : Message) : bool :=
  MessageStatus_eqb (Status message) MessageStatusSending.

(** Modelled from the spec: [Message.IsSent] is not under src/; section 4.1
    describes it as the pure predicate guarding the transitions that require
    the status Sent. *)
Definition IsSent (message : Message) : bool :=
  MessageStatus_eqb (Status message) MessageStatusSent.

(** The mutators of [entities.Message] are not under src/ either.  The service
    only hands their result to [repository.Update], so they stay abstract:
    what is proved holds whatever they do to the record. *)
Class MessageMethods : Type := {
  AddSendAttempt : Message -> Time -> Message;
  Sent : Message -> Time -> Message;
  Failed : Message -> Time -> Message;
  Delivered : Message -> Time -> Message
}.

(** ** Events *)

(** The payload structs of the [events] package, one constructor per struct,
    with the fields in the order in which the service fills them. *)
Inductive Payload : Type :=
| MessageAPISentPayload
    (id : UUID) (userID : entities_UserID) (owner contact : string)
    (requestReceivedAt : Time) (content : string)
| MessagePhoneReceivedPayload
    (id : UUID) (owner contact : string) (timestamp : Time) (content : string)
| MessagePhoneSendingPayload
    (id : UUID) (owner contact : string) (userID : entities_UserID) (content : string)
| MessagePhoneSentPayload
    (id : UUID) (owner : string) (userID : entities_UserID) (timestamp : Time)
    (contact content : string)
| MessagePhoneDeliveredPayload
    (id : UUID) (owner : string) (timestamp : Time) (contact content : string)
| MessagePhoneFailedPayload
    (id : UUID) (owner : string) (timestamp : Time) (contact : string)
    (userID : entities_UserID) (content : string)
| HeartbeatPhoneOutstandingPayload
    (owner : string) (timestamp : Time) (quantity : Z).

(** Modelled from the spec: the event type constants of the [events] package
    are not under src/; section 6 lists the taxonomy. *)
Inductive EventType : Type :=
| EventTypeMessageAPISent
| EventTypeMessagePhoneReceived
| EventTypeMessagePhoneSending
| EventTypeMessagePhoneSent
| EventTypeMessagePhoneFailed
| EventTypeMessagePhoneDelivered
| EventTypeHeartbeatPhoneOutstanding.

(** [cloudevents.Event]: the attributes set by [createEvent].  An attribute
    that has not been set is empty; [eventData] is [None] until [SetData] has
    succeeded. *)
Record Event : Type := {
  eventSource : string;
  eventType : option EventType;
  eventTime : option Time;
  eventID : string;
  eventData : option string
}.

(** [cloudevents.NewEvent()] *)
Definition NewEvent : Event :=
  {| eventSource := ""; eventType := None; eventTime := None;
     eventID := ""; eventData := None |}.

Definition SetSource (source : string) (event : Event) : Event :=
  {| eventSource := source; eventType := eventType event;
     eventTime := eventTime event; eventID := eventID event;
     eventData := eventData event |}.

Definition SetType (type : EventType) (event : Event) : Event :=
  {| eventSource := eventSource event; eventType := Some type;
     eventTime := eventTime event; eventID := eventID event;
     eventData := eventData event |}.

Definition SetTime (time : Time) (event : Event) : Event :=
  {| eventSource := eventSource event; eventType := eventType event;
     eventTime := Some time; eventID := eventID event;
     eventData := eventData event |}.

Definition SetID (id : string) (event : Event) : Event :=
  {| eventSource := eventSource event; eventType := eventType event;
     eventTime := eventTime event; eventID := id;
     eventData := eventData event |}.

(** The effect of a successful [SetData] with the encoded payload. *)
Definition withData (data : string) (event : Event) : Event :=
  {| eventSource := eventSource event; eventType := eventType event;
     eventTime := eventTime event; eventID := eventID event;
     eventData := Some data |}.

(** ** Errors *)

(** An argument of [fmt.Sprintf]. *)
Inductive FmtArg : Type :=
| FmtInt (n : Z)
| FmtString (s : string)
| FmtUUID (id : UUID)
| FmtStatus (status : MessageStatus)
| FmtEventName (name : MessageEventName)
| FmtEventType (type : option EventType)
| FmtEvent (event : Event)
| FmtPayload (payload : Payload).

(** [fmt.Sprintf(format, args...)], kept as the format and its arguments. *)
Inductive Text : Type :=
| Sprintf (format : string) (args : list FmtArg).

(** Go errors as the service sees them: the errors of the collaborators are
    opaque, and the service wraps them with the [stacktrace] package.
    [tracer.WrapErrorSpan] returns the error it is given. *)
Inductive Error : Type :=
| ExternalError (description : string)
| NewError (msg : Text)
| Propagate (cause : Error) (msg : Text).

(** ** Collaborators *)

(** [repositories.MessageRepository], the persistence interface, over the
    hidden state [R] of an implementation.  A method may fail or succeed as it
    likes, also from one call to the next; it is taken not to write to the
    record that it is given. *)
Class MessageRepository (R : Type) : Type := {
  repo_Load : R -> entities_UserID -> UUID -> (Error + Message) * R;
  repo_Store : R -> Message -> option Error * R;
  repo_Update : R -> Message -> option Error * R;
  repo_GetOutstanding :
    R -> entities_UserID -> string -> Z -> (Error + list Message) * R
}.

(** [EventDispatcher.Dispatch], over the hidden state [D] of the bus.  The
    subscribers of an event run behind [Dispatch] and are the ones that write
    the message records, so a dispatch is given the repository and returns it
    as the subscribers left it. *)
Class EventDispatcher (R D : Type) : Type := {
  bus_Dispatch : D -> R -> Event -> option Error * D * R
}.

(** The library functions that the code calls.  [time_Now n] and [uuid_New n]
    are the results of the [n]-th call of [time.Now] and of [uuid.New];
    [json_Marshal] is the encoding that [event.SetData] applies to a payload
    with the content type [ApplicationJSON]; [uuid_Parse] is [uuid.Parse]. *)
Class Libraries : Type := {
  PhoneNumber : Type;
  phonenumbers_Format_E164 : PhoneNumber -> string;
  uuid_String : UUID -> string;
  uuid_Parse : string -> Error + UUID;
  uuid_New : nat -> UUID;
  time_Now : nat -> Time;
  json_Marshal : Payload -> Error + string
}.

(** A call of the service to the repository or to the dispatcher. *)
Inductive Call : Type :=
| CallLoad (userID : entities_UserID) (id : UUID)
| CallStore (message : Message)
| CallUpdate (message : Message)
| CallGetOutstanding (userID : entities_UserID) (owner : string) (limit : Z)
| CallDispatch (event : Event).

Definition isDispatch (c : Call) : bool :=
  match c with CallDispatch _ => true | _ => false end.

(** ** Parameter structs *)

Module MessageGetOutstandingParams.
Record t : Type := mk {
  Source : string;
  Owner : string;
  UserID : entities_UserID;
  Timestamp : Time;
  Limit : Z
}.
End MessageGetOutstandingParams.

Module MessageStorePhoneEventParams.
Record t : Type := mk {
  MessageID : UUID;
  EventName : MessageEventName;
  Timestamp : Time;
  Source : string
}.
End MessageStorePhoneEventParams.

Module MessageStoreParams.
Record t : Type := mk {
  Owner : string;
  Contact : string;
  Content : string;
  UserID : entities_UserID;
  ID : UUID;
  Timestamp : Time
}.
End MessageStoreParams.

Module HandleMessageParams.
Record t : Type := mk {
  ID : UUID;
  UserID : entities_UserID;
  Timestamp : Time
}.
End HandleMessageParams.

Module MessageSendParams.
Record t `{Libraries} : Type := mk {
  Owner : PhoneNumber;
  Contact : PhoneNumber;
  Content : string;
  Source : string;
  UserID : entities_UserID;
  RequestReceivedAt : Time
}.
End MessageSendParams.

Module MessageReceiveParams.
Record t `{Libraries} : Type := mk {
  Contact : string;
  UserID : entities_UserID;
  Owner : PhoneNumber;
  Content : string;
  Timestamp : Time;
  Source : string
}.
End MessageReceiveParams.

(** ** The world of the service *)

(** The goroutine started by [go service.registerHeartbeatEvent(...)], at one
    of its three program points: started, event built and about to be
    dispatched, returned. *)
Inductive HeartbeatGoroutine : Type :=
| HeartbeatStarted (quantity : Z) (params : MessageGetOutstandingParams.t)
| HeartbeatDispatching (event : Event)
| HeartbeatReturned.

(** What the service can observe or change: the states of its two
    collaborators, how many times the clock and the UUID generator have been
    asked, the calls made so far (oldest first), the errors handed to
    [ctxLogger.Error] (oldest first), and the goroutines started with a bare
    [go] statement, which nobody waits for. *)
Record World (R D : Type) : Type := mkWorld {
  repository : R;
  eventDispatcher : D;
  clockReads : nat;
  uuidsDrawn : nat;
  calls : list Call;
  errorLog : list Error;
  background : list HeartbeatGoroutine
}.

Arguments mkWorld {R D}.
Arguments repository {R D}.
Arguments eventDispatcher {R D}.
Arguments clockReads {R D}.
Arguments uuidsDrawn {R D}.
Arguments calls {R D}.
Arguments errorLog {R D}.
Arguments background {R D}.

(** A computation of the service: a state transformer on the world. *)
Definition Service (R D A : Type) : Type := World R D -> A * World R D.

Definition ret {R D A} (a : A) : Service R D A := fun w => (a, w).

Definition bind {R D A B} (c : Service R D A) (k : A -> Service R D B)
  : Service R D B :=
  fun w => let (a, w') := c w in k a w'.

Declare Scope service_scope.
Delimit Scope service_scope with service.
Notation "x <- c ;; k" := (bind c (fun x => k))
  (at level 100, c at next level, right associativity) : service_scope.
Notation "''(' x , y ) <- c ;; k" := (bind c (fun p => let '(x, y) := p in k))
  (at level 100, x name, y name, c at next level, right associativity)
  : service_scope.
Notation "c ;; k" := (bind c (fun _ => k))
  (at level 100, right associativity) : service_scope.
Local Open Scope service_scope.

Section MessageService.

Context {R D : Type}.
Context `{repo : MessageRepository R} `{bus : EventDispatcher R D}.
Context `{lib : Libraries} `{methods : MessageMethods}.

Local Abbreviation World := (World R D).
Local Abbreviation Service := (Service R D).

(** *** Calls to the collaborators *)

Definition called (c : Call) (r : R) (d : D) (w : World) : World :=
  mkWorld r d (clockReads w) (uuidsDrawn w) (calls w ++ [c]) (errorLog w)
    (background w).

Definition repository_Load (userID : entities_UserID) (id : UUID)
  : Service (Error + Message) :=
  fun w =>
    let (result, r) := repo_Load (repository w) userID id in
    (result, called (CallLoad userID id) r (eventDispatcher w) w).

Definition repository_Store (message : Message) : Service (option Error) :=
  fun w =>
    let (err, r) := repo_Store (repository w) message in
    (err, called (CallStore message) r (eventDispatcher w) w).

Definition repository_Update (message : Message) : Service (option Error) :=
  fun w =>
    let (err, r) := repo_Update (repository w) message in
    (err, called (CallUpdate message) r (eventDispatcher w) w).

Definition repository_GetOutstanding
  (userID : entities_UserID) (owner : string) (limit : Z)
  : Service (Error + list Message) :=
  fun w =>
    let (result, r) := repo_GetOutstanding (repository w) userID owner limit in
    (result, called (CallGetOutstanding userID owner limit) r (eventDispatcher w) w).

Definition eventDispatcher_Dispatch (event : Event) : Service (option Error) :=
  fun w =>
    match bus_Dispatch (eventDispatcher w) (repository w) event with
    | (err, d, r) => (err, called (CallDispatch event) r d w)
    end.

(** [time.Now().UTC()] *)
Definition now : Service Time :=
  fun w =>
    (time_Now (clockReads w),
     mkWorld (repository w) (eventDispatcher w) (S (clockReads w))
       (uuidsDrawn w) (calls w) (errorLog w) (background w)).

(** [uuid.New()] *)
Definition newUUID : Service UUID :=
  fun w =>
    (uuid_New (uuidsDrawn w),
     mkWorld (repository w) (eventDispatcher w) (clockReads w)
       (S (uuidsDrawn w)) (calls w) (errorLog w) (background w)).

(** [ctxLogger.Error(err)] *)
Definition ctxLogger_Error (err : Error) : Service unit :=
  fun w =>
    (tt,
     mkWorld (repository w) (eventDispatcher w) (clockReads w) (uuidsDrawn w)
       (calls w) (errorLog w ++ [err]) (background w)).

(** [go service.registerHeartbeatEvent(ctx, quantity, params)] *)
Definition go_registerHeartbeatEvent
  (quantity : Z) (params : MessageGetOutstandingParams.t) : Service unit :=
  fun w =>
    (tt,
     mkWorld (repository w) (eventDispatcher w) (clockReads w) (uuidsDrawn w)
       (calls w) (errorLog w)
       (background w ++ [HeartbeatStarted quantity params])).

(** *** Building events *)

Definition createEvent (eventType : EventType) (source : string)
  (payload : Payload) : Service (Event * option Error) :=
  let event := NewEvent in
  let event := SetSource source event in
  let event := SetType eventType event in
  time <- now ;;
  let event := SetTime time event in
  id <- newUUID ;;
  let event := SetID (uuid_String id) event in
  match json_Marshal payload with
  | inl err =>
      let msg := Sprintf "cannot encode %T [%#+v] as JSON"
                   [FmtPayload payload; FmtPayload payload] in
      ret (event, Some (Propagate err msg))
  | inr data => ret (withData data event, None)
  end.

Definition createMessageAPISentEvent (source : string) (payload : Payload) :=
  createEvent EventTypeMessageAPISent source payload.

Definition createMessagePhoneReceivedEvent (source : string) (payload : Payload) :=
  createEvent EventTypeMessagePhoneReceived source payload.

Definition createMessagePhoneSendingEvent (source : string) (payload : Payload) :=
  createEvent EventTypeMessagePhoneSending source payload.

Definition createMessagePhoneSentEvent (source : string) (payload : Payload) :=
  createEvent EventTypeMessagePhoneSent source payload.

Definition createMessagePhoneFailedEvent (source : string) (payload : Payload) :=
  createEvent EventTypeMessagePhoneFailed source payload.

Definition createHeartbeatPhoneOutstandingEvent (source : string) (payload : Payload) :=
  createEvent EventTypeHeartbeatPhoneOutstanding source payload.

Definition createMessagePhoneDeliveredEvent (source : string) (payload : Payload) :=
  createEvent EventTypeMessagePhoneDelivered source payload.

(** *** Events reported by the phone *)

Definition handleMessageSentEvent
  (params : MessageStorePhoneEventParams.t) (message : Message)
  : Service (option Error) :=
  '(event, err) <- createMessagePhoneSentEvent
      (MessageStorePhoneEventParams.Source params)
      (MessagePhoneSentPayload (ID message) (Owner message) (UserID message)
         (MessageStorePhoneEventParams.Timestamp params)
         (Contact message) (Content message)) ;;
  match err with
  | Some err =>
      let msg := Sprintf "cannot create event [%s] for message [%s]"
                   [FmtEventType (Some EventTypeMessagePhoneSent);
                    FmtUUID (ID message)] in
      ret (Some (Propagate err msg))
  | None =>
      err <- eventDispatcher_Dispatch event ;;
      match err with
      | Some err =>
          let msg := Sprintf "cannot dispatch event type [%s] and id [%s]"
                       [FmtEventType (eventType event);
                        FmtString (eventID event)] in
          ret (Some (Propagate err msg))
      | None => ret None
      end
  end.

Definition handleMessageDeliveredEvent
  (params : MessageStorePhoneEventParams.t) (message : Message)
  : Service (option Error) :=
  '(event, err) <- createMessagePhoneDeliveredEvent
      (MessageStorePhoneEventParams.Source params)
      (MessagePhoneDeliveredPayload (ID message) (Owner message)
         (MessageStorePhoneEventParams.Timestamp params)
         (Contact message) (Content message)) ;;
  match err with
  | Some err =>
      let msg := Sprintf "cannot create event [%s] for message [%s]"
                   [FmtEventType (Some EventTypeMessagePhoneSent);
                    FmtUUID (ID message)] in
      ret (Some (Propagate err msg))
  | None =>
      err <- eventDispatcher_Dispatch event ;;
      match err with
      | Some err =>
          let msg := Sprintf "cannot dispatch event type [%s] and id [%s]"
                       [FmtEventType (eventType event);
                        FmtString (eventID event)] in
          ret (Some (Propagate err msg))
      | None => ret None
      end
  end.

Definition handleMessageFailedEvent
  (params : MessageStorePhoneEventParams.t) (message : Message)
  : Service (option Error) :=
  '(event, err) <- createMessagePhoneFailedEvent
      (MessageStorePhoneEventParams.Source params)
      (MessagePhoneFailedPayload (ID message) (Owner message)
         (MessageStorePhoneEventParams.Timestamp params)
         (Contact message) (UserID message) (Content message)) ;;
  match err with
  | Some err =>
      let msg := Sprintf "cannot create event [%s] for message [%s]"
                   [FmtEventType (Some EventTypeMessagePhoneSent);
                    FmtUUID (ID message)] in
      ret (Some (Propagate err msg))
  | None =>
      err <- eventDispatcher_Dispatch event ;;
      match err with
      | Some err =>
          let msg := Sprintf "cannot dispatch event type [%s] and id [%s]"
                       [FmtEventType (eventType event);
                        FmtString (eventID event)] in
          ret (Some (Propagate err msg))
      | None => ret None
      end
  end.

(** [StoreEvent]: the tail shared by the three handled cases of the switch. *)
Definition StoreEvent_finish
  (message : Message) (params : MessageStorePhoneEventParams.t)
  (err : option Error) : Service (Error + Message) :=
  match err with
  | Some err =>
      let msg :=
        Sprintf "could not handle phone event [%s] for message with id [%s]"
          [FmtEventName (MessageStorePhoneEventParams.EventName params);
           FmtUUID (ID message)] in
      ret (inl (Propagate err msg))
  | None =>
      repository_Load (UserID message)
        (MessageStorePhoneEventParams.MessageID params)
  end.

Definition StoreEvent
  (message : Message) (params : MessageStorePhoneEventParams.t)
  : Service (Error + Message) :=
  match MessageStorePhoneEventParams.EventName params with
  | MessageEventNameSent =>
      err <- handleMessageSentEvent params message ;;
      StoreEvent_finish message params err
  | MessageEventNameDelivered =>
      err <- handleMessageDeliveredEvent params message ;;
      StoreEvent_finish message params err
  | MessageEventNameFailed =>
      err <- handleMessageFailedEvent params message ;;
      StoreEvent_finish message params err
  | MessageEventNameOther _ =>
      ret (inl (NewError
                  (Sprintf "cannot handle message event [%s]"
                     [FmtEventName (MessageStorePhoneEventParams.EventName params)])))
  end.

(** *** Messages entering the system *)

Definition ReceiveMessage (params : MessageReceiveParams.t)
  : Service (Error + Message) :=
  id <- newUUID ;;
  let owner := phonenumbers_Format_E164 (MessageReceiveParams.Owner params) in
  let eventPayload :=
    MessagePhoneReceivedPayload id owner
      (MessageReceiveParams.Contact params)
      (MessageReceiveParams.Timestamp params)
      (MessageReceiveParams.Content params) in
  '(event, err) <- createMessagePhoneReceivedEvent
      (MessageReceiveParams.Source params) eventPayload ;;
  match err with
  | Some err =>
      let msg := Sprintf "cannot create %T from payload with message id [%s]"
                   [FmtEvent event; FmtUUID id] in
      ret (inl (Propagate err msg))
  | None =>
      err <- eventDispatcher_Dispatch event ;;
      match err with
      | Some err =>
          let msg := Sprintf "cannot dispatch event type [%s] and id [%s]"
                       [FmtEventType (eventType event);
                        FmtString (eventID event)] in
          ret (inl (Propagate err msg))
      | None =>
          result <- repository_Load (MessageReceiveParams.UserID params) id ;;
          match result with
          | inl err =>
              let msg :=
                Sprintf "cannot load message with ID [%s] in the userRepository"
                  [FmtUUID id] in
              ret (inl (Propagate err msg))
          | inr message => ret (inr message)
          end
      end
  end.

Definition SendMessage (params : MessageSendParams.t)
  : Service (Error + Message) :=
  id <- newUUID ;;
  let userID := MessageSendParams.UserID params in
  let eventPayload :=
    MessageAPISentPayload id userID
      (phonenumbers_Format_E164 (MessageSendParams.Owner params))
      (phonenumbers_Format_E164 (MessageSendParams.Contact params))
      (MessageSendParams.RequestReceivedAt params)
      (MessageSendParams.Content params) in
  '(event, err) <- createMessageAPISentEvent
      (MessageSendParams.Source params) eventPayload ;;
  match err with
  | Some err =>
      let msg := Sprintf "cannot create %T from payload with message id [%s]"
                   [FmtEvent event; FmtUUID id] in
      ret (inl (Propagate err msg))
  | None =>
      err <- eventDispatcher_Dispatch event ;;
      match err with
      | Some err =>
          let msg := Sprintf "cannot dispatch event type [%s] and id [%s]"
                       [FmtEventType (eventType event);
                        FmtString (eventID event)] in
          ret (inl (Propagate err msg))
      | None =>
          result <- repository_Load userID id ;;
          match result with
          | inl err =>
              let msg :=
                Sprintf "cannot load message with ID [%s] in the userRepository"
                  [FmtUUID id] in
              ret (inl (Propagate err msg))
          | inr message => ret (inr message)
          end
      end
  end.

(** The record that [StoreSentMessage] builds; [UserID] is not among the
    fields of the struct literal and keeps its zero value. *)
Definition sentMessage (params : MessageStoreParams.t)
  (createdAt updatedAt : Time) : Message :=
  {| ID := MessageStoreParams.ID params;
     UserID := UserID_zero;
     Owner := MessageStoreParams.Owner params;
     Contact := MessageStoreParams.Contact params;
     Content := MessageStoreParams.Content params;
     Type_ := MessageTypeMobileTerminated;
     Status := MessageStatusPending;
     RequestReceivedAt := MessageStoreParams.Timestamp params;
     CreatedAt := createdAt;
     UpdatedAt := updatedAt;
     OrderTimestamp := MessageStoreParams.Timestamp params;
     SendDuration := None;
     LastAttemptedAt := None;
     SentAt := None;
     ReceivedAt := None |}.

Definition StoreSentMessage (params : MessageStoreParams.t)
  : Service (Error + Message) :=
  createdAt <- now ;;
  updatedAt <- now ;;
  let message := sentMessage params createdAt updatedAt in
  err <- repository_Store message ;;
  match err with
  | Some err =>
      let msg := Sprintf "cannot save message with id [%s]"
                   [FmtUUID (MessageStoreParams.ID params)] in
      ret (inl (Propagate err msg))
  | None => ret (inr message)
  end.

(** The record that [StoreReceivedMessage] builds; the fields that the struct
    literal leaves out keep their zero value. *)
Definition receivedMessage (params : MessageStoreParams.t)
  (createdAt updatedAt : Time) : Message :=
  {| ID := MessageStoreParams.ID params;
     UserID := MessageStoreParams.UserID params;
     Owner := MessageStoreParams.Owner params;
     Contact := MessageStoreParams.Contact params;
     Content := MessageStoreParams.Content params;
     Type_ := MessageTypeMobileOriginated;
     Status := MessageStatusReceived;
     RequestReceivedAt := MessageStoreParams.Timestamp params;
     CreatedAt := createdAt;
     UpdatedAt := updatedAt;
     OrderTimestamp := MessageStoreParams.Timestamp params;
     SendDuration := None;
     LastAttemptedAt := None;
     SentAt := None;
     ReceivedAt := Some (MessageStoreParams.Timestamp params) |}.

Definition StoreReceivedMessage (params : MessageStoreParams.t)
  : Service (Error + Message) :=
  createdAt <- now ;;
  updatedAt <- now ;;
  let message := receivedMessage params createdAt updatedAt in
  err <- repository_Store message ;;
  match err with
  | Some err =>
      let msg := Sprintf "cannot save message with id [%s]"
                   [FmtUUID (MessageStoreParams.ID params)] in
      ret (inl (Propagate err msg))
  | None => ret (inr message)
  end.

(** *** Status changes *)

Definition HandleMessageSending (params : HandleMessageParams.t)
  : Service (option Error) :=
  result <- repository_Load (HandleMessageParams.UserID params)
              (HandleMessageParams.ID params) ;;
  match result with
  | inl err =>
      let msg := Sprintf "cannot find message with id [%s]"
                   [FmtUUID (HandleMessageParams.ID params)] in
      ret (Some (Propagate err msg))
  | inr message =>
      if negb (IsSending message) then
        let msg := Sprintf "message has wrong status [%s]. expected %s"
                     [FmtStatus (Status message);
                      FmtStatus MessageStatusSending] in
        ret (Some (NewError msg))
      else
        err <- repository_Update
                 (AddSendAttempt message (HandleMessageParams.Timestamp params)) ;;
        match err with
        | Some err =>
            let msg :=
              Sprintf "cannot update message with id [%s] after sending"
                [FmtUUID (ID message)] in
            ret (Some (Propagate err msg))
        | None => ret None
        end
  end.

Definition HandleMessageSent (params : HandleMessageParams.t)
  : Service (option Error) :=
  result <- repository_Load (HandleMessageParams.UserID params)
              (HandleMessageParams.ID params) ;;
  match result with
  | inl err =>
      let msg := Sprintf "cannot find message with id [%s]"
                   [FmtUUID (HandleMessageParams.ID params)] in
      ret (Some (Propagate err msg))
  | inr message =>
      if negb (IsSending message) then
        let msg := Sprintf "message has wrong status [%s]. expected %s"
                     [FmtStatus (Status message);
                      FmtStatus MessageStatusSending] in
        ret (Some (NewError msg))
      else
        err <- repository_Update
                 (Sent message (HandleMessageParams.Timestamp params)) ;;
        match err with
        | Some err =>
            let msg := Sprintf "cannot update message with id [%s] as sent"
                         [FmtUUID (ID message)] in
            ret (Some (Propagate err msg))
        | None => ret None
        end
  end.

Definition HandleMessageFailed (params : HandleMessageParams.t)
  : Service (option Error) :=
  result <- repository_Load (HandleMessageParams.UserID params)
              (HandleMessageParams.ID params) ;;
  match result with
  | inl err =>
      let msg := Sprintf "cannot find message with id [%s]"
                   [FmtUUID (HandleMessageParams.ID params)] in
      ret (Some (Propagate err msg))
  | inr message =>
      if negb (IsSent message) && negb (IsSending message) then
        let msg := Sprintf "message has wrong status [%s]. expected [%s,%s]"
                     [FmtStatus (Status message);
                      FmtStatus MessageStatusSending;
                      FmtStatus MessageStatusSent] in
        ret (Some (NewError msg))
      else
        err <- repository_Update
                 (Failed message (HandleMessageParams.Timestamp params)) ;;
        match err with
        | Some err =>
            let msg := Sprintf "cannot update message with id [%s] as sent"
                         [FmtUUID (ID message)] in
            ret (Some (Propagate err msg))
        | None => ret None
        end
  end.

Definition HandleMessageDelivered (params : HandleMessageParams.t)
  : Service (option Error) :=
  result <- repository_Load (HandleMessageParams.UserID params)
              (HandleMessageParams.ID params) ;;
  match result with
  | inl err =>
      let msg := Sprintf "cannot find message with id [%s]"
                   [FmtUUID (HandleMessageParams.ID params)] in
      ret (Some (Propagate err msg))
  | inr message =>
      if negb (IsSent message) then
        let msg := Sprintf "message has wrong status [%s]. expected %s"
                     [FmtStatus (Status message);
                      FmtStatus MessageStatusSent] in
        ret (Some (NewError msg))
      else
        err <- repository_Update
                 (Delivered message (HandleMessageParams.Timestamp params)) ;;
        match err with
        | Some err =>
            let msg := Sprintf "cannot update message with id [%s] as sent"
                         [FmtUUID (ID message)] in
            ret (Some (Propagate err msg))
        | None => ret None
        end
  end.

(** *** Outstanding messages *)

(** [registerHeartbeatEvent], from one program point to the next: each turn
    runs the goroutine up to and including its next call that may touch the
    world shared with the other goroutines. *)
Definition registerHeartbeatEvent (g : HeartbeatGoroutine)
  : Service HeartbeatGoroutine :=
  match g with
  | HeartbeatStarted quantity params =>
      '(event, err) <- createHeartbeatPhoneOutstandingEvent
          (MessageGetOutstandingParams.Source params)
          (HeartbeatPhoneOutstandingPayload
             (MessageGetOutstandingParams.Owner params)
             (MessageGetOutstandingParams.Timestamp params)
             quantity) ;;
      match err with
      | Some err =>
          let msg := Sprintf "cannot create event [%s] for owner [%s]"
                       [FmtEventType (Some EventTypeHeartbeatPhoneOutstanding);
                        FmtString (MessageGetOutstandingParams.Owner params)] in
          ctxLogger_Error (Propagate err msg) ;;
          ret (HeartbeatDispatching event)
      | None => ret (HeartbeatDispatching event)
      end
  | HeartbeatDispatching event =>
      err <- eventDispatcher_Dispatch event ;;
      match err with
      | Some err =>
          let msg := Sprintf "cannot dispatch event type [%s] and id [%s]"
                       [FmtEventType (eventType event);
                        FmtString (eventID event)] in
          ctxLogger_Error (Propagate err msg) ;;
          ret HeartbeatReturned
      | None => ret HeartbeatReturned
      end
  | HeartbeatReturned => ret HeartbeatReturned
  end.

(** One goroutine of [handleOutstandingMessages], at one of its program
    points.  The last two are the ways in which it returns: early, after
    [ctxLogger.Error], or after the append to [results]. *)
Inductive OutstandingGoroutine : Type :=
| OutstandingStarted (message : Message)
| OutstandingDispatching (message : Message) (event : Event)
| OutstandingLoading (message : Message)
| OutstandingAppending (resultMessage : Message)
| OutstandingFailed
| OutstandingAppended.

(** [wg.Done()] has run. *)
Definition returned (g : OutstandingGoroutine) : bool :=
  match g with
  | OutstandingFailed | OutstandingAppended => true
  | _ => false
  end.

Definition failed (g : OutstandingGoroutine) : bool :=
  match g with OutstandingFailed => true | _ => false end.

Definition appended (g : OutstandingGoroutine) : bool :=
  match g with OutstandingAppended => true | _ => false end.

(** The body of the [go func(ctx, message)] of [handleOutstandingMessages],
    from one program point to the next; [results] is the slice that the
    goroutines share under [lock]. *)
Definition outstandingGoroutine (source : string)
  (g : OutstandingGoroutine) (results : list Message)
  : Service (OutstandingGoroutine * list Message) :=
  match g with
  | OutstandingStarted message =>
      '(event, err) <- createMessagePhoneSendingEvent source
          (MessagePhoneSendingPayload (ID message) (Owner message)
             (Contact message) (UserID message) (Content message)) ;;
      match err with
      | Some err =>
          let msg := Sprintf "cannot create [%T] for message with ID [%s]"
                       [FmtEvent event; FmtUUID (ID message)] in
          ctxLogger_Error (Propagate err msg) ;;
          ret (OutstandingFailed, results)
      | None => ret (OutstandingDispatching message event, results)
      end
  | OutstandingDispatching message event =>
      err <- eventDispatcher_Dispatch event ;;
      match err with
      | Some err =>
          let msg :=
            Sprintf "cannot dispatch event [%s] with id [%s] for message [%s]"
              [FmtEventType (eventType event); FmtString (eventID event);
               FmtUUID (ID message)] in
          ctxLogger_Error (Propagate err msg) ;;
          ret (OutstandingFailed, results)
      | None => ret (OutstandingLoading message, results)
      end
  | OutstandingLoading message =>
      result <- repository_Load (UserID message) (ID message) ;;
      match result with
      | inl err =>
          let msg := Sprintf "cannot load message with id [%s]"
                       [FmtUUID (ID message)] in
          ctxLogger_Error (Propagate err msg) ;;
          ret (OutstandingFailed, results)
      | inr resultMessage => ret (OutstandingAppending resultMessage, results)
      end
  | OutstandingAppending resultMessage =>
      ret (OutstandingAppended, results ++ [resultMessage])
  | OutstandingFailed => ret (OutstandingFailed, results)
  | OutstandingAppended => ret (OutstandingAppended, results)
  end.

(** The scheduler gives a turn to a background goroutine or to one of the
    goroutines of the batch; a turn of a goroutine that does not exist or has
    returned changes nothing. *)
Inductive Turn : Type :=
| TurnBackground (j : nat)
| TurnOutstanding (i : nat).

Definition setBackground (b : list HeartbeatGoroutine) (w : World) : World :=
  mkWorld (repository w) (eventDispatcher w) (clockReads w) (uuidsDrawn w)
    (calls w) (errorLog w) b.

Definition runBackground (j : nat) : Service unit :=
  fun w =>
    match background w !! j with
    | Some g =>
        let (g', w') := registerHeartbeatEvent g w in
        (tt, setBackground (<[j := g']> (background w')) w')
    | None => (tt, w)
    end.

Definition runTurn (source : string) (turn : Turn)
  (st : list OutstandingGoroutine * list Message)
  : Service (list OutstandingGoroutine * list Message) :=
  let (goroutines, results) := st in
  match turn with
  | TurnBackground j => runBackground j ;; ret st
  | TurnOutstanding i =>
      match goroutines !! i with
      | Some g =>
          '(g', results') <- outstandingGoroutine source g results ;;
          ret (<[i := g']> goroutines, results')
      | None => ret st
      end
  end.

Fixpoint runTurns (source : string) (schedule : list Turn)
  (st : list OutstandingGoroutine * list Message)
  : Service (list OutstandingGoroutine * list Message) :=
  match schedule with
  | [] => ret st
  | turn :: schedule' =>
      st' <- runTurn source turn st ;;
      runTurns source schedule' st'
  end.

(** The goroutines of a batch and the shared [results], after the turns of
    [schedule]: one goroutine per message, [results] empty at first. *)
Definition outstandingGoroutines (source : string) (messages : list Message)
  (schedule : list Turn)
  : Service (list OutstandingGoroutine * list Message) :=
  runTurns source schedule (map OutstandingStarted messages, []).

(** [handleOutstandingMessages] under the interleaving [schedule].
    [wg.Wait()] returns once every goroutine of the batch has returned; the
    result is [None] when [schedule] ends before that. *)
Definition handleOutstandingMessages (source : string)
  (messages : list Message) (schedule : list Turn)
  : Service (option (list Message)) :=
  '(goroutines, results) <- outstandingGoroutines source messages schedule ;;
  if forallb returned goroutines then ret (Some results) else ret None.

Definition GetOutstanding (params : MessageGetOutstandingParams.t)
  (schedule : list Turn) : Service (option (Error + list Message)) :=
  result <- repository_GetOutstanding
              (MessageGetOutstandingParams.UserID params)
              (MessageGetOutstandingParams.Owner params)
              (MessageGetOutstandingParams.Limit params) ;;
  match result with
  | inl err =>
      let msg := Sprintf "could not fetch [%d] outstanding messages"
                   [FmtInt (MessageGetOutstandingParams.Limit params)] in
      ret (Some (inl (Propagate err msg)))
  | inr messages =>
      go_registerHeartbeatEvent (Z.of_nat (length messages)) params ;;
      results <- handleOutstandingMessages
                   (MessageGetOutstandingParams.Source params) messages schedule ;;
      ret (option_map inr results)
  end.

(** A schedule that lets each of the [n] goroutines of a batch run to its
    end, one after the other. *)
Definition runToCompletion (n : nat) : list Turn :=
  flat_map (fun i => repeat (TurnOutstanding i) 4) (seq 0 n).

End MessageService.

(** ** Requests *)

(** A Go function either returns or panics. *)
Inductive Outcome (A : Type) : Type :=
| Returns (a : A)
| Panics (cause : Error).

Arguments Returns {A}.
Arguments Panics {A}.

(** [requests.MessageThreadUpdate]; the embedded [request] has no fields that
    [ToUpdateParams] reads. *)
Module MessageThreadUpdate.
Record t : Type := mk {
  IsArchived : bool;
  MessageThreadID : string
}.
End MessageThreadUpdate.

(** [services.MessageThreadStatusParams], as the struct literal of
    [ToUpdateParams] fills it. *)
Module MessageThreadStatusParams.
Record t : Type := mk {
  UserID : entities_UserID;
  MessageThreadID : UUID;
  IsArchived : bool
}.
End MessageThreadStatusParams.

Section Requests.

Context `{lib : Libraries}.

(** [uuid.MustParse]: [uuid.Parse], with a panic in place of the error. *)
Definition uuid_MustParse (s : string) : Outcome UUID :=
  match uuid_Parse s with
  | inl err => Panics err
  | inr id => Returns id
  end.

Definition ToUpdateParams (input : MessageThreadUpdate.t)
  (userID : entities_UserID) : Outcome MessageThreadStatusParams.t :=
  match uuid_MustParse (MessageThreadUpdate.MessageThreadID input) with
  | Panics cause => Panics cause
  | Returns id =>
      Returns (MessageThreadStatusParams.mk userID id
                 (MessageThreadUpdate.IsArchived input))
  end.

End Requests.


(** * The broadcast receivers of the Android app

    A shallow embedding of [app/src/main/java/com/httpsms/Receiver.kt].  The
    Android [Context], the [Settings] object, [SmsManagerService] and
    [Constants] are not under src/ and are taken as an interface; the log
    lines of [Timber] are left out, except for what evaluating their string
    templates can throw. *)

(** [CharSequence.contains(other)]: [other] occurs in [s]. *)
Fixpoint contains (s other : string) : bool :=
  match s with
  | EmptyString => String.prefix other EmptyString
  | String _ rest => String.prefix other s || contains rest other
  end.

(** [CharSequence.split(delimiter)] for a delimiter of one character: the
    parts of [s] between the occurrences of the delimiter. *)
Fixpoint split (delimiter : ascii) (s : string) : list string :=
  match s with
  | EmptyString => [EmptyString]
  | String c rest =>
      if Ascii.eqb c delimiter then EmptyString :: split delimiter rest
      else
        match split delimiter rest with
        | part :: parts => String c part :: parts
        | [] => [String c EmptyString]
        end
  end.

(** The two receiver classes have no constructor arguments. *)
Inductive SentReceiver : Type := SentReceiver_new.

Inductive DeliveredReceiver : Type := DeliveredReceiver_new.

Inductive BroadcastReceiver : Type :=
| ASentReceiver (receiver : SentReceiver)
| ADeliveredReceiver (receiver : DeliveredReceiver).

(** [IntentFilter(action)] *)
Inductive IntentFilter : Type :=
| IntentFilter_new (action : string).

(** What [Receiver] needs from the platform and from the rest of the app. *)
Class Android (AndroidContext : Type) : Type := {
  registerReceiver :
    AndroidContext -> BroadcastReceiver -> IntentFilter -> AndroidContext;
  Settings_isLoggedIn : AndroidContext -> bool;
  Settings_getActiveStatus : AndroidContext -> string -> bool;
  Constants_SIM1 : string;
  Constants_SIM2 : string;
  SmsManagerService_sentAction : string;
  SmsManagerService_deliveredAction : string
}.

(** The [Receiver] object: its two private fields, each null until
    [register] has filled it. *)
Record Receiver : Type := mkReceiver {
  sentReceiver : option SentReceiver;
  deliveredReceiver : option DeliveredReceiver
}.

(** A context together with the registrations made on it, oldest first. *)
Record App (AndroidContext : Type) : Type := mkApp {
  appContext : AndroidContext;
  registrations : list (BroadcastReceiver * IntentFilter)
}.

Arguments mkApp {AndroidContext}.
Arguments appContext {AndroidContext}.
Arguments registrations {AndroidContext}.

Section ReceiverObject.

Context {AndroidContext : Type} `{android : Android AndroidContext}.

(** [context.registerReceiver(receiver, filter)] *)
Definition context_registerReceiver (receiver : BroadcastReceiver)
  (filter : IntentFilter) (app : App AndroidContext) : App AndroidContext :=
  mkApp (registerReceiver (appContext app) receiver filter)
    (registrations app ++ [(receiver, filter)]).

Definition register (app : App AndroidContext) (self : Receiver)
  : App AndroidContext * Receiver :=
  let (app, self) :=
    match sentReceiver self with
    | None =>
        let receiver := SentReceiver_new in
        (context_registerReceiver (ASentReceiver receiver)
           (IntentFilter_new SmsManagerService_sentAction) app,
         mkReceiver (Some receiver) (deliveredReceiver self))
    | Some _ => (app, self)
    end in
  match deliveredReceiver self with
  | None =>
      let receiver := DeliveredReceiver_new in
      (context_registerReceiver (ADeliveredReceiver receiver)
         (IntentFilter_new SmsManagerService_deliveredAction) app,
       mkReceiver (sentReceiver self) (Some receiver))
  | Some _ => (app, self)
  end.

(** [isValid]; the result is [None] when the call throws, which only the
    template of the last log line could do, by indexing the parts of the
    message id. *)
Definition isValid (context : AndroidContext) (messageId : option string)
  : option bool :=
  match messageId with
  | None => Some false
  | Some messageId =>
      if negb (Settings_isLoggedIn context) then Some false
      else if negb (Settings_getActiveStatus context Constants_SIM1)
              && negb (Settings_getActiveStatus context Constants_SIM2)
      then Some false
      else if contains messageId "." then
        match nth_error (split "."%char messageId) 1 with
        | Some _ => Some false
        | None => None
        end
      else Some true
  end.

End ReceiverObject.
(** ** In-memory collaborators

    Implementations of the interfaces that can be run, used for the examples
    that close the development. *)

(** A table of messages, oldest row first.  A row is identified by the owner
    of the record and the message id. *)
Definition memory_row (userID : entities_UserID) (id : UUID) (row : Message)
  : bool :=
  String.eqb (UserID row) userID && N.eqb (ID row) id.

Definition memory_Load (rows : list Message) (userID : entities_UserID)
  (id : UUID) : (Error + Message) * list Message :=
  match List.find (memory_row userID id) rows with
  | Some row => (inr row, rows)
  | None => (inl (ExternalError "record not found"), rows)
  end.

Definition memory_Store (rows : list Message) (message : Message)
  : option Error * list Message :=
  if existsb (memory_row (UserID message) (ID message)) rows
  then (Some (ExternalError "duplicate key"), rows)
  else (None, rows ++ [message]).

Definition memory_Update (rows : list Message) (message : Message)
  : option Error * list Message :=
  (None,
   map (fun row =>
          if memory_row (UserID message) (ID message) row then message else row)
     rows).

Definition memory_outstanding (userID : entities_UserID) (owner : string)
  (row : Message) : bool :=
  String.eqb (UserID row) userID && String.eqb (Owner row) owner
  && MessageStatus_eqb (Status row) MessageStatusPending.

Definition memory_GetOutstanding (rows : list Message)
  (userID : entities_UserID) (owner : string) (limit : Z)
  : (Error + list Message) * list Message :=
  (inr (firstn (Z.to_nat limit)
          (List.filter (memory_outstanding userID owner) rows)),
   rows).

Definition memoryRepository : MessageRepository (list Message) :=
  {| repo_Load := memory_Load;
     repo_Store := memory_Store;
     repo_Update := memory_Update;
     repo_GetOutstanding := memory_GetOutstanding |}.

(** A repository whose database cannot be reached. *)
Definition unreachableRepository : MessageRepository unit :=
  {| repo_Load := fun r _ _ => (inl (ExternalError "connection refused"), r);
     repo_Store := fun r _ => (Some (ExternalError "connection refused"), r);
     repo_Update := fun r _ => (Some (ExternalError "connection refused"), r);
     repo_GetOutstanding :=
       fun r _ _ _ => (inl (ExternalError "connection refused"), r) |}.

(** A bus that keeps the published events, oldest first, and rejects an event
    whose data is longer than [limit] characters. *)
Definition boundedBus_Dispatch (limit : nat) (published : list Event)
  (event : Event) : option Error * list Event :=
  match eventData event with
  | Some data =>
      if (String.length data <=? limit)%nat
      then (None, published ++ [event])
      else (Some (ExternalError "message too large"), published)
  | None => (None, published ++ [event])
  end.

(** The bounded bus without subscribers: no dispatch touches the
    repository. *)
Definition boundedBus {R : Type} (limit : nat)
  : EventDispatcher R (list Event) :=
  {| bus_Dispatch :=
       fun published rows event =>
         (boundedBus_Dispatch limit published event, rows) |}.

(** The bounded bus with one subscriber, which is run on the repository for
    each event that the bus accepts. *)
Definition subscribedBus {R : Type} (subscriber : Event -> R -> R)
  (limit : nat) : EventDispatcher R (list Event) :=
  {| bus_Dispatch :=
       fun published rows event =>
         match boundedBus_Dispatch limit published event with
         | (None, published') => (None, published', subscriber event rows)
         | (Some err, published') => (Some err, published', rows)
         end |}.

(** Hexadecimal text of [digits] digits, most significant first. *)
Definition hexChar (n : N) : Ascii.ascii :=
  if (n <? 10)%N then Ascii.ascii_of_N (48 + n) else Ascii.ascii_of_N (87 + n).

Fixpoint hexString (digits : nat) (n : N) : string :=
  match digits with
  | O => ""
  | S k => (hexString k (n / 16) ++ String (hexChar (n mod 16)) "")%string
  end.

Definition hexValue (c : Ascii.ascii) : option N :=
  let n := Ascii.N_of_ascii c in
  if (48 <=? n)%N && (n <=? 57)%N then Some (n - 48)%N
  else if (97 <=? n)%N && (n <=? 102)%N then Some (n - 87)%N
  else if (65 <=? n)%N && (n <=? 70)%N then Some (n - 55)%N
  else None.

(** The canonical text of a UUID: 8-4-4-4-12 hexadecimal digits. *)
Definition canonical_String (id : UUID) : string :=
  let hex := hexString 32 id in
  (substring 0 8 hex ++ "-" ++ substring 8 4 hex ++ "-" ++ substring 12 4 hex
   ++ "-" ++ substring 16 4 hex ++ "-" ++ substring 20 12 hex)%string.

Definition dashAt (pos : nat) : bool :=
  (pos =? 8)%nat || (pos =? 13)%nat || (pos =? 18)%nat || (pos =? 23)%nat.

Fixpoint parseCanonical (pos : nat) (s : string) (acc : N) : option N :=
  match s with
  | EmptyString => if (pos =? 36)%nat then Some acc else None
  | String c rest =>
      if dashAt pos then
        if Ascii.eqb c "-"%char then parseCanonical (S pos) rest acc else None
      else
        match hexValue c with
        | Some v => parseCanonical (S pos) rest (16 * acc + v)%N
        | None => None
        end
  end.

(** A parser for the canonical text only. *)
Definition canonical_Parse (s : string) : Error + UUID :=
  match parseCanonical 0 s 0%N with
  | Some id => inr id
  | None => inl (ExternalError "invalid UUID format")
  end.

(** The instants that the JSON encoding of [time.Time] accepts: the years 0 to
    9999. *)
Definition jsonTime (t : Time) : bool :=
  (-62167219200 <=? t) && (t <? 253402300800).

Definition payloadTime (payload : Payload) : option Time :=
  match payload with
  | MessageAPISentPayload _ _ _ _ requestReceivedAt _ => Some requestReceivedAt
  | MessagePhoneReceivedPayload _ _ _ timestamp _ => Some timestamp
  | MessagePhoneSendingPayload _ _ _ _ _ => None
  | MessagePhoneSentPayload _ _ _ timestamp _ _ => Some timestamp
  | MessagePhoneDeliveredPayload _ _ timestamp _ _ => Some timestamp
  | MessagePhoneFailedPayload _ _ timestamp _ _ _ => Some timestamp
  | HeartbeatPhoneOutstandingPayload _ timestamp _ => Some timestamp
  end.

Definition payloadText (payload : Payload) : string :=
  match payload with
  | MessageAPISentPayload id _ owner contact _ content
  | MessagePhoneReceivedPayload id owner contact _ content
  | MessagePhoneSendingPayload id owner contact _ content
  | MessagePhoneSentPayload id owner _ _ contact content
  | MessagePhoneDeliveredPayload id owner _ contact content
  | MessagePhoneFailedPayload id owner _ contact _ content =>
      ("{id:" ++ canonical_String id ++ ",owner:" ++ owner ++ ",contact:"
       ++ contact ++ ",content:" ++ content ++ "}")%string
  | HeartbeatPhoneOutstandingPayload owner _ _ =>
      ("{owner:" ++ owner ++ "}")%string
  end.

(** An encoder that fails where [encoding/json] fails on these payloads: on
    an instant outside the years 0 to 9999. *)
Definition example_Marshal (payload : Payload) : Error + string :=
  match payloadTime payload with
  | Some t =>
      if jsonTime t then inr (payloadText payload)
      else inl (ExternalError "Time.MarshalJSON: year outside of range [0,9999]")
  | None => inr (payloadText payload)
  end.

(** Phone numbers kept in their E.164 text, a clock that advances by a second
    at each reading from 2023-11-14T22:13:20Z, and UUIDs in sequence. *)
Definition exampleLibraries : Libraries :=
  {| PhoneNumber := string;
     phonenumbers_Format_E164 := fun number => number;
     uuid_String := canonical_String;
     uuid_Parse := canonical_Parse;
     uuid_New := fun n => (N.of_nat n + 4096)%N;
     time_Now := fun n => 1700000000 + Z.of_nat n;
     json_Marshal := example_Marshal |}.

(** Mutators that follow the table of section 4.1 of the spec. *)
Definition withStatus (status : MessageStatus) (message : Message) : Message :=
  {| ID := ID message; UserID := UserID message; Owner := Owner message;
     Contact := Contact message; Content := Content message;
     Type_ := Type_ message; Status := status;
     RequestReceivedAt := RequestReceivedAt message;
     CreatedAt := CreatedAt message; UpdatedAt := UpdatedAt message;
     OrderTimestamp := OrderTimestamp message;
     SendDuration := SendDuration message;
     LastAttemptedAt := LastAttemptedAt message;
     SentAt := SentAt message; ReceivedAt := ReceivedAt message |}.

Definition exampleMethods : MessageMethods :=
  {| AddSendAttempt := fun message timestamp =>
       {| ID := ID message; UserID := UserID message; Owner := Owner message;
          Contact := Contact message; Content := Content message;
          Type_ := Type_ message; Status := Status message;
          RequestReceivedAt := RequestReceivedAt message;
          CreatedAt := CreatedAt message; UpdatedAt := UpdatedAt message;
          OrderTimestamp := OrderTimestamp message;
          SendDuration := SendDuration message;
          LastAttemptedAt := Some timestamp;
          SentAt := SentAt message; ReceivedAt := ReceivedAt message |};
     Sent := fun message timestamp =>
       {| ID := ID message; UserID := UserID message; Owner := Owner message;
          Contact := Contact message; Content := Content message;
          Type_ := Type_ message; Status := MessageStatusSent;
          RequestReceivedAt := RequestReceivedAt message;
          CreatedAt := CreatedAt message; UpdatedAt := UpdatedAt message;
          OrderTimestamp := OrderTimestamp message;
          SendDuration := Some (timestamp - RequestReceivedAt message);
          LastAttemptedAt := LastAttemptedAt message;
          SentAt := Some timestamp; ReceivedAt := ReceivedAt message |};
     Failed := fun message _ => withStatus MessageStatusFailed message;
     Delivered := fun message timestamp =>
       {| ID := ID message; UserID := UserID message; Owner := Owner message;
          Contact := Contact message; Content := Content message;
          Type_ := Type_ message; Status := MessageStatusDelivered;
          RequestReceivedAt := RequestReceivedAt message;
          CreatedAt := CreatedAt message; UpdatedAt := UpdatedAt message;
          OrderTimestamp := OrderTimestamp message;
          SendDuration := SendDuration message;
          LastAttemptedAt := LastAttemptedAt message;
          SentAt := SentAt message; ReceivedAt := Some timestamp |} |}.


(** ** Example inputs *)

Definition exampleBus : EventDispatcher (list Message) (list Event) :=
  boundedBus 120.

Definition unreachableBus : EventDispatcher unit (list Event) :=
  boundedBus 120.

(** The id of the message that the data of an event is about, read back from
    the text of [payloadText]. *)
Definition eventMessageID (event : Event) : option UUID :=
  match eventData event with
  | Some data =>
      match canonical_Parse (substring 4 36 data) with
      | inr id => Some id
      | inl _ => None
      end
  | None => None
  end.

(** The status in which a subscriber leaves the record of a message on an
    event from the phone. *)
Definition statusAfter (type : EventType) : option MessageStatus :=
  match type with
  | EventTypeMessagePhoneSending => Some MessageStatusSending
  | EventTypeMessagePhoneSent => Some MessageStatusSent
  | EventTypeMessagePhoneDelivered => Some MessageStatusDelivered
  | EventTypeMessagePhoneFailed => Some MessageStatusFailed
  | _ => None
  end.

(** A subscriber of the events from the phone: it puts the row of the
    message that the event is about into the status of the event. *)
Definition statusSubscriber (event : Event) (rows : list Message)
  : list Message :=
  match eventType event, eventMessageID event with
  | Some type, Some id =>
      match statusAfter type with
      | Some status =>
          map (fun row =>
                 if (ID row =? id)%N then withStatus status row else row)
            rows
      | None => rows
      end
  | _, _ => rows
  end.

Definition subscribedExampleBus
  : EventDispatcher (list Message) (list Event) :=
  subscribedBus statusSubscriber 120.

(** A message of user-1, sent from the gateway +18005550199. *)
Definition exampleMessage (id : UUID) (status : MessageStatus)
  (content : string) : Message :=
  {| ID := id;
     UserID := "user-1";
     Owner := "+18005550199";
     Contact := "+18005550100";
     Content := content;
     Type_ := MessageTypeMobileTerminated;
     Status := status;
     RequestReceivedAt := 1699999000;
     CreatedAt := 1699999001;
     UpdatedAt := 1699999001;
     OrderTimestamp := 1699999000;
     SendDuration := None;
     LastAttemptedAt := None;
     SentAt := None;
     ReceivedAt := None |}.

(** A world over the in-memory collaborators in which nothing has happened
    yet. *)
Definition exampleWorld (rows : list Message)
  : World (list Message) (list Event) :=
  mkWorld rows [] 0 0 [] [] [].

(** A world whose repository cannot be reached. *)
Definition unreachableWorld : World unit (list Event) :=
  mkWorld tt [] 0 0 [] [] [].

(** The first instant of the year 10000, which [encoding/json] refuses. *)
Definition year10000 : Time := 253402300800.

(** A text of 48 characters, too long for the bus of the examples once it is
    wrapped in its payload. *)
Definition longContent : string :=
  "0123456789abcdef0123456789abcdef0123456789abcdef".

(** Three outstanding messages; the second is too long for the bus. *)
Definition exampleBatch : list Message :=
  [exampleMessage 1 MessageStatusPending "hello";
   exampleMessage 2 MessageStatusPending longContent;
   exampleMessage 3 MessageStatusPending "bye"].

(** An interleaving of the three goroutines of the batch and of the heartbeat
    goroutine in which the third message is the first to be appended. *)
Definition exampleSchedule : list Turn :=
  [TurnOutstanding 0; TurnOutstanding 1; TurnBackground 0; TurnOutstanding 2;
   TurnOutstanding 1; TurnOutstanding 2; TurnOutstanding 0; TurnBackground 0;
   TurnOutstanding 2; TurnOutstanding 0; TurnOutstanding 2; TurnOutstanding 0].

Definition exampleOutstandingParams : MessageGetOutstandingParams.t :=
  MessageGetOutstandingParams.mk "phone" "+18005550199" "user-1" 1700000100 10.

Definition exampleStoreParams : MessageStoreParams.t :=
  MessageStoreParams.mk "+18005550199" "+18005550100" "hello" "user-1" 7
    1700000050.
(** ** Vocabulary of the properties *)

Section Vocabulary.

Context {R D : Type}.
Context `{repo : MessageRepository R} `{bus : EventDispatcher R D}.
Context `{lib : Libraries} `{methods : MessageMethods}.

Local Abbreviation World := (World R D).
Local Abbreviation Service := (Service R D).

(** The world after [createEvent]: one reading of the clock, one UUID. *)
Definition drew (w : World) : World :=
  mkWorld (repository w) (eventDispatcher w) (S (clockReads w))
    (S (uuidsDrawn w)) (calls w) (errorLog w) (background w).

(** The envelope of [createEvent] before [SetData]. *)
Definition envelope (type : EventType) (source : string) (w : World) : Event :=
  SetID (uuid_String (uuid_New (uuidsDrawn w)))
    (SetTime (time_Now (clockReads w))
       (SetType type (SetSource source NewEvent))).

(** The calls to [Dispatch] among the calls of a world. *)
Definition dispatches (w : World) : list Call :=
  List.filter isDispatch (calls w).

(** The payload that [StoreEvent] builds for the event named in its params;
    there is none for a name that its switch does not handle. *)
Definition phoneEventPayload (params : MessageStorePhoneEventParams.t)
  (message : Message) : option Payload :=
  let timestamp := MessageStorePhoneEventParams.Timestamp params in
  match MessageStorePhoneEventParams.EventName params with
  | MessageEventNameSent =>
      Some (MessagePhoneSentPayload (ID message) (Owner message)
              (UserID message) timestamp (Contact message) (Content message))
  | MessageEventNameDelivered =>
      Some (MessagePhoneDeliveredPayload (ID message) (Owner message)
              timestamp (Contact message) (Content message))
  | MessageEventNameFailed =>
      Some (MessagePhoneFailedPayload (ID message) (Owner message) timestamp
              (Contact message) (UserID message) (Content message))
  | MessageEventNameOther _ => None
  end.

(** The type of the event that [StoreEvent] emits for an event name. *)
Definition phoneEventType (name : MessageEventName) : option EventType :=
  match name with
  | MessageEventNameSent => Some EventTypeMessagePhoneSent
  | MessageEventNameDelivered => Some EventTypeMessagePhoneDelivered
  | MessageEventNameFailed => Some EventTypeMessagePhoneFailed
  | MessageEventNameOther _ => None
  end.

(** The persistence contract behind a round trip: a record that [Store] has
    accepted is the one that [Load] returns for its owner and id. *)
Definition StoreThenLoad : Prop :=
  forall (r r' : R) (message : Message),
    repo_Store r message = (None, r') ->
    fst (repo_Load r' (UserID message) (ID message)) = inr message.

(** The shape shared by the four status changes: load, guard, persist.
    [handler] loads the record; when the load fails or [guard] rejects the
    record it stops there with an error, and otherwise it hands
    [mutate record timestamp] to [Update] and returns what [Update] made of
    it.  The dispatcher is never called. *)
Definition loadGuardPersist (guard : Message -> bool)
  (mutate : Message -> Time -> Message)
  (handler : HandleMessageParams.t -> Service (option Error)) : Prop :=
  forall (params : HandleMessageParams.t) (w : World),
    let userID := HandleMessageParams.UserID params in
    let id := HandleMessageParams.ID params in
    let w' := snd (handler params w) in
    let err := fst (handler params w) in
    eventDispatcher w' = eventDispatcher w /\
    dispatches w' = dispatches w /\
    errorLog w' = errorLog w /\
    match repo_Load (repository w) userID id with
    | (inl cause, r) =>
        calls w' = calls w ++ [CallLoad userID id] /\ repository w' = r /\
        exists msg, err = Some (Propagate cause msg)
    | (inr message, r) =>
        if guard message then
          let updated := mutate message (HandleMessageParams.Timestamp params) in
          calls w' = calls w ++ [CallLoad userID id; CallUpdate updated] /\
          repository w' = snd (repo_Update r updated) /\
          match fst (repo_Update r updated) with
          | None => err = None
          | Some cause => exists msg, err = Some (Propagate cause msg)
          end
        else
          calls w' = calls w ++ [CallLoad userID id] /\ repository w' = r /\
          exists expected,
            err = Some (NewError
                          (Sprintf expected.1
                             (FmtStatus (Status message) :: expected.2)))
    end.

(** The payload of the heartbeat for a batch of [quantity] messages. *)
Definition heartbeatPayload (params : MessageGetOutstandingParams.t)
  (quantity : Z) : Payload :=
  HeartbeatPhoneOutstandingPayload
    (MessageGetOutstandingParams.Owner params)
    (MessageGetOutstandingParams.Timestamp params) quantity.

(** The world in which the goroutines of a batch start: the fetch has
    answered and the heartbeat goroutine has been started. *)
Definition batchStarted (params : MessageGetOutstandingParams.t)
  (messages : list Message) (r : R) (w : World) : World :=
  snd (go_registerHeartbeatEvent (Z.of_nat (length messages)) params
         (called
            (CallGetOutstanding (MessageGetOutstandingParams.UserID params)
               (MessageGetOutstandingParams.Owner params)
               (MessageGetOutstandingParams.Limit params))
            r (eventDispatcher w) w)).

(** How many turns a goroutine of the batch still needs, at most. *)
Definition stepsLeft (g : OutstandingGoroutine) : nat :=
  match g with
  | OutstandingStarted _ => 4
  | OutstandingDispatching _ _ => 3
  | OutstandingLoading _ => 2
  | OutstandingAppending _ => 1
  | OutstandingFailed | OutstandingAppended => 0
  end.

(** The invariant of the fan-out: [results] holds one message for each
    goroutine that has appended. *)
Definition accounted (st : list OutstandingGoroutine * list Message) : Prop :=
  length (snd st) = length (List.filter appended (fst st)).

(** No goroutine of [gs'] is further from its end than it was in [gs]. *)
Definition advanced (gs gs' : list OutstandingGoroutine) : Prop :=
  length gs' = length gs /\
  forall (k : nat) (g : OutstandingGoroutine),
    gs !! k = Some g ->
    exists g', gs' !! k = Some g' /\ (stepsLeft g' <= stepsLeft g)%nat.

(** *** Failed steps of the fan-out *)

(** The message that a goroutine of the batch is still working on. *)
Definition ownMessage (g : OutstandingGoroutine) : option Message :=
  match g with
  | OutstandingStarted message => Some message
  | OutstandingDispatching message _ => Some message
  | OutstandingLoading message => Some message
  | _ => None
  end.

(** The step that a goroutine of the batch is about to take fails in [w]:
    the payload of the sending event cannot be encoded, the dispatcher
    rejects the event, or the repository cannot load the record. *)
Definition stepFails (g : OutstandingGoroutine) (w : World) : bool :=
  match g with
  | OutstandingStarted message =>
      match json_Marshal
              (MessagePhoneSendingPayload (ID message) (Owner message)
                 (Contact message) (UserID message) (Content message)) with
      | inl _ => true
      | inr _ => false
      end
  | OutstandingDispatching _ event =>
      match bus_Dispatch (eventDispatcher w) (repository w) event with
      | (Some _, _, _) => true
      | (None, _, _) => false
      end
  | OutstandingLoading message =>
      match repo_Load (repository w) (UserID message) (ID message) with
      | (inl _, _) => true
      | (inr _, _) => false
      end
  | _ => false
  end.

(** In the course of [schedule], which starts with the batch in [w], the
    goroutine of message [i] is given a turn in which its step fails. *)
Definition failsDuring (source : string) (messages : list Message)
  (schedule : list Turn) (w : World) (i : nat) : Prop :=
  exists (before after : list Turn) (g : OutstandingGoroutine),
    schedule = before ++ TurnOutstanding i :: after /\
    fst (fst (outstandingGoroutines source messages before w)) !! i = Some g /\
    ownMessage g = messages !! i /\
    stepFails g (snd (outstandingGoroutines source messages before w)) = true.

(** In the course of [schedule] the goroutine of message [i] is given the
    turn in which it loads the record of its message, and [Load] returns
    [resultMessage]. *)
Definition reloadsDuring (source : string) (messages : list Message)
  (schedule : list Turn) (w : World) (i : nat) (resultMessage : Message)
  : Prop :=
  exists (before after : list Turn) (message : Message),
    schedule = before ++ TurnOutstanding i :: after /\
    messages !! i = Some message /\
    fst (fst (outstandingGoroutines source messages before w)) !! i
      = Some (OutstandingLoading message) /\
    fst (repo_Load
           (repository (snd (outstandingGoroutines source messages before w)))
           (UserID message) (ID message)) = inr resultMessage.

(** The outcome of the fan-out for one message of the batch is the record
    that was loaded for it, or none: the message is left out of the
    result. *)
Definition omitted (outcome : option Message) : bool :=
  match outcome with
  | None => true
  | Some _ => false
  end.

(** The invariant of the fan-out after the turns of [schedule]: each
    goroutine works on the message of its index; it has failed exactly when
    one of its steps failed; the record that it is about to append, or has
    appended, is the one that it loaded; and [results] holds the records of
    the goroutines that have appended, in some order. *)
Definition handedOut (source : string) (messages : list Message)
  (w : World) (schedule : list Turn) : Prop :=
  let goroutines := fst (fst (outstandingGoroutines source messages schedule w)) in
  let results := snd (fst (outstandingGoroutines source messages schedule w)) in
  (forall (i : nat) (g : OutstandingGoroutine) (message : Message),
     goroutines !! i = Some g -> ownMessage g = Some message ->
     messages !! i = Some message) /\
  (forall i : nat,
     goroutines !! i = Some OutstandingFailed <->
     failsDuring source messages schedule w i) /\
  (forall (i : nat) (resultMessage : Message),
     goroutines !! i = Some (OutstandingAppending resultMessage) ->
     reloadsDuring source messages schedule w i resultMessage) /\
  exists outcomes : list (option Message),
    length outcomes = length messages /\
    Permutation results (omap id outcomes) /\
    forall i : nat,
      (i < length messages)%nat ->
      match outcomes !! i with
      | Some (Some resultMessage) =>
          goroutines !! i = Some OutstandingAppended /\
          reloadsDuring source messages schedule w i resultMessage
      | _ => goroutines !! i <> Some OutstandingAppended
      end.

End Vocabulary.

(** ** Vocabulary of the further properties *)

Section FurtherVocabulary.

Context {R D : Type}.
Context `{repo : MessageRepository R} `{bus : EventDispatcher R D}.
Context `{lib : Libraries} `{methods : MessageMethods}.

Local Abbreviation World := (World R D).

Definition isLoad (c : Call) : bool :=
  match c with CallLoad _ _ => true | _ => false end.

(** A call that writes to the repository. *)
Definition isWrite (c : Call) : bool :=
  match c with CallStore _ | CallUpdate _ => true | _ => false end.

(** How many calls of a kind a world has seen. *)
Definition countCalls (kind : Call -> bool) (w : World) : nat :=
  length (List.filter kind (calls w)).

(** The persistence contract behind two calls in a row on one record: once
    [Update] has accepted a new version of a record that [Load] had returned
    for a key, [Load] returns the new version for that key. *)
Definition UpdateThenLoad : Prop :=
  forall (r r1 r2 : R) (userID : entities_UserID) (id : UUID)
         (message updated : Message),
    repo_Load r userID id = (inr message, r1) ->
    repo_Update r1 updated = (None, r2) ->
    ID updated = ID message ->
    UserID updated = UserID message ->
    fst (repo_Load r2 userID id) = inr updated.

(** A mutator that leaves the key of the record alone. *)
Definition keepsKey (mutate : Message -> Time -> Message) : Prop :=
  forall (message : Message) (timestamp : Time),
    ID (mutate message timestamp) = ID message /\
    UserID (mutate message timestamp) = UserID message.

(** A clock that never goes back from one reading to the next. *)
Definition monotoneClock : Prop :=
  forall n : nat, time_Now n <= time_Now (S n).

(** [w'] has all the calls of [w], and then only calls that satisfy [kind]. *)
Definition onlyCalls (kind : Call -> bool) (w w' : World) : Prop :=
  exists new : list Call,
    calls w' = calls w ++ new /\ forallb kind new = true.

(** The goroutines of a batch at a program point. *)
Definition loading (g : OutstandingGoroutine) : bool :=
  match g with OutstandingLoading _ => true | _ => false end.

Definition appending (g : OutstandingGoroutine) : bool :=
  match g with OutstandingAppending _ => true | _ => false end.

End FurtherVocabulary.

(** * Properties of the service *)

Section Properties.

Context {R D : Type}.
Context `{repo : MessageRepository R} `{bus : EventDispatcher R D}.
Context `{lib : Libraries} `{methods : MessageMethods}.

Local Abbreviation World := (World R D).

Ltac run := unfold bind, ret; simpl.

Lemma createEvent_world type source payload (w : World) :
  snd (createEvent type source payload w) = drew w.
Proof.
  unfold createEvent, now, newUUID. run.
  destruct (json_Marshal payload); reflexivity.
Qed.

Lemma createEvent_failure type source payload err (w : World) :
  json_Marshal payload = inl err ->
  createEvent type source payload w =
    ((envelope type source w,
      Some (Propagate err
              (Sprintf "cannot encode %T [%#+v] as JSON"
                 [FmtPayload payload; FmtPayload payload]))),
     drew w).
Proof.
  intros Hjson. unfold createEvent, now, newUUID. run.
  rewrite Hjson. reflexivity.
Qed.

Lemma createEvent_success type source payload data (w : World) :
  json_Marshal payload = inr data ->
  createEvent type source payload w =
    ((withData data (envelope type source w), None), drew w).
Proof.
  intros Hjson. unfold createEvent, now, newUUID. run.
  rewrite Hjson. reflexivity.
Qed.

Lemma dispatches_called_other c r d (w : World) :
  isDispatch c = false -> dispatches (called c r d w) = dispatches w.
Proof.
  intros Hc. unfold dispatches, called. simpl.
  rewrite List.filter_app. simpl. rewrite Hc. apply app_nil_r.
Qed.

(** ** Status changes *)

Ltac same_calls :=
  unfold dispatches, called; simpl;
  rewrite ?List.filter_app; simpl;
  rewrite ?app_nil_r, <- ?app_assoc; reflexivity.

Ltac shape_cases :=
  repeat split; try same_calls; eauto.

Ltac handler_shape :=
  unfold loadGuardPersist; intros params w; cbv zeta;
  unfold HandleMessageSending, HandleMessageSent, HandleMessageFailed,
    HandleMessageDelivered;
  unfold repository_Load, repository_Update; run;
  destruct (repo_Load (repository w) (HandleMessageParams.UserID params)
              (HandleMessageParams.ID params)) as [[cause | message] r];
  simpl; [ shape_cases | ].

Lemma HandleMessageSending_shape :
  loadGuardPersist (D := D) IsSending AddSendAttempt HandleMessageSending.
Proof.
  handler_shape.
  destruct (IsSending message); simpl.
  - destruct (repo_Update r _) as [[cause | ] r']; simpl; shape_cases.
  - shape_cases.
    exists ("message has wrong status [%s]. expected %s",
            [FmtStatus MessageStatusSending]). reflexivity.
Qed.

Lemma HandleMessageSent_shape :
  loadGuardPersist (D := D) IsSending Sent HandleMessageSent.
Proof.
  handler_shape.
  destruct (IsSending message); simpl.
  - destruct (repo_Update r _) as [[cause | ] r']; simpl; shape_cases.
  - shape_cases.
    exists ("message has wrong status [%s]. expected %s",
            [FmtStatus MessageStatusSending]). reflexivity.
Qed.

Lemma HandleMessageFailed_shape :
  loadGuardPersist (D := D) (fun message => IsSent message || IsSending message)
    Failed HandleMessageFailed.
Proof.
  handler_shape.
  destruct (IsSent message), (IsSending message); simpl;
    try (destruct (repo_Update r _) as [[cause | ] r']; simpl; shape_cases).
  shape_cases.
  exists ("message has wrong status [%s]. expected [%s,%s]",
          [FmtStatus MessageStatusSending; FmtStatus MessageStatusSent]).
  reflexivity.
Qed.

Lemma HandleMessageDelivered_shape :
  loadGuardPersist (D := D) IsSent Delivered HandleMessageDelivered.
Proof.
  handler_shape.
  destruct (IsSent message); simpl.
  - destruct (repo_Update r _) as [[cause | ] r']; simpl; shape_cases.
  - shape_cases.
    exists ("message has wrong status [%s]. expected %s",
            [FmtStatus MessageStatusSent]). reflexivity.
Qed.

(** C3.  When the record that [HandleMessageSent] loads is not in the status
    Sending, the call fails with the wrong-status error, which carries the
    actual status and the expected one; the only call made is the load: no
    [Update], no [Dispatch]. *)
Theorem HandleMessageSent_wrong_status
  (params : HandleMessageParams.t) (w : World) (message : Message) (r : R) :
  repo_Load (repository w) (HandleMessageParams.UserID params)
    (HandleMessageParams.ID params) = (inr message, r) ->
  Status message <> MessageStatusSending ->
  let w' := snd (HandleMessageSent params w) in
  fst (HandleMessageSent params w) =
    Some (NewError
            (Sprintf "message has wrong status [%s]. expected %s"
               [FmtStatus (Status message); FmtStatus MessageStatusSending])) /\
  calls w' = calls w ++ [CallLoad (HandleMessageParams.UserID params)
                           (HandleMessageParams.ID params)] /\
  repository w' = r /\
  eventDispatcher w' = eventDispatcher w.
Proof.
  intros Hload Hstatus. cbv zeta.
  unfold HandleMessageSent, repository_Load. run. rewrite Hload. simpl.
  assert (IsSending message = false) as ->.
  { unfold IsSending. destruct (Status message); simpl; congruence. }
  simpl. repeat split.
Qed.

(** C4.  [HandleMessageFailed] on a loaded record: from Sending or Sent the
    guard lets it through, the failed record goes to [Update], and the call
    succeeds when [Update] does; from Pending, Delivered or Received it fails
    with the wrong-status error after the load alone, nothing persisted. *)
Theorem HandleMessageFailed_transitions
  (params : HandleMessageParams.t) (w : World) (message : Message) (r : R) :
  repo_Load (repository w) (HandleMessageParams.UserID params)
    (HandleMessageParams.ID params) = (inr message, r) ->
  let w' := snd (HandleMessageFailed params w) in
  let load := CallLoad (HandleMessageParams.UserID params)
                (HandleMessageParams.ID params) in
  let failedMessage := Failed message (HandleMessageParams.Timestamp params) in
  (Status message = MessageStatusSending \/ Status message = MessageStatusSent ->
   forall r', repo_Update r failedMessage = (None, r') ->
     fst (HandleMessageFailed params w) = None /\
     calls w' = calls w ++ [load; CallUpdate failedMessage] /\
     repository w' = r') /\
  (Status message = MessageStatusPending \/
   Status message = MessageStatusDelivered \/
   Status message = MessageStatusReceived ->
     fst (HandleMessageFailed params w) =
       Some (NewError
               (Sprintf "message has wrong status [%s]. expected [%s,%s]"
                  [FmtStatus (Status message); FmtStatus MessageStatusSending;
                   FmtStatus MessageStatusSent])) /\
     calls w' = calls w ++ [load] /\
     repository w' = r).
Proof.
  intros Hload. cbv zeta.
  unfold HandleMessageFailed, repository_Load, repository_Update. run.
  rewrite Hload. simpl. unfold IsSent, IsSending. split.
  - intros [Hstatus | Hstatus] r' Hupdate; rewrite Hstatus; simpl;
      rewrite Hupdate; simpl; rewrite <- app_assoc; repeat split.
  - intros [Hstatus | [Hstatus | Hstatus]]; rewrite Hstatus; simpl;
      repeat split.
Qed.

(** C7, as the code has it.  Each of the four status changes loads the
    record, checks its guard and hands the changed record to [Update]; it
    never calls the dispatcher.  What it returns is an error or nil, never a
    record: nil exactly when the load, the guard and the update went
    through, the wrong-status error when the guard rejects the record. *)
Theorem status_changes_load_guard_persist :
  loadGuardPersist (D := D) IsSending AddSendAttempt HandleMessageSending /\
  loadGuardPersist (D := D) IsSending Sent HandleMessageSent /\
  loadGuardPersist (D := D)
    (fun message => IsSent message || IsSending message)
    Failed HandleMessageFailed /\
  loadGuardPersist (D := D) IsSent Delivered HandleMessageDelivered.
Proof.
  split; [ apply HandleMessageSending_shape | ].
  split; [ apply HandleMessageSent_shape | ].
  split; [ apply HandleMessageFailed_shape | apply HandleMessageDelivered_shape ].
Qed.

(** ** Stored messages *)

Lemma StoreSentMessage_run (params : MessageStoreParams.t) (w : World) :
  let message :=
    sentMessage params (time_Now (clockReads w)) (time_Now (S (clockReads w))) in
  let stored := repo_Store (repository w) message in
  calls (snd (StoreSentMessage params w)) = calls w ++ [CallStore message] /\
  repository (snd (StoreSentMessage params w)) = snd stored /\
  match fst stored with
  | None => fst (StoreSentMessage params w) = inr message
  | Some cause =>
      exists msg, fst (StoreSentMessage params w) = inl (Propagate cause msg)
  end.
Proof.
  cbv zeta. unfold StoreSentMessage, now, repository_Store. run.
  destruct (repo_Store _ _) as [[cause | ] r]; simpl; repeat split; eauto.
Qed.

Lemma StoreReceivedMessage_run (params : MessageStoreParams.t) (w : World) :
  let message :=
    receivedMessage params (time_Now (clockReads w))
      (time_Now (S (clockReads w))) in
  let stored := repo_Store (repository w) message in
  calls (snd (StoreReceivedMessage params w)) = calls w ++ [CallStore message] /\
  repository (snd (StoreReceivedMessage params w)) = snd stored /\
  match fst stored with
  | None => fst (StoreReceivedMessage params w) = inr message
  | Some cause =>
      exists msg, fst (StoreReceivedMessage params w) = inl (Propagate cause msg)
  end.
Proof.
  cbv zeta. unfold StoreReceivedMessage, now, repository_Store. run.
  destruct (repo_Store _ _) as [[cause | ] r]; simpl; repeat split; eauto.
Qed.

(** C6.  With a repository that returns on [Load] the record it accepted on
    [Store], a successful [StoreSentMessage] followed by the load of the
    stored record gives a message in the status Pending, of the type
    MobileTerminated, with [RequestReceivedAt] and [OrderTimestamp] both equal
    to the timestamp of the params, and with [SendDuration],
    [LastAttemptedAt], [SentAt] and [ReceivedAt] unset. *)
Theorem StoreSentMessage_round_trip
  (params : MessageStoreParams.t) (w w1 : World) (stored : Message) :
  StoreThenLoad (R := R) ->
  StoreSentMessage params w = (inr stored, w1) ->
  exists (loaded : Message) (w2 : World),
    repository_Load (UserID stored) (MessageStoreParams.ID params) w1
      = (inr loaded, w2) /\
    Status loaded = MessageStatusPending /\
    Type_ loaded = MessageTypeMobileTerminated /\
    RequestReceivedAt loaded = MessageStoreParams.Timestamp params /\
    OrderTimestamp loaded = MessageStoreParams.Timestamp params /\
    RequestReceivedAt loaded = OrderTimestamp loaded /\
    SendDuration loaded = None /\
    LastAttemptedAt loaded = None /\
    SentAt loaded = None /\
    ReceivedAt loaded = None.
Proof.
  intros Hlaw Hstore.
  destruct (StoreSentMessage_run params w) as (_ & Hrepo & Hresult).
  rewrite Hstore in Hrepo, Hresult. simpl in Hrepo, Hresult.
  destruct (repo_Store (repository w) _) as [[cause | ] r] eqn:Hstored;
    simpl in Hrepo, Hresult.
  { destruct Hresult as [msg Hresult]. discriminate. }
  injection Hresult as ->. subst r.
  specialize (Hlaw _ _ _ Hstored). simpl in Hlaw.
  unfold repository_Load. simpl.
  destruct (repo_Load (repository w1) _ _) as [result r2]. simpl in Hlaw.
  subst result. do 2 eexists. split; [ reflexivity | ]. repeat split.
Qed.

(** C9.  The record that [StoreSentMessage] hands to [Store], and returns, has
    the zero [UserID] whatever the params say, while the record of
    [StoreReceivedMessage] has the [UserID] of the params; so the stored
    [UserID] of a sent message equals that of the params only when the latter
    is the zero value. *)
Theorem StoreSentMessage_drops_UserID
  (params : MessageStoreParams.t) (w : World) :
  exists sent received : Message,
    calls (snd (StoreSentMessage params w)) = calls w ++ [CallStore sent] /\
    (forall message, fst (StoreSentMessage params w) = inr message ->
       message = sent) /\
    UserID sent = UserID_zero /\
    (UserID sent = MessageStoreParams.UserID params <->
     MessageStoreParams.UserID params = UserID_zero) /\
    calls (snd (StoreReceivedMessage params w))
      = calls w ++ [CallStore received] /\
    (forall message, fst (StoreReceivedMessage params w) = inr message ->
       message = received) /\
    UserID received = MessageStoreParams.UserID params.
Proof.
  destruct (StoreSentMessage_run params w) as (Hcalls & _ & Hresult).
  destruct (StoreReceivedMessage_run params w) as (Hcalls' & _ & Hresult').
  eexists _, _. split; [ exact Hcalls | ].
  split.
  { intros message Hmessage. rewrite Hmessage in Hresult.
    destruct (fst (repo_Store _ _)).
    - destruct Hresult as [msg Hresult]. discriminate.
    - congruence. }
  split; [ reflexivity | ].
  split.
  { simpl. split; congruence. }
  split; [ exact Hcalls' | ].
  split; [ | reflexivity ].
  clear Hresult. intros message Hmessage. rewrite Hmessage in Hresult'.
  destruct (fst (repo_Store _ _)).
  - destruct Hresult' as [msg Hresult']. discriminate.
  - congruence.
Qed.

(** ** Events reported by the phone *)

Ltac handler_run :=
  unfold StoreEvent, StoreEvent_finish, handleMessageSentEvent,
    handleMessageDeliveredEvent, handleMessageFailedEvent,
    createMessagePhoneSentEvent, createMessagePhoneDeliveredEvent,
    createMessagePhoneFailedEvent, phoneEventPayload in *.

Lemma StoreEvent_unhandled
  (message : Message) (params : MessageStorePhoneEventParams.t) (w : World)
  (name : string) :
  MessageStorePhoneEventParams.EventName params = MessageEventNameOther name ->
  StoreEvent message params w =
    (inl (NewError (Sprintf "cannot handle message event [%s]"
                      [FmtEventName (MessageEventNameOther name)])), w).
Proof. intros Hname. unfold StoreEvent. rewrite Hname. reflexivity. Qed.

Lemma StoreEvent_ignores_status
  (message : Message) (params : MessageStorePhoneEventParams.t) (w : World)
  (status : MessageStatus) :
  StoreEvent (withStatus status message) params w = StoreEvent message params w.
Proof.
  unfold StoreEvent.
  destruct (MessageStorePhoneEventParams.EventName params); reflexivity.
Qed.

Lemma StoreEvent_encoded
  (message : Message) (params : MessageStorePhoneEventParams.t) (w : World)
  (payload : Payload) (data : string) :
  phoneEventPayload params message = Some payload ->
  json_Marshal payload = inr data ->
  exists event : Event,
    eventData event = Some data /\
    dispatches (snd (StoreEvent message params w))
      = dispatches w ++ [CallDispatch event].
Proof.
  intros Hpayload Hjson. handler_run.
  destruct (MessageStorePhoneEventParams.EventName params);
    try discriminate; injection Hpayload as <-;
    unfold bind; rewrite (createEvent_success _ _ _ data) by exact Hjson;
    (eexists; split;
     [ | unfold eventDispatcher_Dispatch, repository_Load, ret; simpl;
         destruct (bus_Dispatch _ _ _) as [[[cause | ] d] r1]; simpl;
         try destruct (repo_Load _ _ _) as [result r]; simpl;
         unfold dispatches; simpl; rewrite ?List.filter_app; simpl;
         rewrite ?app_nil_r; reflexivity ]);
    reflexivity.
Qed.

Lemma StoreEvent_not_encoded
  (message : Message) (params : MessageStorePhoneEventParams.t) (w : World)
  (payload : Payload) (err : Error) :
  phoneEventPayload params message = Some payload ->
  json_Marshal payload = inl err ->
  calls (snd (StoreEvent message params w)) = calls w /\
  exists cause, fst (StoreEvent message params w) = inl cause.
Proof.
  intros Hpayload Hjson. handler_run.
  destruct (MessageStorePhoneEventParams.EventName params);
    try discriminate; injection Hpayload as <-;
    unfold bind; rewrite (createEvent_failure _ _ _ err) by exact Hjson;
    simpl; eauto.
Qed.

Lemma StoreEvent_result
  (message : Message) (params : MessageStorePhoneEventParams.t) (w : World)
  (payload : Payload) (type : EventType) :
  phoneEventPayload params message = Some payload ->
  phoneEventType (MessageStorePhoneEventParams.EventName params) = Some type ->
  match json_Marshal payload with
  | inl err =>
      exists msg msg' msg'',
        fst (StoreEvent message params w)
          = inl (Propagate (Propagate (Propagate err msg) msg') msg'')
  | inr data =>
      match bus_Dispatch (eventDispatcher w) (repository w)
              (withData data
                 (envelope type (MessageStorePhoneEventParams.Source params) w))
      with
      | (Some cause, _, _) =>
          exists msg msg',
            fst (StoreEvent message params w)
              = inl (Propagate (Propagate cause msg) msg')
      | (None, _, r) =>
          fst (StoreEvent message params w)
            = fst (repo_Load r (UserID message)
                     (MessageStorePhoneEventParams.MessageID params))
      end
  end.
Proof.
  intros Hpayload Htype. handler_run. unfold phoneEventType in Htype.
  destruct (MessageStorePhoneEventParams.EventName params);
    try discriminate; injection Hpayload as <-; injection Htype as <-;
    unfold bind;
    (destruct (json_Marshal _) as [err | data] eqn:Hjson;
     [ rewrite (createEvent_failure _ _ _ err) by exact Hjson; simpl; eauto
     | rewrite (createEvent_success _ _ _ data) by exact Hjson;
       unfold eventDispatcher_Dispatch, repository_Load, ret; simpl;
       destruct (bus_Dispatch _ _ _) as [[[cause | ] d] r1]; simpl;
       [ eauto | destruct (repo_Load r1 _ _) as [loaded r2]; reflexivity ] ]).
Qed.

(** C2, as the code has it.  [StoreEvent] checks no transition guard: for the
    names Sent, Delivered and Failed the status of the message has no
    influence on what the call does, and when the payload is encoded the
    event is handed to the dispatcher, once.  The result for these names is
    an error when the payload cannot be encoded or when the dispatcher
    rejects the event, and otherwise it is what [Load] returns, record or
    error, on the repository as the dispatch left it.  For any other name the
    call returns an error without touching the world, so without a
    dispatch. *)
Theorem StoreEvent_no_transition_guard
  (message : Message) (params : MessageStorePhoneEventParams.t) (w : World) :
  (forall status : MessageStatus,
     StoreEvent (withStatus status message) params w
       = StoreEvent message params w) /\
  (forall (payload : Payload) (data : string),
     phoneEventPayload params message = Some payload ->
     json_Marshal payload = inr data ->
     exists event : Event,
       eventData event = Some data /\
       dispatches (snd (StoreEvent message params w))
         = dispatches w ++ [CallDispatch event]) /\
  (forall (payload : Payload) (type : EventType),
     phoneEventPayload params message = Some payload ->
     phoneEventType (MessageStorePhoneEventParams.EventName params)
       = Some type ->
     match json_Marshal payload with
     | inl err =>
         exists msg msg' msg'',
           fst (StoreEvent message params w)
             = inl (Propagate (Propagate (Propagate err msg) msg') msg'')
     | inr data =>
         match bus_Dispatch (eventDispatcher w) (repository w)
                 (withData data
                    (envelope type
                       (MessageStorePhoneEventParams.Source params) w))
         with
         | (Some cause, _, _) =>
             exists msg msg',
               fst (StoreEvent message params w)
                 = inl (Propagate (Propagate cause msg) msg')
         | (None, _, r) =>
             fst (StoreEvent message params w)
               = fst (repo_Load r (UserID message)
                        (MessageStorePhoneEventParams.MessageID params))
         end
     end) /\
  (forall name : string,
     MessageStorePhoneEventParams.EventName params = MessageEventNameOther name ->
     StoreEvent message params w =
       (inl (NewError (Sprintf "cannot handle message event [%s]"
                         [FmtEventName (MessageEventNameOther name)])), w)).
Proof.
  split; [ intros status; apply StoreEvent_ignores_status | ].
  split; [ intros payload data; apply StoreEvent_encoded | ].
  split; [ intros payload type; apply StoreEvent_result | ].
  intros name. apply StoreEvent_unhandled.
Qed.

(** ** Outstanding messages *)

Lemma runTurns_app source (a b : list Turn) st (w : World) :
  runTurns source (a ++ b) st w =
    runTurns source b (fst (runTurns source a st w))
      (snd (runTurns source a st w)).
Proof.
  revert st w. induction a as [| turn a IH]; intros st w; simpl.
  - reflexivity.
  - unfold bind. destruct (runTurn source turn st w) as [st' w'].
    apply IH.
Qed.

Lemma runTurns_cons source turn schedule st (w : World) :
  runTurns source (turn :: schedule) st w =
    runTurns source schedule (fst (runTurn source turn st w))
      (snd (runTurn source turn st w)).
Proof.
  cbn [runTurns]. unfold bind.
  destruct (runTurn source turn st w) as [st' w']. reflexivity.
Qed.

(** One turn of a goroutine: [results] grows by one message exactly when the
    goroutine passes from not appended to appended. *)
Lemma outstandingGoroutine_accounting source g results (w : World) :
  let g' := fst (fst (outstandingGoroutine source g results w)) in
  let results' := snd (fst (outstandingGoroutine source g results w)) in
  (length results' + (if appended g then 1 else 0)
   = length results + (if appended g' then 1 else 0))%nat.
Proof.
  cbv zeta. destruct g as [message | message event | message | result | | ];
    unfold outstandingGoroutine, createMessagePhoneSendingEvent,
      eventDispatcher_Dispatch, repository_Load, ctxLogger_Error; run.
  - destruct (createEvent _ _ _ w) as [[event [err | ]] w']; simpl; lia.
  - destruct (bus_Dispatch _ _ _) as [[[err | ] d] r1]; simpl; lia.
  - destruct (repo_Load _ _ _) as [[err | result] r]; simpl; lia.
  - rewrite length_app. simpl. lia.
  - lia.
  - lia.
Qed.

Lemma outstandingGoroutine_progress source g results (w : World) :
  (stepsLeft (fst (fst (outstandingGoroutine source g results w)))
   <= pred (stepsLeft g))%nat.
Proof.
  destruct g as [message | message event | message | result | | ];
    unfold outstandingGoroutine, createMessagePhoneSendingEvent,
      eventDispatcher_Dispatch, repository_Load, ctxLogger_Error; run.
  - destruct (createEvent _ _ _ w) as [[event [err | ]] w']; simpl; lia.
  - destruct (bus_Dispatch _ _ _) as [[[err | ] d] r1]; simpl; lia.
  - destruct (repo_Load _ _ _) as [[err | result] r]; simpl; lia.
  - lia.
  - lia.
  - lia.
Qed.

Lemma filter_insert_length {A} (p : A -> bool) (l : list A) i x y :
  l !! i = Some x ->
  (length (List.filter p (<[i := y]> l)) + (if p x then 1 else 0)
   = length (List.filter p l) + (if p y then 1 else 0))%nat.
Proof.
  revert i. induction l as [| a l IH]; intros i Hi.
  - discriminate.
  - destruct i as [| i]; simpl in *.
    + injection Hi as ->. destruct (p x), (p y); simpl; lia.
    + specialize (IH i Hi). destruct (p a); simpl; lia.
Qed.

(** The turn of goroutine [i], when it exists. *)
Lemma runTurn_outstanding source i gs results g (w : World) :
  gs !! i = Some g ->
  runTurn source (TurnOutstanding i) (gs, results) w =
    ((<[i := fst (fst (outstandingGoroutine source g results w))]> gs,
      snd (fst (outstandingGoroutine source g results w))),
     snd (outstandingGoroutine source g results w)).
Proof.
  intros Hg. unfold runTurn. rewrite Hg. run.
  destruct (outstandingGoroutine source g results w) as [[g' results'] w'].
  reflexivity.
Qed.

Lemma runTurn_idle source turn st (w : World) :
  match turn with
  | TurnBackground _ => True
  | TurnOutstanding i => fst st !! i = None
  end ->
  fst (runTurn source turn st w) = st.
Proof.
  destruct st as [gs results]. destruct turn as [j | i]; simpl.
  - intros _. run. destruct (runBackground j w). reflexivity.
  - intros Hnone. rewrite Hnone. reflexivity.
Qed.

(** Preservation of the invariant by a turn. *)
Lemma runTurn_accounted source turn st (w : World) :
  accounted st -> accounted (fst (runTurn source turn st w)).
Proof.
  destruct st as [gs results]. intros Hacc.
  destruct turn as [j | i].
  - rewrite runTurn_idle; [ exact Hacc | exact I ].
  - destruct (gs !! i) as [g | ] eqn:Hg.
    + rewrite (runTurn_outstanding _ _ _ _ g) by exact Hg.
      unfold accounted in *. simpl in *.
      pose proof (outstandingGoroutine_accounting source g results w) as Hstep.
      pose proof (filter_insert_length appended gs i g
                    (fst (fst (outstandingGoroutine source g results w))) Hg)
        as Hcount.
      cbv zeta in Hstep. lia.
    + rewrite runTurn_idle; [ exact Hacc | exact Hg ].
Qed.

Lemma runTurns_accounted source schedule st (w : World) :
  accounted st -> accounted (fst (runTurns source schedule st w)).
Proof.
  revert st w. induction schedule as [| turn schedule IH]; intros st w Hacc.
  - exact Hacc.
  - simpl. unfold bind.
    pose proof (runTurn_accounted source turn st w Hacc) as Hturn.
    destruct (runTurn source turn st w) as [st' w']. apply IH. exact Hturn.
Qed.

Lemma runTurn_length source turn st (w : World) :
  length (fst (fst (runTurn source turn st w))) = length (fst st).
Proof.
  destruct st as [gs results]. destruct turn as [j | i].
  - rewrite runTurn_idle; [ reflexivity | exact I ].
  - destruct (gs !! i) as [g | ] eqn:Hg.
    + rewrite (runTurn_outstanding _ _ _ _ g) by exact Hg. simpl.
      apply length_insert.
    + rewrite runTurn_idle; [ reflexivity | exact Hg ].
Qed.

Lemma runTurns_length source schedule st (w : World) :
  length (fst (fst (runTurns source schedule st w))) = length (fst st).
Proof.
  revert st w. induction schedule as [| turn schedule IH]; intros st w.
  - reflexivity.
  - simpl. unfold bind.
    pose proof (runTurn_length source turn st w) as Hturn.
    destruct (runTurn source turn st w) as [st' w']. rewrite IH. exact Hturn.
Qed.

(** Use of the invariant at the barrier: a goroutine that has returned has
    appended or failed. *)
Lemma returned_appended_or_failed (gs : list OutstandingGoroutine) :
  forallb returned gs = true ->
  (length (List.filter appended gs) + length (List.filter failed gs)
   = length gs)%nat.
Proof.
  induction gs as [| g gs IH]; simpl.
  - reflexivity.
  - intros Hall. apply andb_true_iff in Hall as [Hg Hgs].
    specialize (IH Hgs). destruct g; simpl in *; try discriminate; lia.
Qed.

(** *** Every goroutine reaches its end *)

Lemma advanced_refl gs : advanced gs gs.
Proof. split; [ reflexivity | ]. intros k g Hg. exists g. split; [ exact Hg | lia ]. Qed.

Lemma advanced_trans gs1 gs2 gs3 :
  advanced gs1 gs2 -> advanced gs2 gs3 -> advanced gs1 gs3.
Proof.
  intros [Hlen12 H12] [Hlen23 H23]. split; [ congruence | ].
  intros k g Hg. destruct (H12 k g Hg) as (g2 & Hg2 & Hle2).
  destruct (H23 k g2 Hg2) as (g3 & Hg3 & Hle3).
  exists g3. split; [ exact Hg3 | lia ].
Qed.

Lemma runTurn_advanced source turn gs results (w : World) :
  advanced gs (fst (fst (runTurn source turn (gs, results) w))).
Proof.
  destruct turn as [j | i].
  - rewrite runTurn_idle; [ apply advanced_refl | exact I ].
  - destruct (gs !! i) as [g | ] eqn:Hg.
    + rewrite (runTurn_outstanding _ _ _ _ g) by exact Hg. simpl.
      split; [ apply length_insert | ].
      intros k gk Hk. destruct (decide (i = k)) as [-> | Hne].
      * rewrite list_lookup_insert_eq by (apply lookup_lt_Some in Hk; exact Hk).
        eexists. split; [ reflexivity | ].
        assert (gk = g) as -> by congruence.
        pose proof (outstandingGoroutine_progress source g results w). lia.
      * rewrite list_lookup_insert_ne by exact Hne.
        exists gk. split; [ exact Hk | lia ].
    + rewrite runTurn_idle; [ apply advanced_refl | exact Hg ].
Qed.

Lemma runTurns_advanced source schedule gs results (w : World) :
  advanced gs (fst (fst (runTurns source schedule (gs, results) w))).
Proof.
  revert gs results w.
  induction schedule as [| turn schedule IH]; intros gs results w.
  - apply advanced_refl.
  - rewrite runTurns_cons.
    pose proof (runTurn_advanced source turn gs results w) as Hturn.
    destruct (runTurn source turn (gs, results) w) as [[gs' results'] w'].
    eapply advanced_trans; [ exact Hturn | apply IH ].
Qed.

(** [n] turns of goroutine [i] in a row take [n] off its remaining steps. *)
Lemma own_turns_progress source i n gs results g (w : World) :
  gs !! i = Some g ->
  exists g',
    fst (fst (runTurns source (repeat (TurnOutstanding i) n) (gs, results) w))
      !! i = Some g' /\
    (stepsLeft g' <= stepsLeft g - n)%nat.
Proof.
  revert gs results g w. induction n as [| n IH]; intros gs results g w Hg.
  - exists g. split; [ exact Hg | simpl; lia ].
  - cbn [repeat]. rewrite runTurns_cons.
    rewrite (runTurn_outstanding _ _ _ _ g) by exact Hg.
    pose proof (outstandingGoroutine_progress source g results w) as Hstep.
    destruct (outstandingGoroutine source g results w) as [[g1 results1] w1].
    simpl in *.
    destruct (IH (<[i := g1]> gs) results1 g1 w1) as (g' & Hg' & Hle).
    { apply list_lookup_insert_eq. apply lookup_lt_Some in Hg. exact Hg. }
    exists g'. split; [ exact Hg' | lia ].
Qed.

Lemma runToCompletion_S n :
  runToCompletion (S n) = runToCompletion n ++ repeat (TurnOutstanding n) 4.
Proof.
  unfold runToCompletion. rewrite seq_S, flat_map_app. reflexivity.
Qed.

Lemma runToCompletion_finishes source n gs results (w : World) :
  forall (k : nat) (g : OutstandingGoroutine),
    (k < n)%nat -> gs !! k = Some g ->
    exists g',
      fst (fst (runTurns source (runToCompletion n) (gs, results) w)) !! k
        = Some g' /\
      stepsLeft g' = 0%nat.
Proof.
  induction n as [| n IH]; intros k g Hk Hg; [ lia | ].
  rewrite runToCompletion_S, runTurns_app.
  pose proof (runTurns_advanced source (runToCompletion n) gs results w)
    as [Hlen Hadv].
  destruct (runTurns source (runToCompletion n) (gs, results) w)
    as [[gs1 results1] w1] eqn:Hrun. simpl in *.
  destruct (decide (k = n)) as [-> | Hne].
  - destruct (Hadv n g Hg) as (g1 & Hg1 & _).
    destruct (own_turns_progress source n 4 gs1 results1 g1 w1 Hg1)
      as (g' & Hg' & Hle).
    exists g'. split; [ exact Hg' | ].
    destruct g1; simpl in Hle; lia.
  - destruct (IH k g) as (g1 & Hg1 & Hzero); [ lia | exact Hg | ].
    pose proof (runTurns_advanced source (repeat (TurnOutstanding n) 4)
                  gs1 results1 w1) as [_ Hadv'].
    destruct (Hadv' k g1 Hg1) as (g' & Hg' & Hle).
    exists g'. split; [ exact Hg' | lia ].
Qed.

Lemma stepsLeft_returned g : stepsLeft g = 0%nat -> returned g = true.
Proof. destruct g; simpl; intros H; try discriminate; reflexivity. Qed.

(** After any turns, letting each goroutine run to its end makes [wg.Wait()]
    return. *)
Lemma runToCompletion_returned source schedule gs results (w : World) :
  forallb returned
    (fst (fst (runTurns source (schedule ++ runToCompletion (length gs))
                 (gs, results) w))) = true.
Proof.
  rewrite runTurns_app.
  pose proof (runTurns_advanced source schedule gs results w) as [Hlen _].
  destruct (runTurns source schedule (gs, results) w) as [[gs1 results1] w1].
  simpl in *. rewrite <- Hlen.
  pose proof (runTurns_advanced source (runToCompletion (length gs1))
                gs1 results1 w1) as [Hlen' _].
  pose proof (runToCompletion_finishes source (length gs1) gs1 results1 w1)
    as Hfinish.
  destruct (runTurns source (runToCompletion (length gs1)) (gs1, results1) w1)
    as [[gs2 results2] w2]. simpl in *.
  apply forallb_forall. intros g Hin.
  apply list_elem_of_In, list_elem_of_lookup in Hin as [k Hk].
  assert (k < length gs1)%nat as Hlt.
  { apply lookup_lt_Some in Hk. lia. }
  destruct (lookup_lt_is_Some_2 gs1 k Hlt) as [g1 Hg1].
  destruct (Hfinish k g1 Hlt Hg1) as (g' & Hg' & Hzero).
  assert (g' = g) as -> by congruence.
  apply stepsLeft_returned. exact Hzero.
Qed.

(** *** [GetOutstanding] *)

Lemma GetOutstanding_fetched params schedule (w : World) messages r :
  repo_GetOutstanding (repository w)
    (MessageGetOutstandingParams.UserID params)
    (MessageGetOutstandingParams.Owner params)
    (MessageGetOutstandingParams.Limit params) = (inr messages, r) ->
  GetOutstanding params schedule w =
    let run := outstandingGoroutines
                 (MessageGetOutstandingParams.Source params) messages schedule
                 (batchStarted params messages r w) in
    (if forallb returned (fst (fst run)) then Some (inr (snd (fst run)))
     else None,
     snd run).
Proof.
  intros Hfetch. unfold GetOutstanding, repository_GetOutstanding,
    handleOutstandingMessages, batchStarted. run.
  rewrite Hfetch. simpl.
  destruct (outstandingGoroutines _ _ _ _) as [[gs results] w']. simpl.
  destruct (forallb returned gs); reflexivity.
Qed.

Lemma GetOutstanding_fetch_failed params schedule (w : World) cause r :
  repo_GetOutstanding (repository w)
    (MessageGetOutstandingParams.UserID params)
    (MessageGetOutstandingParams.Owner params)
    (MessageGetOutstandingParams.Limit params) = (inl cause, r) ->
  GetOutstanding params schedule w =
    (Some (inl (Propagate cause
                  (Sprintf "could not fetch [%d] outstanding messages"
                     [FmtInt (MessageGetOutstandingParams.Limit params)]))),
     called
       (CallGetOutstanding (MessageGetOutstandingParams.UserID params)
          (MessageGetOutstandingParams.Owner params)
          (MessageGetOutstandingParams.Limit params))
       r (eventDispatcher w) w).
Proof.
  intros Hfetch. unfold GetOutstanding, repository_GetOutstanding. run.
  rewrite Hfetch. reflexivity.
Qed.

(** *** Which goroutines fail, and what the others append *)

Lemma runTurns_snoc source schedule turn st (w : World) :
  runTurns source (schedule ++ [turn]) st w =
    runTurn source turn (fst (runTurns source schedule st w))
      (snd (runTurns source schedule st w)).
Proof.
  rewrite runTurns_app, runTurns_cons. cbn [runTurns]. unfold ret.
  destruct (runTurn source turn _ _) as [st' w']. reflexivity.
Qed.

Lemma snoc_split {A} (schedule before after : list A) (turn x : A) :
  schedule ++ [turn] = before ++ x :: after ->
  (schedule = before /\ turn = x /\ after = []) \/
  (exists after', schedule = before ++ x :: after' /\ after = after' ++ [turn]).
Proof.
  destruct after as [| y after' _] using rev_ind; intros Heq.
  - apply app_inj_tail in Heq as [-> ->]. left. repeat split.
  - right. exists after'.
    change (before ++ x :: after' ++ [y])
      with (before ++ (x :: after') ++ [y]) in Heq.
    rewrite app_assoc in Heq.
    apply app_inj_tail in Heq as [-> ->]. split; reflexivity.
Qed.

(** One step of a goroutine of the batch, program point by program point. *)
Lemma outstandingGoroutine_step source g results (w : World) :
  let g' := fst (fst (outstandingGoroutine source g results w)) in
  let results' := snd (fst (outstandingGoroutine source g results w)) in
  match g with
  | OutstandingStarted message =>
      results' = results /\
      if stepFails g w then g' = OutstandingFailed
      else exists event, g' = OutstandingDispatching message event
  | OutstandingDispatching message event =>
      results' = results /\
      if stepFails g w then g' = OutstandingFailed
      else g' = OutstandingLoading message
  | OutstandingLoading message =>
      results' = results /\
      match fst (repo_Load (repository w) (UserID message) (ID message)) with
      | inl _ => stepFails g w = true /\ g' = OutstandingFailed
      | inr resultMessage =>
          stepFails g w = false /\ g' = OutstandingAppending resultMessage
      end
  | OutstandingAppending resultMessage =>
      g' = OutstandingAppended /\ results' = results ++ [resultMessage]
  | OutstandingFailed => g' = OutstandingFailed /\ results' = results
  | OutstandingAppended => g' = OutstandingAppended /\ results' = results
  end.
Proof.
  cbv zeta. destruct g as [message | message event | message | result | | ];
    unfold outstandingGoroutine, createMessagePhoneSendingEvent,
      eventDispatcher_Dispatch, repository_Load, ctxLogger_Error, stepFails;
    try (split; reflexivity).
  - unfold bind.
    destruct (json_Marshal _) as [err | data] eqn:Hjson.
    + rewrite (createEvent_failure _ _ _ err) by exact Hjson.
      split; reflexivity.
    + rewrite (createEvent_success _ _ _ data) by exact Hjson.
      split; [ reflexivity | eexists; reflexivity ].
  - run. destruct (bus_Dispatch _ _ _) as [[[cause | ] d] r1];
      split; reflexivity.
  - run. destruct (repo_Load _ _ _) as [[cause | loaded] r1];
      repeat split; reflexivity.
Qed.

(** What a step makes of a goroutine. *)
Lemma outstandingGoroutine_ownMessage source g results (w : World) message :
  ownMessage (fst (fst (outstandingGoroutine source g results w)))
    = Some message ->
  ownMessage g = Some message.
Proof.
  pose proof (outstandingGoroutine_step source g results w) as Hstep.
  cbv zeta in Hstep. destruct g.
  - destruct Hstep as [_ Hstep]. destruct (stepFails _ w).
    + rewrite Hstep. discriminate.
    + destruct Hstep as [event ->]. trivial.
  - destruct Hstep as [_ Hstep].
    destruct (stepFails _ w); rewrite Hstep; [ discriminate | trivial ].
  - destruct Hstep as [_ Hstep].
    destruct (fst (repo_Load _ _ _)); destruct Hstep as [_ ->]; discriminate.
  - destruct Hstep as [-> _]. discriminate.
  - destruct Hstep as [-> _]. discriminate.
  - destruct Hstep as [-> _]. discriminate.
Qed.

Lemma outstandingGoroutine_fails source g results (w : World) :
  fst (fst (outstandingGoroutine source g results w)) = OutstandingFailed <->
  g = OutstandingFailed \/ stepFails g w = true.
Proof.
  pose proof (outstandingGoroutine_step source g results w) as Hstep.
  cbv zeta in Hstep. destruct g.
  - destruct Hstep as [_ Hstep]. destruct (stepFails _ w).
    + rewrite Hstep. split; [ right; reflexivity | reflexivity ].
    + destruct Hstep as [event ->].
      split; [ discriminate | intros [H | H]; discriminate ].
  - destruct Hstep as [_ Hstep]. destruct (stepFails _ w).
    + rewrite Hstep. split; [ right; reflexivity | reflexivity ].
    + rewrite Hstep. split; [ discriminate | intros [H | H]; discriminate ].
  - destruct Hstep as [_ Hstep].
    destruct (fst (repo_Load _ _ _)); destruct Hstep as [-> ->].
    + split; [ right; reflexivity | reflexivity ].
    + split; [ discriminate | intros [H | H]; discriminate ].
  - destruct Hstep as [-> _].
    split; [ discriminate | intros [H | H]; discriminate ].
  - destruct Hstep as [-> _]. split; [ left; reflexivity | reflexivity ].
  - destruct Hstep as [-> _].
    split; [ discriminate | intros [H | H]; discriminate ].
Qed.

Lemma stepFails_ownMessage g (w : World) :
  stepFails g w = true -> exists message, ownMessage g = Some message.
Proof. destruct g; simpl; intros H; try discriminate; eauto. Qed.

Lemma outstandingGoroutine_loads source g results (w : World) resultMessage :
  fst (fst (outstandingGoroutine source g results w))
    = OutstandingAppending resultMessage ->
  exists message,
    g = OutstandingLoading message /\
    fst (repo_Load (repository w) (UserID message) (ID message))
      = inr resultMessage.
Proof.
  pose proof (outstandingGoroutine_step source g results w) as Hstep.
  cbv zeta in Hstep. destruct g.
  - destruct Hstep as [_ Hstep]. destruct (stepFails _ w).
    + rewrite Hstep. discriminate.
    + destruct Hstep as [event ->]. discriminate.
  - destruct Hstep as [_ Hstep].
    destruct (stepFails _ w); rewrite Hstep; discriminate.
  - destruct Hstep as [_ Hstep].
    destruct (fst (repo_Load _ _ _)) as [cause | loaded] eqn:Hload;
      destruct Hstep as [_ ->]; [ discriminate | ].
    intros Heq. injection Heq as <-. eexists. split; [ reflexivity | ].
    exact Hload.
  - destruct Hstep as [-> _]. discriminate.
  - destruct Hstep as [-> _]. discriminate.
  - destruct Hstep as [-> _]. discriminate.
Qed.

Lemma outstandingGoroutine_appends source g results (w : World) :
  match g with
  | OutstandingAppending resultMessage =>
      fst (outstandingGoroutine source g results w)
        = (OutstandingAppended, results ++ [resultMessage])
  | _ =>
      snd (fst (outstandingGoroutine source g results w)) = results /\
      (fst (fst (outstandingGoroutine source g results w))
         = OutstandingAppended <-> g = OutstandingAppended)
  end.
Proof.
  pose proof (outstandingGoroutine_step source g results w) as Hstep.
  cbv zeta in Hstep. destruct g.
  - destruct Hstep as [-> Hstep]. split; [ reflexivity | ].
    destruct (stepFails _ w).
    + rewrite Hstep. split; discriminate.
    + destruct Hstep as [event ->]. split; discriminate.
  - destruct Hstep as [-> Hstep]. split; [ reflexivity | ].
    destruct (stepFails _ w); rewrite Hstep; split; discriminate.
  - destruct Hstep as [-> Hstep]. split; [ reflexivity | ].
    destruct (fst (repo_Load _ _ _)); destruct Hstep as [_ ->];
      split; discriminate.
  - destruct Hstep as [Hg Hresults].
    destruct (outstandingGoroutine _ _ _ _) as [[g' results'] w'].
    simpl in *. congruence.
  - destruct Hstep as [-> ->]. split; [ reflexivity | split; discriminate ].
  - destruct Hstep as [-> ->]. split; [ reflexivity | split; trivial ].
Qed.

Lemma failsDuring_snoc source messages schedule turn (w : World) i :
  failsDuring source messages schedule w i ->
  failsDuring source messages (schedule ++ [turn]) w i.
Proof.
  intros (before & after & g & -> & Hg & Hown & Hfails).
  exists before, (after ++ [turn]), g.
  rewrite <- app_assoc. repeat split; assumption.
Qed.

Lemma reloadsDuring_snoc source messages schedule turn (w : World) i rm :
  reloadsDuring source messages schedule w i rm ->
  reloadsDuring source messages (schedule ++ [turn]) w i rm.
Proof.
  intros (before & after & message & -> & Hmessage & Hg & Hload).
  exists before, (after ++ [turn]), message.
  rewrite <- app_assoc. repeat split; assumption.
Qed.

Lemma failsDuring_inv source messages schedule turn (w : World) i :
  failsDuring source messages (schedule ++ [turn]) w i ->
  failsDuring source messages schedule w i \/
  (turn = TurnOutstanding i /\
   exists g,
     fst (fst (outstandingGoroutines source messages schedule w)) !! i
       = Some g /\
     stepFails g (snd (outstandingGoroutines source messages schedule w))
       = true).
Proof.
  intros (before & after & g & Heq & Hg & Hown & Hfails).
  apply snoc_split in Heq as [(-> & -> & ->) | (after' & -> & ->)].
  - right. split; [ reflexivity | ]. exists g. split; assumption.
  - left. exists before, after', g. repeat split; assumption.
Qed.

Lemma omap_insert_Some {A} (outcomes : list (option A)) (k : nat) (x : A) :
  outcomes !! k = Some None ->
  Permutation (omap id outcomes ++ [x]) (omap id (<[k := Some x]> outcomes)).
Proof.
  revert k. induction outcomes as [| o outcomes IH]; intros k Hk.
  - discriminate.
  - destruct k as [| k]; simpl in *.
    + injection Hk as ->. simpl. symmetry. apply Permutation_cons_append.
    + specialize (IH k Hk). destruct o as [a | ]; simpl.
      * apply Permutation_cons; [ reflexivity | exact IH ].
      * exact IH.
Qed.

Lemma omap_omitted (outcomes : list (option Message)) :
  (length (omap id outcomes) + length (List.filter omitted outcomes)
   = length outcomes)%nat.
Proof.
  induction outcomes as [| [a | ] outcomes IH]; simpl; unfold omap in *; lia.
Qed.

(** The invariant holds when the goroutines start. *)
Lemma handedOut_start source messages (w : World) :
  handedOut source messages w [].
Proof.
  unfold handedOut, outstandingGoroutines. cbn [runTurns]. unfold ret. simpl.
  split; [ | split; [ | split ] ].
  - intros i g message Hg Hown.
    rewrite list_lookup_fmap in Hg.
    destruct (messages !! i) as [m | ]; [ | discriminate ].
    simpl in Hg. injection Hg as <-. exact Hown.
  - intros i. split.
    + intros Hg. rewrite list_lookup_fmap in Hg.
      destruct (messages !! i); discriminate.
    + intros (before & after & g & Heq & _). destruct before; discriminate.
  - intros i rm Hg. rewrite list_lookup_fmap in Hg.
    destruct (messages !! i); discriminate.
  - exists (map (fun _ => None) messages).
    split; [ apply length_map | ]. split.
    + induction messages as [| m ms IH]; simpl; [ constructor | exact IH ].
    + intros i Hi. rewrite !list_lookup_fmap.
      destruct (messages !! i); simpl; [ discriminate | discriminate ].
Qed.

(** A turn preserves the invariant. *)
Lemma handedOut_snoc source messages schedule turn (w : World) :
  handedOut source messages w schedule ->
  handedOut source messages w (schedule ++ [turn]).
Proof.
  assert (outstandingGoroutines source messages (schedule ++ [turn]) w =
          runTurn source turn
            (fst (outstandingGoroutines source messages schedule w))
            (snd (outstandingGoroutines source messages schedule w))) as Hsnoc.
  { unfold outstandingGoroutines. apply runTurns_snoc. }
  pose proof (runTurns_length source schedule
                (map OutstandingStarted messages, []) w) as Hlen.
  simpl in Hlen. rewrite length_map in Hlen.
  fold (outstandingGoroutines source messages schedule w) in Hlen.
  unfold handedOut. rewrite Hsnoc. clear Hsnoc.
  destruct (outstandingGoroutines source messages schedule w)
    as [[gs results] w1] eqn:Hrun.
  cbn [fst snd] in *.
  intros (Hown & Hfailed & Happending & outcomes & Hlength & Hperm & Hout).
  assert (forall i, (i < length messages)%nat ->
            outcomes !! i = Some None \/
            exists rm, outcomes !! i = Some (Some rm)) as Hcases.
  { intros i Hi.
    destruct (lookup_lt_is_Some_2 outcomes i) as [[rm | ] Ho]; [ lia | | ];
      eauto. }
  assert (match turn with
          | TurnBackground _ => True
          | TurnOutstanding i => gs !! i = None
          end \/
          exists k g, turn = TurnOutstanding k /\ gs !! k = Some g)
    as [Hidle | (k & g & -> & Hg)].
  { destruct turn as [j | k]; [ left; exact I | ].
    destruct (gs !! k) as [g | ] eqn:Hg;
      [ right; exists k, g; split; [ reflexivity | exact Hg ]
      | left; reflexivity ]. }
  - (* nothing changes for the batch *)
    rewrite (runTurn_idle source turn (gs, results) w1) by exact Hidle.
    cbn [fst snd].
    split; [ exact Hown | ]. split; [ | split ].
    + intros i. split.
      * intros Hi. apply failsDuring_snoc, Hfailed, Hi.
      * intros Hfails.
        apply failsDuring_inv in Hfails as [Hbefore | (-> & g & Hg & _)].
        -- apply Hfailed, Hbefore.
        -- rewrite Hrun in Hg. simpl in Hg, Hidle. congruence.
    + intros i rm Hi. apply reloadsDuring_snoc, Happending, Hi.
    + exists outcomes. split; [ exact Hlength | ]. split; [ exact Hperm | ].
      intros i Hi. specialize (Hout i Hi).
      destruct (outcomes !! i) as [[rm | ] | ]; try exact Hout.
      destruct Hout as [Hg Hreloads].
      split; [ exact Hg | apply reloadsDuring_snoc, Hreloads ].
  - (* goroutine [k] takes a step *)
    rewrite (runTurn_outstanding _ _ _ _ g) by exact Hg. cbn [fst snd].
    assert (k < length gs)%nat as Hk by (apply lookup_lt_Some in Hg; exact Hg).
    set (g' := fst (fst (outstandingGoroutine source g results w1))).
    set (results' := snd (fst (outstandingGoroutine source g results w1))).
    assert (forall i gi, (<[k := g']> gs) !! i = Some gi ->
              (i = k /\ gi = g') \/ (i <> k /\ gs !! i = Some gi)) as Hlookup.
    { intros i gi Hi. destruct (decide (k = i)) as [<- | Hne].
      - rewrite list_lookup_insert_eq in Hi by exact Hk.
        left. split; congruence.
      - rewrite list_lookup_insert_ne in Hi by exact Hne.
        right. split; [ congruence | exact Hi ]. }
    split; [ | split; [ | split ] ].
    + intros i gi message Hi Hmessage.
      apply Hlookup in Hi as [[-> ->] | [_ Hi]].
      * apply (Hown k g message Hg).
        apply (outstandingGoroutine_ownMessage source g results w1).
        exact Hmessage.
      * apply (Hown i gi message Hi Hmessage).
    + intros i. split.
      * intros Hi. apply Hlookup in Hi as [[-> Heq] | [_ Hi]].
        -- symmetry in Heq.
           apply outstandingGoroutine_fails in Heq as [-> | Hfails].
           ++ apply failsDuring_snoc, Hfailed, Hg.
           ++ exists schedule, [], g. rewrite Hrun. cbn [fst snd].
              split; [ reflexivity | ]. split; [ exact Hg | ].
              split; [ | exact Hfails ].
              destruct (stepFails_ownMessage g w1 Hfails) as [message Hm].
              rewrite Hm. symmetry. apply (Hown k g message Hg Hm).
        -- apply failsDuring_snoc, Hfailed, Hi.
      * intros Hfails.
        apply failsDuring_inv in Hfails as [Hbefore | (Heq & g0 & Hg0 & Hstep)].
        -- apply Hfailed in Hbefore.
           destruct (decide (k = i)) as [<- | Hne].
           ++ rewrite list_lookup_insert_eq by exact Hk. f_equal.
              apply outstandingGoroutine_fails. left. congruence.
           ++ rewrite list_lookup_insert_ne by exact Hne. exact Hbefore.
        -- injection Heq as <-. rewrite Hrun in Hg0, Hstep.
           cbn [fst snd] in Hg0, Hstep.
           rewrite list_lookup_insert_eq by exact Hk. f_equal.
           apply outstandingGoroutine_fails. right. congruence.
    + intros i rm Hi. apply Hlookup in Hi as [[-> Heq] | [_ Hi]].
      * symmetry in Heq.
        apply outstandingGoroutine_loads in Heq as (message & -> & Hload).
        exists schedule, [], message. rewrite Hrun. cbn [fst snd].
        split; [ reflexivity | ].
        split; [ apply (Hown k _ message Hg); reflexivity | ].
        split; [ exact Hg | exact Hload ].
      * apply reloadsDuring_snoc, Happending, Hi.
    + pose proof (outstandingGoroutine_appends source g results w1) as Happ.
      assert (k < length messages)%nat as Hkm by lia.
      assert ((exists rm, g = OutstandingAppending rm) \/
              forall rm, g <> OutstandingAppending rm) as [[rm ->] | Hother].
      { destruct g; try (right; discriminate). left. eauto. }
      * (* the goroutine appends [rm] *)
        fold g' results' in Happ.
        assert (g' = OutstandingAppended /\ results' = results ++ [rm])
          as [Hg' Hresults'].
        { unfold g', results'. rewrite Happ. split; reflexivity. }
        assert (outcomes !! k = Some None) as Hnone.
        { destruct (Hcases k Hkm) as [Ho | [rm' Ho]]; [ exact Ho | ].
          specialize (Hout k Hkm). rewrite Ho in Hout.
          destruct Hout as [Hg0 _]. congruence. }
        exists (<[k := Some rm]> outcomes).
        split; [ rewrite length_insert; exact Hlength | ]. split.
        -- rewrite Hresults'.
           rewrite <- (omap_insert_Some outcomes k rm Hnone).
           apply Permutation_app_tail. exact Hperm.
        -- intros i Hi. destruct (decide (k = i)) as [<- | Hne].
           ++ rewrite !list_lookup_insert_eq by lia.
              split; [ f_equal; exact Hg' | ].
              apply reloadsDuring_snoc, Happending, Hg.
           ++ rewrite !list_lookup_insert_ne by exact Hne.
              specialize (Hout i Hi).
              destruct (outcomes !! i) as [[rm' | ] | ]; try exact Hout.
              destruct Hout as [Hgi Hreloads].
              split; [ exact Hgi | apply reloadsDuring_snoc, Hreloads ].
      * (* no record is appended *)
        assert (results' = results /\
                (g' = OutstandingAppended <-> g = OutstandingAppended))
          as [Hresults' Hg'].
        { unfold g', results'.
          destruct g; try exact Happ. exfalso. eapply Hother. reflexivity. }
        exists outcomes. split; [ exact Hlength | ]. split.
        -- rewrite Hresults'. exact Hperm.
        -- intros i Hi. specialize (Hout i Hi).
           destruct (decide (k = i)) as [<- | Hne].
           ++ rewrite list_lookup_insert_eq by exact Hk.
              destruct (outcomes !! k) as [[rm' | ] | ].
              ** destruct Hout as [Hgk Hreloads]. split.
                 --- f_equal. apply Hg'. congruence.
                 --- apply reloadsDuring_snoc, Hreloads.
              ** intros Heq. apply Hout. injection Heq as Heq.
                 apply Hg' in Heq. congruence.
              ** intros Heq. apply Hout. injection Heq as Heq.
                 apply Hg' in Heq. congruence.
           ++ rewrite list_lookup_insert_ne by exact Hne.
              destruct (outcomes !! i) as [[rm' | ] | ]; try exact Hout.
              destruct Hout as [Hgi Hreloads].
              split; [ exact Hgi | apply reloadsDuring_snoc, Hreloads ].
Qed.

(** The invariant holds after any turns. *)
Lemma handedOut_always source messages schedule (w : World) :
  handedOut source messages w schedule.
Proof.
  induction schedule as [| turn schedule IH] using rev_ind.
  - apply handedOut_start.
  - apply handedOut_snoc, IH.
Qed.

(** C5.  [GetOutstanding] on a batch of N messages that the repository has
    returned.  The call waits for the goroutines of the batch: under any
    interleaving it returns, and then the shared [results] and no error,
    exactly when every goroutine has returned.  What it returns is described
    by one outcome per message of the batch: a message one of whose steps
    failed in the course of the interleaving (its event could not be built,
    the dispatcher rejected the event, or the record could not be loaded) has
    no outcome and is left out; the outcome of any other message is the
    record that [Load] returned for it, none of its steps failed, and the
    result holds exactly these records, in some order.  So with K messages
    left out the result has N - K records.
    And the call does return: after any turns already taken, letting each
    goroutine run to its end makes every goroutine return. *)
Theorem GetOutstanding_partial_results
  (params : MessageGetOutstandingParams.t) (w : World)
  (messages : list Message) (r : R) :
  repo_GetOutstanding (repository w)
    (MessageGetOutstandingParams.UserID params)
    (MessageGetOutstandingParams.Owner params)
    (MessageGetOutstandingParams.Limit params) = (inr messages, r) ->
  let source := MessageGetOutstandingParams.Source params in
  let started := batchStarted params messages r w in
  (forall schedule : list Turn,
     let run := outstandingGoroutines source messages schedule started in
     GetOutstanding params schedule w =
       (if forallb returned (fst (fst run)) then Some (inr (snd (fst run)))
        else None,
        snd run)) /\
  (forall (schedule : list Turn) (results : list Message),
     fst (GetOutstanding params schedule w) = Some (inr results) ->
     exists outcomes : list (option Message),
       length outcomes = length messages /\
       Permutation results (omap id outcomes) /\
       (length results + length (List.filter omitted outcomes)
        = length messages)%nat /\
       forall i : nat,
         (i < length messages)%nat ->
         match outcomes !! i with
         | Some (Some resultMessage) =>
             reloadsDuring source messages schedule started i resultMessage /\
             ~ failsDuring source messages schedule started i
         | Some None => failsDuring source messages schedule started i
         | None => False
         end) /\
  (forall schedule : list Turn,
     exists (results : list Message) (w' : World),
       GetOutstanding params (schedule ++ runToCompletion (length messages)) w
         = (Some (inr results), w')).
Proof.
  intros Hfetch source started. split; [ | split ].
  - intros schedule.
    apply (GetOutstanding_fetched _ _ _ messages r). exact Hfetch.
  - intros schedule results Hresult.
    rewrite (GetOutstanding_fetched _ _ _ messages r) in Hresult
      by exact Hfetch.
    cbv zeta in Hresult. fold source started in Hresult.
    pose proof (handedOut_always source messages schedule started) as Hinv.
    pose proof (runTurns_length source schedule
                  (map OutstandingStarted messages, []) started) as Hlen.
    simpl in Hlen. rewrite length_map in Hlen.
    fold (outstandingGoroutines source messages schedule started) in Hlen.
    unfold handedOut in Hinv.
    destruct (outstandingGoroutines source messages schedule started)
      as [[gs results'] w']. cbn [fst snd] in *.
    destruct (forallb returned gs) eqn:Hreturned; [ | discriminate ].
    injection Hresult as ->.
    destruct Hinv as (_ & Hfailed & _ & outcomes & Hlength & Hperm & Hout).
    exists outcomes. split; [ exact Hlength | ]. split; [ exact Hperm | ].
    split.
    + rewrite (Permutation_length Hperm), <- Hlength. apply omap_omitted.
    + intros i Hi. specialize (Hout i Hi).
      destruct (lookup_lt_is_Some_2 gs i) as [g Hg]; [ lia | ].
      assert (returned g = true) as Hg_returned.
      { rewrite forallb_forall in Hreturned. apply Hreturned.
        apply list_elem_of_In, list_elem_of_lookup. eauto. }
      destruct (outcomes !! i) as [[rm | ] | ] eqn:Ho.
      * destruct Hout as [Happended Hreloads]. split; [ exact Hreloads | ].
        intros Hfails. apply Hfailed in Hfails. congruence.
      * apply Hfailed. rewrite Hg. f_equal.
        destruct g; try discriminate; [ reflexivity | ].
        exfalso. apply Hout. exact Hg.
      * apply lookup_ge_None in Ho. lia.
  - intros schedule.
    rewrite (GetOutstanding_fetched _ _ _ messages r) by exact Hfetch.
    cbv zeta. unfold outstandingGoroutines.
    pose proof (runToCompletion_returned
                  (MessageGetOutstandingParams.Source params) schedule
                  (map OutstandingStarted messages) []
                  (batchStarted params messages r w)) as Hreturned.
    rewrite length_map in Hreturned. rewrite Hreturned.
    eexists _, _. reflexivity.
Qed.

(** *** The heartbeat *)

Lemma heartbeat_build_failed quantity params err (w : World) :
  json_Marshal (heartbeatPayload params quantity) = inl err ->
  let event := envelope EventTypeHeartbeatPhoneOutstanding
                 (MessageGetOutstandingParams.Source params) w in
  let logged :=
    Propagate
      (Propagate err
         (Sprintf "cannot encode %T [%#+v] as JSON"
            [FmtPayload (heartbeatPayload params quantity);
             FmtPayload (heartbeatPayload params quantity)]))
      (Sprintf "cannot create event [%s] for owner [%s]"
         [FmtEventType (Some EventTypeHeartbeatPhoneOutstanding);
          FmtString (MessageGetOutstandingParams.Owner params)]) in
  registerHeartbeatEvent (HeartbeatStarted quantity params) w =
    (HeartbeatDispatching event, snd (ctxLogger_Error logged (drew w))).
Proof.
  intros Hjson. cbv zeta.
  unfold registerHeartbeatEvent, createHeartbeatPhoneOutstandingEvent, bind.
  fold (heartbeatPayload params quantity).
  rewrite (createEvent_failure _ _ _ err) by exact Hjson. reflexivity.
Qed.

Lemma heartbeat_dispatch event (w : World) :
  fst (registerHeartbeatEvent (HeartbeatDispatching event) w)
    = HeartbeatReturned /\
  calls (snd (registerHeartbeatEvent (HeartbeatDispatching event) w))
    = calls w ++ [CallDispatch event] /\
  match fst (fst (bus_Dispatch (eventDispatcher w) (repository w) event)) with
  | Some cause =>
      exists msg,
        errorLog (snd (registerHeartbeatEvent (HeartbeatDispatching event) w))
          = errorLog w ++ [Propagate cause msg]
  | None =>
      errorLog (snd (registerHeartbeatEvent (HeartbeatDispatching event) w))
        = errorLog w
  end.
Proof.
  unfold registerHeartbeatEvent, eventDispatcher_Dispatch, ctxLogger_Error.
  run. destruct (bus_Dispatch _ _ _) as [[[cause | ] d] r1]; simpl;
    repeat split; eauto.
Qed.

Lemma registerHeartbeatEvent_background g (w : World) :
  background (snd (registerHeartbeatEvent g w)) = background w.
Proof.
  destruct g as [quantity params | event | ];
    unfold registerHeartbeatEvent, createHeartbeatPhoneOutstandingEvent,
      eventDispatcher_Dispatch, ctxLogger_Error, createEvent, now, newUUID;
    run.
  - destruct (json_Marshal _); reflexivity.
  - destruct (bus_Dispatch _ _ _) as [[[cause | ] d] r1]; reflexivity.
  - reflexivity.
Qed.

Lemma runBackground_turn j g (w : World) :
  background w !! j = Some g ->
  snd (runBackground j w) =
    setBackground
      (<[j := fst (registerHeartbeatEvent g w)]> (background w))
      (snd (registerHeartbeatEvent g w)).
Proof.
  intros Hg. unfold runBackground. rewrite Hg.
  pose proof (registerHeartbeatEvent_background g w) as Hbackground.
  destruct (registerHeartbeatEvent g w) as [g' w']. simpl in *.
  rewrite Hbackground. reflexivity.
Qed.

(** The two turns of a heartbeat goroutine whose payload cannot be encoded:
    the dispatcher is called with the envelope without data. *)
Lemma heartbeat_turns_after_encoding_failure j quantity params err (w0 : World) :
  background w0 !! j = Some (HeartbeatStarted quantity params) ->
  json_Marshal (heartbeatPayload params quantity) = inl err ->
  let event := envelope EventTypeHeartbeatPhoneOutstanding
                 (MessageGetOutstandingParams.Source params) w0 in
  calls (snd (runBackground j (snd (runBackground j w0))))
    = calls w0 ++ [CallDispatch event].
Proof.
  intros H0 Hjson event.
  pose proof (runBackground_turn j _ w0 H0) as Hw1.
  rewrite (heartbeat_build_failed _ _ err) in Hw1 by exact Hjson.
  cbv zeta in Hw1. cbn [fst snd] in Hw1. fold event in Hw1.
  set (w1 := snd (runBackground j w0)) in *.
  assert (background w1 !! j = Some (HeartbeatDispatching event)) as H1.
  { rewrite Hw1. unfold setBackground. cbn [background].
    apply list_lookup_insert_eq. apply lookup_lt_Some in H0. exact H0. }
  rewrite (runBackground_turn j _ w1 H1).
  destruct (heartbeat_dispatch event w1) as (_ & Hcalls & _).
  unfold setBackground at 1. cbn [calls]. rewrite Hcalls.
  rewrite Hw1. reflexivity.
Qed.

(** C1, at the heartbeat.  When the payload of the heartbeat cannot be
    encoded, [registerHeartbeatEvent] logs the error of [createEvent] and goes
    on: once the goroutine has had its two turns, the dispatcher has been
    called with the envelope, which carries no data. *)
Theorem heartbeat_dispatched_after_encoding_failure
  (params : MessageGetOutstandingParams.t) (w : World)
  (messages : list Message) (r : R) (err : Error) :
  repo_GetOutstanding (repository w)
    (MessageGetOutstandingParams.UserID params)
    (MessageGetOutstandingParams.Owner params)
    (MessageGetOutstandingParams.Limit params) = (inr messages, r) ->
  json_Marshal (heartbeatPayload params (Z.of_nat (length messages)))
    = inl err ->
  let j := length (background w) in
  let w' := snd (GetOutstanding params [TurnBackground j; TurnBackground j] w) in
  exists event : Event,
    eventData event = None /\
    calls w' =
      calls w ++
      [CallGetOutstanding (MessageGetOutstandingParams.UserID params)
         (MessageGetOutstandingParams.Owner params)
         (MessageGetOutstandingParams.Limit params);
       CallDispatch event].
Proof.
  intros Hfetch Hjson. cbv zeta.
  rewrite (GetOutstanding_fetched _ _ _ messages r) by exact Hfetch.
  cbv zeta. unfold outstandingGoroutines.
  rewrite !runTurns_cons. cbn [runTurns ret snd fst].
  set (w0 := batchStarted params messages r w).
  assert (background w0 !! length (background w)
          = Some (HeartbeatStarted (Z.of_nat (length messages)) params)) as H0.
  { unfold w0, batchStarted. simpl. apply list_lookup_middle. reflexivity. }
  assert (forall st (w1 : World),
            snd (runTurn (MessageGetOutstandingParams.Source params)
                   (TurnBackground (length (background w))) st w1)
            = snd (runBackground (length (background w)) w1)) as Hturn.
  { intros [gs results] w1. unfold runTurn. run.
    destruct (runBackground _ w1). reflexivity. }
  rewrite !Hturn.
  rewrite (heartbeat_turns_after_encoding_failure _ _ _ err w0 H0 Hjson).
  eexists. split; [ | unfold w0, batchStarted; simpl; rewrite <- app_assoc;
                      reflexivity ].
  reflexivity.
Qed.

(** The other event-emitting paths return as soon as [createEvent] fails, so
    the dispatcher is not called. *)
Lemma SendMessage_not_encoded (params : MessageSendParams.t) (w : World) err :
  (forall payload, json_Marshal payload = inl err) ->
  calls (snd (SendMessage params w)) = calls w /\
  exists cause, fst (SendMessage params w) = inl cause.
Proof.
  intros Hjson. unfold SendMessage, createMessageAPISentEvent, newUUID, bind.
  rewrite (createEvent_failure _ _ _ err) by apply Hjson. simpl. eauto.
Qed.

Lemma ReceiveMessage_not_encoded (params : MessageReceiveParams.t)
  (w : World) err :
  (forall payload, json_Marshal payload = inl err) ->
  calls (snd (ReceiveMessage params w)) = calls w /\
  exists cause, fst (ReceiveMessage params w) = inl cause.
Proof.
  intros Hjson.
  unfold ReceiveMessage, createMessagePhoneReceivedEvent, newUUID, bind.
  rewrite (createEvent_failure _ _ _ err) by apply Hjson. simpl. eauto.
Qed.

Lemma outstandingGoroutine_not_encoded source message results (w : World) err :
  json_Marshal
    (MessagePhoneSendingPayload (ID message) (Owner message) (Contact message)
       (UserID message) (Content message)) = inl err ->
  fst (outstandingGoroutine source (OutstandingStarted message) results w)
    = (OutstandingFailed, results) /\
  calls (snd (outstandingGoroutine source (OutstandingStarted message)
                results w)) = calls w.
Proof.
  intros Hjson.
  unfold outstandingGoroutine, createMessagePhoneSendingEvent, bind.
  rewrite (createEvent_failure _ _ _ err) by exact Hjson. simpl. eauto.
Qed.

(** C8.  [GetOutstanding] returns an error exactly when the fetch from the
    repository fails.  What goes wrong in the heartbeat goroutine ends in the
    error log: the goroutine has no result, and a turn of it appends the
    error of a failed build or of a failed dispatch to the log. *)
Theorem GetOutstanding_error_iff_fetch_fails
  (params : MessageGetOutstandingParams.t) (schedule : list Turn) (w : World) :
  ((exists err, fst (GetOutstanding params schedule w) = Some (inl err)) <->
   (exists cause,
      fst (repo_GetOutstanding (repository w)
             (MessageGetOutstandingParams.UserID params)
             (MessageGetOutstandingParams.Owner params)
             (MessageGetOutstandingParams.Limit params)) = inl cause)) /\
  (forall (quantity : Z) (cause : Error) (w0 : World),
     json_Marshal (heartbeatPayload params quantity) = inl cause ->
     exists msg msg',
       errorLog (snd (registerHeartbeatEvent
                        (HeartbeatStarted quantity params) w0))
         = errorLog w0 ++ [Propagate (Propagate cause msg) msg']) /\
  (forall (event : Event) (cause : Error) (d : D) (r : R) (w0 : World),
     bus_Dispatch (eventDispatcher w0) (repository w0) event
       = (Some cause, d, r) ->
     exists msg,
       errorLog (snd (registerHeartbeatEvent (HeartbeatDispatching event) w0))
         = errorLog w0 ++ [Propagate cause msg]).
Proof.
  split; [ | split ].
  - destruct (repo_GetOutstanding (repository w)
                (MessageGetOutstandingParams.UserID params)
                (MessageGetOutstandingParams.Owner params)
                (MessageGetOutstandingParams.Limit params))
      as [[cause | messages] r] eqn:Hfetch; simpl.
    + rewrite (GetOutstanding_fetch_failed _ _ _ cause r) by exact Hfetch.
      simpl. split; eauto.
    + rewrite (GetOutstanding_fetched _ _ _ messages r) by exact Hfetch.
      cbv zeta. simpl. split.
      * intros [err Herr]. destruct (forallb returned _); discriminate.
      * intros [cause Hcause]. discriminate.
  - intros quantity cause w0 Hjson.
    rewrite (heartbeat_build_failed _ _ cause) by exact Hjson.
    cbv zeta. simpl. eauto.
  - intros event cause d r w0 Hdispatch.
    destruct (heartbeat_dispatch event w0) as (_ & _ & Hlog).
    rewrite Hdispatch in Hlog. exact Hlog.
Qed.

End Properties.

(** * Properties of the requests *)

Section RequestProperties.

Context `{lib : Libraries}.

(** C10.  [ToUpdateParams] has no error result: it panics exactly when
    [uuid.Parse] rejects the [MessageThreadID] of the request, and returns,
    with the parsed id, exactly when [uuid.Parse] accepts it. *)
Theorem ToUpdateParams_panics_on_invalid_UUID
  (input : MessageThreadUpdate.t) (userID : entities_UserID) :
  ((exists cause, ToUpdateParams input userID = Panics cause) <->
   (exists err,
      uuid_Parse (MessageThreadUpdate.MessageThreadID input) = inl err)) /\
  ((exists params, ToUpdateParams input userID = Returns params) <->
   (exists id,
      uuid_Parse (MessageThreadUpdate.MessageThreadID input) = inr id)) /\
  (forall id,
     uuid_Parse (MessageThreadUpdate.MessageThreadID input) = inr id ->
     ToUpdateParams input userID =
       Returns (MessageThreadStatusParams.mk userID id
                  (MessageThreadUpdate.IsArchived input))).
Proof.
  unfold ToUpdateParams, uuid_MustParse.
  destruct (uuid_Parse (MessageThreadUpdate.MessageThreadID input))
    as [err | id].
  - repeat split; eauto; try (intros [x Hx]; discriminate).
    intros id Hid. discriminate.
  - repeat split; eauto; try (intros [x Hx]; discriminate).
    intros id' Hid. congruence.
Qed.

End RequestProperties.

(** * The service at work on the in-memory collaborators *)

Section Examples.

Existing Instance memoryRepository.
Existing Instance unreachableRepository.
Existing Instance exampleBus.
Existing Instance unreachableBus.
Existing Instance exampleLibraries.
Existing Instance exampleMethods.

Lemma find_after_miss {A} (p : A -> bool) (l : list A) (x : A) :
  existsb p l = false -> p x = true -> List.find p (l ++ [x]) = Some x.
Proof.
  induction l as [| a l IH]; simpl; intros Hmiss Hx.
  - rewrite Hx. reflexivity.
  - apply orb_false_iff in Hmiss as [Ha Hl]. rewrite Ha. apply IH; assumption.
Qed.

(** The in-memory repository honours the round-trip contract. *)
Lemma memoryRepository_StoreThenLoad : StoreThenLoad (R := list Message).
Proof.
  intros rows rows' message. simpl. unfold memory_Store, memory_Load.
  destruct (existsb _ rows) eqn:Hmiss; [ discriminate | ].
  intros Hstore. injection Hstore as <-.
  rewrite find_after_miss; [ reflexivity | exact Hmiss | ].
  unfold memory_row. rewrite String.eqb_refl, N.eqb_refl. reflexivity.
Qed.

(** Example for C1: a heartbeat whose timestamp lies in the year 10000 cannot
    be encoded, and its envelope reaches the dispatcher all the same. *)
Lemma heartbeat_dispatched_after_encoding_failure_witness :
  let params :=
    MessageGetOutstandingParams.mk "phone" "+18005550199" "user-1" year10000 10 in
  let w := exampleWorld [] in
  repo_GetOutstanding (repository w) "user-1" "+18005550199" 10
    = (inr [], []) /\
  json_Marshal (heartbeatPayload params 0)
    = inl (ExternalError "Time.MarshalJSON: year outside of range [0,9999]") /\
  exists event : Event,
    eventData event = None /\
    calls (snd (GetOutstanding params [TurnBackground 0; TurnBackground 0] w))
      = [CallGetOutstanding "user-1" "+18005550199" 10; CallDispatch event].
Proof.
  split; [ reflexivity | ]. split; [ reflexivity | ].
  exact (heartbeat_dispatched_after_encoding_failure
           (MessageGetOutstandingParams.mk "phone" "+18005550199" "user-1"
              year10000 10)
           (exampleWorld []) [] []
           (ExternalError "Time.MarshalJSON: year outside of range [0,9999]")
           eq_refl eq_refl).
Defined.

(** Example for C2: [StoreEvent] with the name Sent on a message that is still
    Pending returns no error and hands one event to the dispatcher. *)
Lemma StoreEvent_dispatches_for_pending_message :
  let message := exampleMessage 1 MessageStatusPending "hello" in
  let params :=
    MessageStorePhoneEventParams.mk 1 MessageEventNameSent 1700000100 "phone" in
  let w := exampleWorld [message] in
  IsSending message = false /\
  fst (StoreEvent message params w) = inr message /\
  exists event : Event,
    eventType event = Some EventTypeMessagePhoneSent /\
    dispatches (snd (StoreEvent message params w)) = [CallDispatch event].
Proof.
  cbv zeta. split; [ reflexivity | ]. split; [ reflexivity | ].
  eexists. split; [ | vm_compute; reflexivity ]. reflexivity.
Qed.

Lemma StoreEvent_no_transition_guard_witness :
  let message := exampleMessage 1 MessageStatusPending "hello" in
  let params :=
    MessageStorePhoneEventParams.mk 1 MessageEventNameDelivered 1700000100
      "phone" in
  let w := exampleWorld [message] in
  StoreEvent (withStatus MessageStatusSent message) params w
    = StoreEvent message params w /\
  (exists event : Event,
     eventData event
       = Some (payloadText
                 (MessagePhoneDeliveredPayload 1 "+18005550199" 1700000100
                    "+18005550100" "hello")) /\
     dispatches (snd (StoreEvent message params w)) = [CallDispatch event]) /\
  fst (StoreEvent message params w) = fst (repo_Load [message] "user-1" 1).
Proof.
  cbv zeta.
  destruct (StoreEvent_no_transition_guard
              (repo := memoryRepository) (bus := exampleBus)
              (lib := exampleLibraries)
              (exampleMessage 1 MessageStatusPending "hello")
              (MessageStorePhoneEventParams.mk 1 MessageEventNameDelivered
                 1700000100 "phone")
              (exampleWorld [exampleMessage 1 MessageStatusPending "hello"]))
    as (Hstatus & Hdispatch & Hresult & _).
  split; [ apply Hstatus | ].
  split; [ exact (Hdispatch _ _ eq_refl eq_refl) | ].
  exact (Hresult _ _ eq_refl eq_refl).
Defined.

(** Example for C3: the Sent transition on a message that is still Pending. *)
Lemma HandleMessageSent_wrong_status_witness :
  let message := exampleMessage 1 MessageStatusPending "hello" in
  let params := HandleMessageParams.mk 1 "user-1" 1700000100 in
  let w := exampleWorld [message] in
  repo_Load (repository w) "user-1" 1 = (inr message, [message]) /\
  Status message <> MessageStatusSending /\
  fst (HandleMessageSent params w) =
    Some (NewError
            (Sprintf "message has wrong status [%s]. expected %s"
               [FmtStatus MessageStatusPending;
                FmtStatus MessageStatusSending])) /\
  calls (snd (HandleMessageSent params w)) = [CallLoad "user-1" 1] /\
  repository (snd (HandleMessageSent params w)) = [message] /\
  eventDispatcher (snd (HandleMessageSent params w)) = [].
Proof.
  cbv zeta. split; [ reflexivity | ]. split; [ discriminate | ].
  exact (HandleMessageSent_wrong_status
           (HandleMessageParams.mk 1 "user-1" 1700000100)
           (exampleWorld [exampleMessage 1 MessageStatusPending "hello"])
           (exampleMessage 1 MessageStatusPending "hello")
           [exampleMessage 1 MessageStatusPending "hello"]
           eq_refl ltac:(discriminate)).
Defined.

(** Example for C4: the Failed transition from Sent, and from Delivered. *)
Lemma HandleMessageFailed_transitions_witness :
  let sent := exampleMessage 1 MessageStatusSent "hello" in
  let delivered := exampleMessage 2 MessageStatusDelivered "bye" in
  let w := exampleWorld [sent; delivered] in
  let failed := withStatus MessageStatusFailed sent in
  repo_Load (repository w) "user-1" 1 = (inr sent, [sent; delivered]) /\
  repo_Load (repository w) "user-1" 2 = (inr delivered, [sent; delivered]) /\
  repo_Update [sent; delivered] failed = (None, [failed; delivered]) /\
  (fst (HandleMessageFailed (HandleMessageParams.mk 1 "user-1" 1700000100) w)
     = None /\
   calls (snd (HandleMessageFailed
                 (HandleMessageParams.mk 1 "user-1" 1700000100) w))
     = [CallLoad "user-1" 1; CallUpdate failed] /\
   repository (snd (HandleMessageFailed
                      (HandleMessageParams.mk 1 "user-1" 1700000100) w))
     = [failed; delivered]) /\
  (fst (HandleMessageFailed (HandleMessageParams.mk 2 "user-1" 1700000100) w)
     = Some (NewError
               (Sprintf "message has wrong status [%s]. expected [%s,%s]"
                  [FmtStatus MessageStatusDelivered;
                   FmtStatus MessageStatusSending;
                   FmtStatus MessageStatusSent])) /\
   calls (snd (HandleMessageFailed
                 (HandleMessageParams.mk 2 "user-1" 1700000100) w))
     = [CallLoad "user-1" 2] /\
   repository (snd (HandleMessageFailed
                      (HandleMessageParams.mk 2 "user-1" 1700000100) w))
     = [sent; delivered]).
Proof.
  cbv zeta. split; [ reflexivity | ]. split; [ reflexivity | ].
  split; [ reflexivity | ]. split.
  - exact (proj1
             (HandleMessageFailed_transitions
                (HandleMessageParams.mk 1 "user-1" 1700000100)
                (exampleWorld [exampleMessage 1 MessageStatusSent "hello";
                               exampleMessage 2 MessageStatusDelivered "bye"])
                (exampleMessage 1 MessageStatusSent "hello")
                [exampleMessage 1 MessageStatusSent "hello";
                 exampleMessage 2 MessageStatusDelivered "bye"]
                eq_refl)
             (or_intror eq_refl) _ eq_refl).
  - exact (proj2
             (HandleMessageFailed_transitions
                (HandleMessageParams.mk 2 "user-1" 1700000100)
                (exampleWorld [exampleMessage 1 MessageStatusSent "hello";
                               exampleMessage 2 MessageStatusDelivered "bye"])
                (exampleMessage 2 MessageStatusDelivered "bye")
                [exampleMessage 1 MessageStatusSent "hello";
                 exampleMessage 2 MessageStatusDelivered "bye"]
                eq_refl)
             (or_intror (or_introl eq_refl))).
Defined.

(** Example for C5: before any goroutine has run the call has not returned;
    after the interleaving [exampleSchedule] it returns two of the three
    messages of the batch, in the order in which their goroutines appended
    them: the one that the bus rejects is left out. *)
Lemma GetOutstanding_partial_results_witness :
  let params := exampleOutstandingParams in
  let w := exampleWorld exampleBatch in
  let started := batchStarted params exampleBatch exampleBatch w in
  repo_GetOutstanding (repository w) "user-1" "+18005550199" 10
    = (inr exampleBatch, exampleBatch) /\
  fst (GetOutstanding params [] w) = None /\
  exists results : list Message,
    fst (GetOutstanding params exampleSchedule w) = Some (inr results) /\
    map ID results = [3%N; 1%N] /\
    exists outcomes : list (option Message),
      length outcomes = length exampleBatch /\
      Permutation results (omap id outcomes) /\
      (length results + length (List.filter omitted outcomes)
       = length exampleBatch)%nat /\
      forall i : nat,
        (i < length exampleBatch)%nat ->
        match outcomes !! i with
        | Some (Some resultMessage) =>
            reloadsDuring "phone" exampleBatch exampleSchedule started i
              resultMessage /\
            ~ failsDuring "phone" exampleBatch exampleSchedule started i
        | Some None =>
            failsDuring "phone" exampleBatch exampleSchedule started i
        | None => False
        end.
Proof.
  cbv zeta. split; [ reflexivity | ].
  destruct (GetOutstanding_partial_results
              (repo := memoryRepository) (bus := exampleBus)
              (lib := exampleLibraries)
              exampleOutstandingParams (exampleWorld exampleBatch)
              exampleBatch exampleBatch eq_refl)
    as (Hbarrier & Hresults & _).
  split; [ rewrite (Hbarrier []); reflexivity | ].
  eexists. split; [ vm_compute; reflexivity | ].
  split; [ reflexivity | ].
  apply (Hresults exampleSchedule). vm_compute. reflexivity.
Defined.

(** Example for C6: a message stored in an empty table and loaded again. *)
Lemma StoreSentMessage_round_trip_witness :
  let params := exampleStoreParams in
  let w := exampleWorld [] in
  exists (stored : Message) (w1 : World (list Message) (list Event)),
    StoreSentMessage params w = (inr stored, w1) /\
    exists (loaded : Message) (w2 : World (list Message) (list Event)),
      repository_Load (UserID stored) 7 w1 = (inr loaded, w2) /\
      Status loaded = MessageStatusPending /\
      Type_ loaded = MessageTypeMobileTerminated /\
      RequestReceivedAt loaded = 1700000050 /\
      OrderTimestamp loaded = 1700000050 /\
      RequestReceivedAt loaded = OrderTimestamp loaded /\
      SendDuration loaded = None /\
      LastAttemptedAt loaded = None /\
      SentAt loaded = None /\
      ReceivedAt loaded = None.
Proof.
  cbv zeta. eexists _, _.
  split; [ vm_compute; reflexivity | ].
  refine (StoreSentMessage_round_trip exampleStoreParams (exampleWorld []) _ _
            memoryRepository_StoreThenLoad _).
  vm_compute. reflexivity.
Defined.

(** Example for C7: two successful Sent transitions return the same value,
    nil, although the records that they hand to [Update] differ: no record is
    returned. *)
Lemma HandleMessageSent_returns_no_record :
  let first := exampleMessage 1 MessageStatusSending "hello" in
  let second := exampleMessage 2 MessageStatusSending "bye" in
  let w := exampleWorld [first; second] in
  let params1 := HandleMessageParams.mk 1 "user-1" 1700000100 in
  let params2 := HandleMessageParams.mk 2 "user-1" 1700000100 in
  fst (HandleMessageSent params1 w) = None /\
  fst (HandleMessageSent params2 w) = None /\
  calls (snd (HandleMessageSent params1 w))
    = [CallLoad "user-1" 1; CallUpdate (Sent first 1700000100)] /\
  calls (snd (HandleMessageSent params2 w))
    = [CallLoad "user-1" 2; CallUpdate (Sent second 1700000100)] /\
  Sent first 1700000100 <> Sent second 1700000100.
Proof.
  cbv zeta. repeat split. discriminate.
Qed.

(** Example for C8: with a repository that cannot be reached [GetOutstanding]
    returns an error; with the in-memory one it does not, although a message
    of the batch fails; a heartbeat that cannot be encoded ends in the error
    log. *)
Lemma GetOutstanding_error_iff_fetch_fails_witness :
  (exists err,
     fst (GetOutstanding exampleOutstandingParams [] unreachableWorld)
       = Some (inl err)) /\
  ~ (exists err,
       fst (GetOutstanding exampleOutstandingParams exampleSchedule
              (exampleWorld exampleBatch)) = Some (inl err)) /\
  exists msg msg',
    errorLog
      (snd (registerHeartbeatEvent
              (HeartbeatStarted 3
                 (MessageGetOutstandingParams.mk "phone" "+18005550199"
                    "user-1" year10000 10))
              (exampleWorld exampleBatch)))
    = [Propagate
         (Propagate
            (ExternalError "Time.MarshalJSON: year outside of range [0,9999]")
            msg) msg'].
Proof.
  split; [ | split ].
  - apply (proj1 (GetOutstanding_error_iff_fetch_fails
                    exampleOutstandingParams [] unreachableWorld)).
    eexists. reflexivity.
  - intros Herr.
    apply (proj1 (GetOutstanding_error_iff_fetch_fails
                    exampleOutstandingParams exampleSchedule
                    (exampleWorld exampleBatch))) in Herr.
    destruct Herr as [cause Hcause]. discriminate.
  - exact (proj1
             (proj2 (GetOutstanding_error_iff_fetch_fails
                       (MessageGetOutstandingParams.mk "phone" "+18005550199"
                          "user-1" year10000 10)
                       [] (exampleWorld exampleBatch)))
             3 _ (exampleWorld exampleBatch) eq_refl).
Defined.

(** Example for C9: the params name user-1, the stored record of a sent
    message names nobody, that of a received message names user-1. *)
Lemma StoreSentMessage_drops_UserID_witness :
  exists sent received : Message,
    calls (snd (StoreSentMessage exampleStoreParams (exampleWorld [])))
      = [CallStore sent] /\
    fst (StoreSentMessage exampleStoreParams (exampleWorld [])) = inr sent /\
    UserID sent = "" /\
    UserID sent <> "user-1" /\
    calls (snd (StoreReceivedMessage exampleStoreParams (exampleWorld [])))
      = [CallStore received] /\
    UserID received = "user-1".
Proof.
  destruct (StoreSentMessage_drops_UserID exampleStoreParams (exampleWorld []))
    as (sent & received & Hcalls & Hreturned & Hzero & Hiff & Hcalls'
        & _ & Huser).
  exists sent, received.
  split; [ exact Hcalls | ].
  split; [ rewrite <- (Hreturned _ eq_refl); reflexivity | ].
  split; [ exact Hzero | ].
  split; [ intros Hsame; apply Hiff in Hsame; discriminate | ].
  split; [ exact Hcalls' | exact Huser ].
Defined.

(** Example for C10: a request whose thread id is no UUID makes
    [ToUpdateParams] panic; a canonical id is parsed. *)
Lemma ToUpdateParams_panics_on_invalid_UUID_witness :
  (exists cause,
     ToUpdateParams (MessageThreadUpdate.mk true "not-a-uuid") "user-1"
       = Panics cause) /\
  ToUpdateParams
    (MessageThreadUpdate.mk true "00000000-0000-0000-0000-000000001000")
    "user-1"
    = Returns (MessageThreadStatusParams.mk "user-1" 4096 true).
Proof.
  split.
  - apply (proj1 (ToUpdateParams_panics_on_invalid_UUID
                    (MessageThreadUpdate.mk true "not-a-uuid") "user-1")).
    eexists. reflexivity.
  - exact (proj2 (proj2 (ToUpdateParams_panics_on_invalid_UUID
                           (MessageThreadUpdate.mk true
                              "00000000-0000-0000-0000-000000001000")
                           "user-1"))
             4096%N eq_refl).
Defined.

End Examples.

(** * Further properties: the broadcast receivers *)

Section ReceiverProperties.

Context {AndroidContext : Type} `{android : Android AndroidContext}.

Lemma contains_char (s : string) (c : ascii) :
  contains s (String c EmptyString) = true <-> In c (list_ascii_of_string s).
Proof.
  induction s as [| a s IH]; simpl.
  - split; [ discriminate | intros [] ].
  - destruct (ascii_dec c a) as [Heq | Hne]; simpl.
    + assert (String.prefix EmptyString s = true) as ->
        by (destruct s; reflexivity).
      split; [ intros _; left; congruence | reflexivity ].
    + rewrite IH. split; [ intros Hin; right; exact Hin | ].
      intros [Heq | Hin]; [ congruence | exact Hin ].
Qed.

Lemma split_not_empty (d : ascii) (s : string) : split d s <> [].
Proof.
  destruct s as [| c rest]; simpl; [ discriminate | ].
  destruct (Ascii.eqb c d); [ discriminate | ].
  destruct (split d rest); discriminate.
Qed.

(** A string in which the delimiter occurs has at least two parts. *)
Lemma split_second_part (d : ascii) (s : string) :
  In d (list_ascii_of_string s) -> exists part, nth_error (split d s) 1 = Some part.
Proof.
  induction s as [| c rest IH]; simpl; [ intros [] | ].
  intros Hin. destruct (Ascii.eqb c d) eqn:Hc.
  - pose proof (split_not_empty d rest) as Hne.
    destruct (split d rest) as [| part parts]; [ congruence | ].
    exists part. reflexivity.
  - destruct Hin as [Heq | Hin].
    { subst c. rewrite Ascii.eqb_refl in Hc. discriminate. }
    destruct (IH Hin) as [part Hpart].
    destruct (split d rest) as [| first [| second parts]]; simpl in *;
      try discriminate.
    exists second. reflexivity.
Qed.

(** X15.  [isValid] never throws, and it accepts a message id exactly when the
    id is present, the user is logged in, one of the two SIMs is active, and
    the id has no dot in it (an id with a dot names a segment of a multipart
    message). *)
Theorem isValid_decides (context : AndroidContext) (messageId : option string) :
  exists valid : bool,
    isValid context messageId = Some valid /\
    (valid = true <->
     exists id : string,
       messageId = Some id /\
       Settings_isLoggedIn context = true /\
       (Settings_getActiveStatus context Constants_SIM1 = true \/
        Settings_getActiveStatus context Constants_SIM2 = true) /\
       ~ In "."%char (list_ascii_of_string id)).
Proof.
  unfold isValid. destruct messageId as [id | ].
  2:{ exists false. split; [ reflexivity | ].
      split; [ discriminate | intros (id & Hid & _); discriminate ]. }
  destruct (Settings_isLoggedIn context) eqn:Hlogged; cbn [negb].
  2:{ exists false. split; [ reflexivity | ].
      split; [ discriminate | intros (id' & _ & Hl & _); discriminate ]. }
  destruct (Settings_getActiveStatus context Constants_SIM1) eqn:H1,
           (Settings_getActiveStatus context Constants_SIM2) eqn:H2;
    cbn [negb andb].
  4:{ exists false. split; [ reflexivity | ].
      split; [ discriminate | ].
      intros (id' & _ & _ & [Ha | Ha] & _); discriminate. }
  all: destruct (contains id ".") eqn:Hdot.
  all: try (apply contains_char in Hdot;
            destruct (split_second_part _ _ Hdot) as [part ->];
            exists false; split; [ reflexivity | ];
            split; [ discriminate | ];
            intros (id' & Hid & _ & _ & Hno); injection Hid as <-;
            contradiction).
  all: exists true; split; [ reflexivity | ];
    split; [ intros _ | reflexivity ];
    exists id; repeat split; auto;
    intros Hin; apply contains_char in Hin; congruence.
Qed.

(** X16.  [register] fills both fields, registers a receiver only for a field
    that was null, the sent receiver first, and a second call changes nothing:
    any number of calls on a fresh object leaves exactly two registrations. *)
Theorem register_once (app : App AndroidContext) (self : Receiver) :
  let app' := fst (register app self) in
  let self' := snd (register app self) in
  sentReceiver self' <> None /\
  deliveredReceiver self' <> None /\
  registrations app' =
    registrations app
    ++ match sentReceiver self with
       | None => [(ASentReceiver SentReceiver_new,
                   IntentFilter_new SmsManagerService_sentAction)]
       | Some _ => []
       end
    ++ match deliveredReceiver self with
       | None => [(ADeliveredReceiver DeliveredReceiver_new,
                   IntentFilter_new SmsManagerService_deliveredAction)]
       | Some _ => []
       end /\
  register app' self' = (app', self') /\
  forall n : nat,
    registrations
      (fst (Nat.iter (S n) (fun st => register (fst st) (snd st))
              (app, mkReceiver None None)))
    = registrations app
      ++ [(ASentReceiver SentReceiver_new,
           IntentFilter_new SmsManagerService_sentAction);
          (ADeliveredReceiver DeliveredReceiver_new,
           IntentFilter_new SmsManagerService_deliveredAction)].
Proof.
  cbv zeta. split; [ | split; [ | split; [ | split ] ] ].
  - unfold register. destruct self as [[s | ] [d | ]]; simpl; discriminate.
  - unfold register. destruct self as [[s | ] [d | ]]; simpl; discriminate.
  - unfold register. destruct self as [[s | ] [d | ]]; simpl;
      rewrite ?app_nil_r, <- ?app_assoc; reflexivity.
  - unfold register. destruct self as [[s | ] [d | ]]; simpl; reflexivity.
  - intros n. induction n as [| n IH].
    + simpl. unfold register. simpl. rewrite <- app_assoc. reflexivity.
    + rewrite Nat.iter_succ. remember (Nat.iter (S n) _ _) as st eqn:Hst.
      assert (sentReceiver (snd st) <> None /\ deliveredReceiver (snd st) <> None)
        as [Hs Hd].
      { rewrite Hst, Nat.iter_succ. clear.
        destruct (Nat.iter n _ _) as [a [[s | ] [d | ]]]; unfold register;
          simpl; split; discriminate. }
      destruct st as [a [[s | ] [d | ]]]; simpl in *; congruence.
Qed.

End ReceiverProperties.

(** * Further properties of the message service *)

Section FurtherProperties.

Context {R D : Type}.
Context `{repo : MessageRepository R} `{bus : EventDispatcher R D}.
Context `{lib : Libraries} `{methods : MessageMethods}.

Local Abbreviation World := (World R D).

Ltac run := unfold bind, ret; simpl.

(** ** Messages entering the system *)

(** X1.  [SendMessage], case by case. The message id is drawn first; when the
    payload cannot be encoded nothing is called; when the dispatcher rejects
    the event nothing is loaded; otherwise the one event that was dispatched
    carries the encoded payload, and the record is loaded for the user of the
    params under the id that is in the payload, from the repository as the
    dispatch left it: [SendMessage] writes no record itself, and what it
    returns is the record that the subscribers of the event have stored. *)
Theorem SendMessage_protocol (params : MessageSendParams.t) (w : World) :
  let id := uuid_New (uuidsDrawn w) in
  let userID := MessageSendParams.UserID params in
  let payload :=
    MessageAPISentPayload id userID
      (phonenumbers_Format_E164 (MessageSendParams.Owner params))
      (phonenumbers_Format_E164 (MessageSendParams.Contact params))
      (MessageSendParams.RequestReceivedAt params)
      (MessageSendParams.Content params) in
  let result := fst (SendMessage params w) in
  let w' := snd (SendMessage params w) in
  (forall err, json_Marshal payload = inl err ->
     calls w' = calls w /\ exists cause, result = inl cause) /\
  (forall data, json_Marshal payload = inr data ->
     let event :=
       withData data
         (envelope EventTypeMessageAPISent (MessageSendParams.Source params)
            (snd (newUUID w))) in
     (forall cause d r,
        bus_Dispatch (eventDispatcher w) (repository w) event
          = (Some cause, d, r) ->
        calls w' = calls w ++ [CallDispatch event] /\
        repository w' = r /\
        exists msg, result = inl (Propagate cause msg)) /\
     (forall d r,
        bus_Dispatch (eventDispatcher w) (repository w) event
          = (None, d, r) ->
        calls w' = calls w ++ [CallDispatch event; CallLoad userID id] /\
        repository w' = snd (repo_Load r userID id) /\
        match fst (repo_Load r userID id) with
        | inr message => result = inr message
        | inl cause => exists msg, result = inl (Propagate cause msg)
        end)).
Proof.
  cbv zeta. unfold SendMessage, createMessageAPISentEvent, bind, newUUID.
  cbn [fst snd]. split.
  - intros err Hjson.
    rewrite (createEvent_failure _ _ _ err) by exact Hjson. simpl. eauto.
  - intros data Hjson.
    rewrite (createEvent_success _ _ _ data) by exact Hjson.
    unfold eventDispatcher_Dispatch, repository_Load. run. split.
    + intros cause d r Hdispatch. rewrite Hdispatch. simpl. eauto.
    + intros d r Hdispatch. rewrite Hdispatch. simpl.
      destruct (repo_Load r _ _) as [[cause | message] r']; simpl;
        rewrite <- app_assoc; eauto.
Qed.

(** X2.  [ReceiveMessage], case by case, as [SendMessage]: the payload of the
    received message has no user in it, and the record is loaded for the user
    of the params under the id drawn for the payload, from the repository as
    the dispatch left it. *)
Theorem ReceiveMessage_protocol (params : MessageReceiveParams.t) (w : World) :
  let id := uuid_New (uuidsDrawn w) in
  let userID := MessageReceiveParams.UserID params in
  let payload :=
    MessagePhoneReceivedPayload id
      (phonenumbers_Format_E164 (MessageReceiveParams.Owner params))
      (MessageReceiveParams.Contact params)
      (MessageReceiveParams.Timestamp params)
      (MessageReceiveParams.Content params) in
  let result := fst (ReceiveMessage params w) in
  let w' := snd (ReceiveMessage params w) in
  (forall err, json_Marshal payload = inl err ->
     calls w' = calls w /\ exists cause, result = inl cause) /\
  (forall data, json_Marshal payload = inr data ->
     let event :=
       withData data
         (envelope EventTypeMessagePhoneReceived
            (MessageReceiveParams.Source params) (snd (newUUID w))) in
     (forall cause d r,
        bus_Dispatch (eventDispatcher w) (repository w) event
          = (Some cause, d, r) ->
        calls w' = calls w ++ [CallDispatch event] /\
        repository w' = r /\
        exists msg, result = inl (Propagate cause msg)) /\
     (forall d r,
        bus_Dispatch (eventDispatcher w) (repository w) event
          = (None, d, r) ->
        calls w' = calls w ++ [CallDispatch event; CallLoad userID id] /\
        repository w' = snd (repo_Load r userID id) /\
        match fst (repo_Load r userID id) with
        | inr message => result = inr message
        | inl cause => exists msg, result = inl (Propagate cause msg)
        end)).
Proof.
  cbv zeta. unfold ReceiveMessage, createMessagePhoneReceivedEvent, bind, newUUID.
  cbn [fst snd]. split.
  - intros err Hjson.
    rewrite (createEvent_failure _ _ _ err) by exact Hjson. simpl. eauto.
  - intros data Hjson.
    rewrite (createEvent_success _ _ _ data) by exact Hjson.
    unfold eventDispatcher_Dispatch, repository_Load. run. split.
    + intros cause d r Hdispatch. rewrite Hdispatch. simpl. eauto.
    + intros d r Hdispatch. rewrite Hdispatch. simpl.
      destruct (repo_Load r _ _) as [[cause | message] r']; simpl;
        rewrite <- app_assoc; eauto.
Qed.

(** ** Events reported by the phone *)

(** X3.  [StoreEvent] for a name that it handles and a payload that is
    encoded: the event has the type that belongs to the name; when the
    dispatcher rejects it nothing is loaded; otherwise the record is loaded
    for the user of the message under the id of the params, from the
    repository as the dispatch left it, and what [Load] returns, record or
    error, is returned as it is. In no case does [StoreEvent] itself call
    [Store] or [Update]. *)
Theorem StoreEvent_protocol
  (message : Message) (params : MessageStorePhoneEventParams.t) (w : World)
  (payload : Payload) (data : string) (type : EventType) :
  phoneEventPayload params message = Some payload ->
  phoneEventType (MessageStorePhoneEventParams.EventName params) = Some type ->
  json_Marshal payload = inr data ->
  let event :=
    withData data
      (envelope type (MessageStorePhoneEventParams.Source params) w) in
  let load :=
    CallLoad (UserID message) (MessageStorePhoneEventParams.MessageID params) in
  let result := fst (StoreEvent message params w) in
  let w' := snd (StoreEvent message params w) in
  (forall cause d r,
     bus_Dispatch (eventDispatcher w) (repository w) event
       = (Some cause, d, r) ->
     calls w' = calls w ++ [CallDispatch event] /\
     repository w' = r /\
     exists msg msg', result = inl (Propagate (Propagate cause msg) msg')) /\
  (forall d r,
     bus_Dispatch (eventDispatcher w) (repository w) event = (None, d, r) ->
     calls w' = calls w ++ [CallDispatch event; load] /\
     repository w' = snd (repo_Load r (UserID message)
                            (MessageStorePhoneEventParams.MessageID params)) /\
     result = fst (repo_Load r (UserID message)
                     (MessageStorePhoneEventParams.MessageID params))) /\
  onlyCalls (fun c => negb (isWrite c)) w w'.
Proof.
  intros Hpayload Htype Hjson. cbv zeta.
  unfold StoreEvent, StoreEvent_finish, handleMessageSentEvent,
    handleMessageDeliveredEvent, handleMessageFailedEvent,
    createMessagePhoneSentEvent, createMessagePhoneDeliveredEvent,
    createMessagePhoneFailedEvent, phoneEventPayload, phoneEventType in *.
  destruct (MessageStorePhoneEventParams.EventName params);
    try discriminate; injection Hpayload as <-; injection Htype as <-;
    unfold bind; rewrite (createEvent_success _ _ _ data) by exact Hjson;
    unfold eventDispatcher_Dispatch, repository_Load, ret, onlyCalls; simpl;
    (split; [ | split ]);
    try (intros cause d r Hdispatch; rewrite Hdispatch; simpl; eauto);
    try (intros d r Hdispatch; rewrite Hdispatch; simpl;
         destruct (repo_Load r _ _) as [loaded r']; simpl;
         rewrite <- app_assoc; eauto);
    destruct (bus_Dispatch _ _ _) as [[[cause | ] d] r1]; simpl;
    try destruct (repo_Load r1 _ _) as [loaded r']; simpl;
    eexists; (split; [ try rewrite <- app_assoc; reflexivity | reflexivity ]).
Qed.

(** ** Status changes *)

(** X4.  The guards of [HandleMessageSending] and [HandleMessageDelivered],
    and the guard of [HandleMessageFailed] on a record that has failed
    already: in a status other than the one required the call returns the
    wrong-status error with the actual and the required status, and makes no
    call but the load. *)
Theorem status_change_wrong_status
  (params : HandleMessageParams.t) (w : World) (message : Message) (r : R) :
  repo_Load (repository w) (HandleMessageParams.UserID params)
    (HandleMessageParams.ID params) = (inr message, r) ->
  let load := CallLoad (HandleMessageParams.UserID params)
                (HandleMessageParams.ID params) in
  (Status message <> MessageStatusSending ->
   fst (HandleMessageSending params w) =
     Some (NewError
             (Sprintf "message has wrong status [%s]. expected %s"
                [FmtStatus (Status message); FmtStatus MessageStatusSending])) /\
   calls (snd (HandleMessageSending params w)) = calls w ++ [load] /\
   repository (snd (HandleMessageSending params w)) = r) /\
  (Status message <> MessageStatusSent ->
   fst (HandleMessageDelivered params w) =
     Some (NewError
             (Sprintf "message has wrong status [%s]. expected %s"
                [FmtStatus (Status message); FmtStatus MessageStatusSent])) /\
   calls (snd (HandleMessageDelivered params w)) = calls w ++ [load] /\
   repository (snd (HandleMessageDelivered params w)) = r) /\
  (Status message = MessageStatusFailed ->
   fst (HandleMessageFailed params w) =
     Some (NewError
             (Sprintf "message has wrong status [%s]. expected [%s,%s]"
                [FmtStatus MessageStatusFailed; FmtStatus MessageStatusSending;
                 FmtStatus MessageStatusSent])) /\
   calls (snd (HandleMessageFailed params w)) = calls w ++ [load] /\
   repository (snd (HandleMessageFailed params w)) = r).
Proof.
  intros Hload. cbv zeta.
  unfold HandleMessageSending, HandleMessageDelivered, HandleMessageFailed,
    repository_Load. run. rewrite Hload. simpl.
  unfold IsSending, IsSent. repeat split.
  all: try (destruct (Status message); simpl; congruence).
  all: try (rewrite H; reflexivity).
Qed.

(** X5.  The statuses Pending, Delivered, Failed and Received are dead ends
    for the four status changes: on a loaded record in one of them, each of
    [HandleMessageSending], [HandleMessageSent], [HandleMessageFailed] and
    [HandleMessageDelivered] returns a wrong-status error after the load
    alone. *)
Theorem status_changes_dead_ends
  (params : HandleMessageParams.t) (w : World) (message : Message) (r : R) :
  repo_Load (repository w) (HandleMessageParams.UserID params)
    (HandleMessageParams.ID params) = (inr message, r) ->
  Status message = MessageStatusPending \/
  Status message = MessageStatusDelivered \/
  Status message = MessageStatusFailed \/
  Status message = MessageStatusReceived ->
  Forall
    (fun handler : HandleMessageParams.t -> Service R D (option Error) =>
       calls (snd (handler params w))
         = calls w ++ [CallLoad (HandleMessageParams.UserID params)
                         (HandleMessageParams.ID params)] /\
       repository (snd (handler params w)) = r /\
       exists format expected,
         fst (handler params w)
           = Some (NewError
                     (Sprintf format
                        (FmtStatus (Status message) :: expected))))
    [HandleMessageSending; HandleMessageSent; HandleMessageFailed;
     HandleMessageDelivered].
Proof.
  intros Hload Hstatus.
  assert (IsSending message = false /\ IsSent message = false) as [Hsending Hsent].
  { unfold IsSending, IsSent.
    destruct Hstatus as [-> | [-> | [-> | ->]]]; split; reflexivity. }
  pose proof (HandleMessageSending_shape (D := D) params w) as H1.
  pose proof (HandleMessageSent_shape (D := D) params w) as H2.
  pose proof (HandleMessageFailed_shape (D := D) params w) as H3.
  pose proof (HandleMessageDelivered_shape (D := D) params w) as H4.
  cbv zeta in H1, H2, H3, H4.
  rewrite Hload in H1, H2, H3, H4. cbv beta iota in H1, H2, H3, H4.
  rewrite Hsending in H1, H2. rewrite Hsent in H4.
  rewrite Hsent, Hsending in H3. cbn [orb] in H3.
  destruct H1 as (_ & _ & _ & Hc1 & Hr1 & [[f1 e1] He1]).
  destruct H2 as (_ & _ & _ & Hc2 & Hr2 & [[f2 e2] He2]).
  destruct H3 as (_ & _ & _ & Hc3 & Hr3 & [[f3 e3] He3]).
  destruct H4 as (_ & _ & _ & Hc4 & Hr4 & [[f4 e4] He4]).
  repeat (constructor; [ eauto | ]). constructor.
Qed.

(** A status change that passes its guard and whose update is accepted. *)
Lemma HandleMessageSent_accepted
  (params : HandleMessageParams.t) (w : World) (message : Message) (r r' : R) :
  repo_Load (repository w) (HandleMessageParams.UserID params)
    (HandleMessageParams.ID params) = (inr message, r) ->
  Status message = MessageStatusSending ->
  repo_Update r (Sent message (HandleMessageParams.Timestamp params))
    = (None, r') ->
  HandleMessageSent params w =
    (None,
     called (CallUpdate (Sent message (HandleMessageParams.Timestamp params)))
       r' (eventDispatcher w)
       (called (CallLoad (HandleMessageParams.UserID params)
                  (HandleMessageParams.ID params))
          r (eventDispatcher w) w)).
Proof.
  intros Hload Hstatus Hupdate.
  unfold HandleMessageSent, repository_Load, repository_Update. run.
  rewrite Hload. simpl. unfold IsSending. rewrite Hstatus. simpl.
  rewrite Hupdate. reflexivity.
Qed.

(** X6.  [HandleMessageSent] cannot be entered twice. With a repository that
    returns the updated record on the next load, and a [Sent] mutator that
    keeps the key of the record and whose result is no longer Sending, the
    first call on a Sending record succeeds and the same call made again
    fails with the wrong-status error, without a second update. *)
Theorem HandleMessageSent_not_reentrant
  (params : HandleMessageParams.t) (w : World) (message : Message) (r r' : R) :
  UpdateThenLoad (R := R) ->
  keepsKey Sent ->
  IsSending (Sent message (HandleMessageParams.Timestamp params)) = false ->
  repo_Load (repository w) (HandleMessageParams.UserID params)
    (HandleMessageParams.ID params) = (inr message, r) ->
  Status message = MessageStatusSending ->
  repo_Update r (Sent message (HandleMessageParams.Timestamp params))
    = (None, r') ->
  let load := CallLoad (HandleMessageParams.UserID params)
                (HandleMessageParams.ID params) in
  let sent := Sent message (HandleMessageParams.Timestamp params) in
  let w1 := snd (HandleMessageSent params w) in
  fst (HandleMessageSent params w) = None /\
  fst (HandleMessageSent params w1) =
    Some (NewError
            (Sprintf "message has wrong status [%s]. expected %s"
               [FmtStatus (Status sent); FmtStatus MessageStatusSending])) /\
  calls (snd (HandleMessageSent params w1))
    = calls w ++ [load; CallUpdate sent; load].
Proof.
  intros Hlaw Hkey Hguard Hload Hstatus Hupdate. cbv zeta.
  rewrite (HandleMessageSent_accepted params w message r r') by assumption.
  cbn [fst snd]. split; [ reflexivity | ].
  destruct (Hkey message (HandleMessageParams.Timestamp params)) as [Hid Huser].
  pose proof (Hlaw _ _ _ _ _ _ _ Hload Hupdate Hid Huser) as Hagain.
  unfold HandleMessageSent, repository_Load. run.
  destruct (repo_Load r' _ _) as [loaded r2]. simpl in Hagain. subst loaded.
  simpl. rewrite Hguard. simpl.
  rewrite <- !app_assoc. split; reflexivity.
Qed.

(** X7.  The way from Sending to Delivered. With a repository that returns the
    updated record on the next load, and a [Sent] mutator that keeps the key
    of the record and leaves it in the status Sent, [HandleMessageSent] on a
    Sending record followed by [HandleMessageDelivered] on the same key both
    succeed when their updates are accepted, and the record handed to the
    second update is the delivered version of the sent one. *)
Theorem sending_sent_delivered
  (params params' : HandleMessageParams.t) (w : World) (message : Message)
  (r r' r'' : R) :
  UpdateThenLoad (R := R) ->
  keepsKey Sent ->
  IsSent (Sent message (HandleMessageParams.Timestamp params)) = true ->
  HandleMessageParams.ID params' = HandleMessageParams.ID params ->
  HandleMessageParams.UserID params' = HandleMessageParams.UserID params ->
  repo_Load (repository w) (HandleMessageParams.UserID params)
    (HandleMessageParams.ID params) = (inr message, r) ->
  Status message = MessageStatusSending ->
  repo_Update r (Sent message (HandleMessageParams.Timestamp params))
    = (None, r') ->
  repo_Update
    (snd (repo_Load r' (HandleMessageParams.UserID params)
            (HandleMessageParams.ID params)))
    (Delivered (Sent message (HandleMessageParams.Timestamp params))
       (HandleMessageParams.Timestamp params')) = (None, r'') ->
  let load := CallLoad (HandleMessageParams.UserID params)
                (HandleMessageParams.ID params) in
  let sent := Sent message (HandleMessageParams.Timestamp params) in
  let delivered := Delivered sent (HandleMessageParams.Timestamp params') in
  let w1 := snd (HandleMessageSent params w) in
  fst (HandleMessageSent params w) = None /\
  fst (HandleMessageDelivered params' w1) = None /\
  calls (snd (HandleMessageDelivered params' w1))
    = calls w ++ [load; CallUpdate sent; load; CallUpdate delivered].
Proof.
  intros Hlaw Hkey Hguard Hid' Huser' Hload Hstatus Hupdate Hupdate'. cbv zeta.
  rewrite (HandleMessageSent_accepted params w message r r') by assumption.
  cbn [fst snd]. split; [ reflexivity | ].
  destruct (Hkey message (HandleMessageParams.Timestamp params)) as [Hid Huser].
  pose proof (Hlaw _ _ _ _ _ _ _ Hload Hupdate Hid Huser) as Hagain.
  unfold HandleMessageDelivered, repository_Load, repository_Update. run.
  rewrite Hid', Huser'. revert Hagain Hupdate'.
  destruct (repo_Load r' _ _) as [loaded r2]. simpl.
  intros -> Hupdate'. rewrite Hguard. simpl. rewrite Hupdate'. simpl.
  rewrite <- !app_assoc. split; reflexivity.
Qed.

(** ** Stored messages *)

(** X8.  With a repository that returns on [Load] the record it accepted on
    [Store], a successful [StoreReceivedMessage] followed by the load for the
    user and the id of the params gives a message of that user in the status
    Received, of the type MobileOriginated, received at the timestamp of the
    params, which is also its [RequestReceivedAt] and [OrderTimestamp]. *)
Theorem StoreReceivedMessage_round_trip
  (params : MessageStoreParams.t) (w w1 : World) (stored : Message) :
  StoreThenLoad (R := R) ->
  StoreReceivedMessage params w = (inr stored, w1) ->
  exists (loaded : Message) (w2 : World),
    repository_Load (MessageStoreParams.UserID params)
      (MessageStoreParams.ID params) w1 = (inr loaded, w2) /\
    loaded = stored /\
    UserID loaded = MessageStoreParams.UserID params /\
    Status loaded = MessageStatusReceived /\
    Type_ loaded = MessageTypeMobileOriginated /\
    ReceivedAt loaded = Some (MessageStoreParams.Timestamp params) /\
    RequestReceivedAt loaded = MessageStoreParams.Timestamp params /\
    OrderTimestamp loaded = MessageStoreParams.Timestamp params /\
    SendDuration loaded = None /\
    LastAttemptedAt loaded = None /\
    SentAt loaded = None.
Proof.
  intros Hlaw Hstore.
  destruct (StoreReceivedMessage_run params w) as (_ & Hrepo & Hresult).
  rewrite Hstore in Hrepo, Hresult. simpl in Hrepo, Hresult.
  destruct (repo_Store (repository w) _) as [[cause | ] r] eqn:Hstored;
    simpl in Hrepo, Hresult.
  { destruct Hresult as [msg Hresult]. discriminate. }
  injection Hresult as ->. subst r.
  specialize (Hlaw _ _ _ Hstored). simpl in Hlaw.
  unfold repository_Load. simpl.
  destruct (repo_Load (repository w1) _ _) as [result r2]. simpl in Hlaw.
  subst result. do 2 eexists. split; [ reflexivity | ]. repeat split.
Qed.

(** X9.  [CreatedAt] and [UpdatedAt] of a stored message are two readings of
    the clock, one after the other, not one reading used twice: with a clock
    that never goes back, [CreatedAt] is not after [UpdatedAt]. This holds for
    [StoreSentMessage] and for [StoreReceivedMessage], which both read the
    clock twice whether or not the store succeeds. *)
Theorem stored_message_timestamps
  (params : MessageStoreParams.t) (w : World) :
  monotoneClock ->
  (forall message, fst (StoreSentMessage params w) = inr message ->
     CreatedAt message = time_Now (clockReads w) /\
     UpdatedAt message = time_Now (S (clockReads w)) /\
     CreatedAt message <= UpdatedAt message) /\
  (forall message, fst (StoreReceivedMessage params w) = inr message ->
     CreatedAt message = time_Now (clockReads w) /\
     UpdatedAt message = time_Now (S (clockReads w)) /\
     CreatedAt message <= UpdatedAt message) /\
  clockReads (snd (StoreSentMessage params w)) = S (S (clockReads w)) /\
  clockReads (snd (StoreReceivedMessage params w)) = S (S (clockReads w)).
Proof.
  intros Hclock.
  destruct (StoreSentMessage_run params w) as (_ & _ & Hsent).
  destruct (StoreReceivedMessage_run params w) as (_ & _ & Hreceived).
  split; [ | split; [ | split ] ].
  - intros message Hmessage. rewrite Hmessage in Hsent.
    destruct (fst (repo_Store _ _)).
    + destruct Hsent as [msg Hsent]. discriminate.
    + injection Hsent as ->. simpl. repeat split. apply Hclock.
  - clear Hsent. intros message Hmessage. rewrite Hmessage in Hreceived.
    destruct (fst (repo_Store _ _)).
    + destruct Hreceived as [msg Hreceived]. discriminate.
    + injection Hreceived as ->. simpl. repeat split. apply Hclock.
  - clear Hsent Hreceived.
    unfold StoreSentMessage, now, repository_Store. run.
    destruct (repo_Store _ _) as [[cause | ] r]; reflexivity.
  - clear Hsent Hreceived.
    unfold StoreReceivedMessage, now, repository_Store. run.
    destruct (repo_Store _ _) as [[cause | ] r]; reflexivity.
Qed.

(** ** Outstanding messages *)

Lemma onlyCalls_refl kind (w : World) : onlyCalls kind w w.
Proof. exists []. split; [ symmetry; apply app_nil_r | reflexivity ]. Qed.

Lemma onlyCalls_trans kind (w1 w2 w3 : World) :
  onlyCalls kind w1 w2 -> onlyCalls kind w2 w3 -> onlyCalls kind w1 w3.
Proof.
  intros (new & Hcalls & Hkind) (new' & Hcalls' & Hkind').
  exists (new ++ new'). split.
  - rewrite Hcalls', Hcalls. symmetry. apply app_assoc.
  - rewrite forallb_app, Hkind, Hkind'. reflexivity.
Qed.

Lemma onlyCalls_weaken (kind kind' : Call -> bool) (w w' : World) :
  (forall c, kind c = true -> kind' c = true) ->
  onlyCalls kind w w' -> onlyCalls kind' w w'.
Proof.
  intros Himp (new & Hcalls & Hkind). exists new. split; [ exact Hcalls | ].
  apply forallb_forall. intros c Hin. apply Himp.
  rewrite forallb_forall in Hkind. apply Hkind. exact Hin.
Qed.

Lemma onlyCalls_same kind (w w' : World) :
  calls w' = calls w -> onlyCalls kind w w'.
Proof.
  intros Hcalls. exists []. split; [ | reflexivity ].
  rewrite Hcalls. symmetry. apply app_nil_r.
Qed.

Lemma onlyCalls_one kind c (w w' : World) :
  calls w' = calls w ++ [c] -> kind c = true -> onlyCalls kind w w'.
Proof.
  intros Hcalls Hkind. exists [c]. split; [ exact Hcalls | ].
  simpl. rewrite Hkind. reflexivity.
Qed.

(** A turn of a heartbeat goroutine makes no call but a dispatch. *)
Lemma registerHeartbeatEvent_dispatches_only g (w : World) :
  onlyCalls isDispatch w (snd (registerHeartbeatEvent g w)).
Proof.
  destruct g as [quantity params | event | ];
    unfold registerHeartbeatEvent, createHeartbeatPhoneOutstandingEvent,
      eventDispatcher_Dispatch, ctxLogger_Error, createEvent, now, newUUID;
    run.
  - destruct (json_Marshal _); apply onlyCalls_same; reflexivity.
  - destruct (bus_Dispatch _ _ _) as [[[cause | ] d] r1];
      eapply onlyCalls_one; reflexivity.
  - apply onlyCalls_refl.
Qed.

Lemma runBackground_dispatches_only j (w : World) :
  onlyCalls isDispatch w (snd (runBackground j w)).
Proof.
  unfold runBackground. destruct (background w !! j) as [g | ].
  - pose proof (registerHeartbeatEvent_dispatches_only g w) as Hg.
    destruct (registerHeartbeatEvent g w) as [g' w']. exact Hg.
  - apply onlyCalls_refl.
Qed.

(** A turn of a goroutine of the batch makes no call but a dispatch or a
    load. *)
Lemma outstandingGoroutine_reads_only source g results (w : World) :
  onlyCalls (fun c => isDispatch c || isLoad c) w
    (snd (outstandingGoroutine source g results w)).
Proof.
  destruct g as [message | message event | message | result | | ];
    unfold outstandingGoroutine, createMessagePhoneSendingEvent,
      eventDispatcher_Dispatch, repository_Load, ctxLogger_Error, createEvent,
      now, newUUID; run.
  - destruct (json_Marshal _); apply onlyCalls_same; reflexivity.
  - destruct (bus_Dispatch _ _ _) as [[[cause | ] d] r1];
      eapply onlyCalls_one; reflexivity.
  - destruct (repo_Load _ _ _) as [[cause | result] r];
      eapply onlyCalls_one; reflexivity.
  - apply onlyCalls_refl.
  - apply onlyCalls_refl.
  - apply onlyCalls_refl.
Qed.

Lemma runTurn_world source j st (w : World) :
  snd (runTurn source (TurnBackground j) st w) = snd (runBackground j w).
Proof.
  destruct st as [gs results]. unfold runTurn. run.
  destruct (runBackground j w). reflexivity.
Qed.

Lemma runTurn_reads_only source turn st (w : World) :
  onlyCalls (fun c => isDispatch c || isLoad c) w
    (snd (runTurn source turn st w)).
Proof.
  destruct turn as [j | i].
  - rewrite runTurn_world.
    eapply onlyCalls_weaken; [ | apply runBackground_dispatches_only ].
    intros c Hc. rewrite Hc. reflexivity.
  - destruct st as [gs results]. destruct (gs !! i) as [g | ] eqn:Hg.
    + rewrite (runTurn_outstanding _ _ _ _ g) by exact Hg.
      apply outstandingGoroutine_reads_only.
    + unfold runTurn. rewrite Hg. apply onlyCalls_refl.
Qed.

Lemma runTurns_reads_only source schedule st (w : World) :
  onlyCalls (fun c => isDispatch c || isLoad c) w
    (snd (runTurns source schedule st w)).
Proof.
  revert st w. induction schedule as [| turn schedule IH]; intros st w.
  - apply onlyCalls_refl.
  - rewrite runTurns_cons.
    eapply onlyCalls_trans; [ apply runTurn_reads_only | apply IH ].
Qed.

(** X10.  [GetOutstanding] never writes to the repository: under every
    interleaving, and whatever goroutines were left over from earlier calls,
    the calls it adds are the fetch, dispatches and loads, never [Store] or
    [Update]. *)
Theorem GetOutstanding_never_writes
  (params : MessageGetOutstandingParams.t) (schedule : list Turn) (w : World) :
  exists new : list Call,
    calls (snd (GetOutstanding params schedule w))
      = calls w
        ++ CallGetOutstanding (MessageGetOutstandingParams.UserID params)
             (MessageGetOutstandingParams.Owner params)
             (MessageGetOutstandingParams.Limit params)
        :: new /\
    forallb (fun c => isDispatch c || isLoad c) new = true /\
    forallb (fun c => negb (isWrite c)) new = true.
Proof.
  destruct (repo_GetOutstanding (repository w)
              (MessageGetOutstandingParams.UserID params)
              (MessageGetOutstandingParams.Owner params)
              (MessageGetOutstandingParams.Limit params))
    as [[cause | messages] r] eqn:Hfetch.
  - rewrite (GetOutstanding_fetch_failed _ _ _ cause r) by exact Hfetch.
    exists []. repeat split.
  - rewrite (GetOutstanding_fetched _ _ _ messages r) by exact Hfetch.
    cbv zeta. cbn [snd]. unfold outstandingGoroutines.
    destruct (runTurns_reads_only (MessageGetOutstandingParams.Source params)
                schedule (map OutstandingStarted messages, [])
                (batchStarted params messages r w))
      as (new & Hcalls & Hkind).
    exists new. split; [ | split; [ exact Hkind | ] ].
    + rewrite Hcalls. unfold batchStarted. simpl.
      rewrite <- app_assoc. reflexivity.
    + apply forallb_forall. intros c Hin.
      rewrite forallb_forall in Hkind. specialize (Hkind c Hin).
      destruct c; simpl in *; try reflexivity; discriminate.
Qed.

Lemma runTurns_no_goroutines source schedule results (w : World) :
  fst (runTurns source schedule ([], results) w) = ([], results) /\
  onlyCalls isDispatch w (snd (runTurns source schedule ([], results) w)).
Proof.
  revert w. induction schedule as [| turn schedule IH]; intros w.
  - split; [ reflexivity | apply onlyCalls_refl ].
  - rewrite runTurns_cons.
    assert (fst (runTurn source turn ([], results) w) = ([], results)) as Hst.
    { apply runTurn_idle. destruct turn; [ exact I | reflexivity ]. }
    assert (onlyCalls isDispatch w (snd (runTurn source turn ([], results) w)))
      as Hw.
    { destruct turn as [j | i].
      - rewrite runTurn_world. apply runBackground_dispatches_only.
      - apply onlyCalls_refl. }
    rewrite Hst. destruct (IH (snd (runTurn source turn ([], results) w)))
      as [Hfst Hsnd].
    split; [ exact Hfst | eapply onlyCalls_trans; eassumption ].
Qed.

Lemma runBackground_length j (w : World) :
  length (background (snd (runBackground j w))) = length (background w).
Proof.
  destruct (background w !! j) as [g | ] eqn:Hg.
  - rewrite (runBackground_turn j g w Hg). unfold setBackground.
    cbn [background]. apply length_insert.
  - unfold runBackground. rewrite Hg. reflexivity.
Qed.

Lemma runTurns_no_goroutines_background source schedule results (w : World) :
  length (background (snd (runTurns source schedule ([], results) w)))
    = length (background w).
Proof.
  revert w. induction schedule as [| turn schedule IH]; intros w.
  - reflexivity.
  - rewrite runTurns_cons.
    assert (fst (runTurn source turn ([], results) w) = ([], results)) as ->.
    { apply runTurn_idle. destruct turn; [ exact I | reflexivity ]. }
    rewrite IH. destruct turn as [j | i].
    + rewrite runTurn_world. apply runBackground_length.
    + reflexivity.
Qed.

(** X11.  An empty batch. When the repository has no outstanding message,
    [GetOutstanding] returns the empty list under every interleaving, without
    waiting for any goroutine, and loads nothing; the heartbeat goroutine is
    started all the same: the call leaves one goroutine more in the
    background than it found, and before any turn is taken this goroutine is
    the heartbeat with the quantity 0. *)
Theorem GetOutstanding_empty_batch
  (params : MessageGetOutstandingParams.t) (schedule : list Turn) (w : World)
  (r : R) :
  repo_GetOutstanding (repository w)
    (MessageGetOutstandingParams.UserID params)
    (MessageGetOutstandingParams.Owner params)
    (MessageGetOutstandingParams.Limit params) = (inr [], r) ->
  let w' := snd (GetOutstanding params schedule w) in
  fst (GetOutstanding params schedule w) = Some (inr []) /\
  countCalls isLoad w' = countCalls isLoad w /\
  length (background w') = S (length (background w)) /\
  background (snd (GetOutstanding params [] w))
    = background w ++ [HeartbeatStarted 0 params].
Proof.
  intros Hfetch. cbv zeta.
  rewrite !(GetOutstanding_fetched _ _ _ [] r) by exact Hfetch.
  cbv zeta. unfold outstandingGoroutines. cbn [map].
  pose proof (runTurns_no_goroutines_background
                (MessageGetOutstandingParams.Source params)
                schedule [] (batchStarted params [] r w)) as Hbackground.
  destruct (runTurns_no_goroutines (MessageGetOutstandingParams.Source params)
              schedule [] (batchStarted params [] r w))
    as [Hst (new & Hcalls & Hkind)].
  rewrite Hst. cbn [fst snd forallb].
  split; [ reflexivity | ]. split; [ | split ].
  - unfold countCalls. rewrite Hcalls. unfold batchStarted. simpl.
    rewrite !List.filter_app. simpl. rewrite !length_app. simpl.
    assert (List.filter isLoad new = []) as ->; [ | simpl; lia ].
    clear Hcalls. induction new as [| c new IH]; [ reflexivity | ].
    simpl in Hkind. apply andb_true_iff in Hkind as [Hc Hnew].
    destruct c; simpl in *; try discriminate. apply IH. exact Hnew.
  - rewrite Hbackground. unfold batchStarted. simpl.
    rewrite length_app. simpl. lia.
  - reflexivity.
Qed.

(** *** Loads follow dispatches *)

(** One turn of a goroutine of the batch: a message is appended only by a
    goroutine that has loaded it, and a record is loaded only by a goroutine
    whose event has been dispatched. *)
Lemma outstandingGoroutine_counts source g results (w : World) :
  let g' := fst (fst (outstandingGoroutine source g results w)) in
  let results' := snd (fst (outstandingGoroutine source g results w)) in
  let w' := snd (outstandingGoroutine source g results w) in
  (length results' + (if appending g' then 1 else 0) + countCalls isLoad w
   <= length results + (if appending g then 1 else 0) + countCalls isLoad w')%nat
  /\
  (countCalls isLoad w' + (if loading g' then 1 else 0)
   + countCalls isDispatch w
   <= countCalls isLoad w + (if loading g then 1 else 0)
      + countCalls isDispatch w')%nat.
Proof.
  cbv zeta. destruct g as [message | message event | message | result | | ];
    unfold outstandingGoroutine, createMessagePhoneSendingEvent,
      eventDispatcher_Dispatch, repository_Load, ctxLogger_Error, createEvent,
      now, newUUID, countCalls; run.
  - destruct (json_Marshal _); simpl; lia.
  - destruct (bus_Dispatch _ _ _) as [[[cause | ] d] r1]; simpl;
      rewrite !List.filter_app, !length_app; simpl; lia.
  - destruct (repo_Load _ _ _) as [[cause | result] r]; simpl;
      rewrite !List.filter_app, !length_app; simpl; lia.
  - rewrite length_app. simpl. lia.
  - lia.
  - lia.
Qed.

Lemma runBackground_counts j (w : World) :
  countCalls isLoad (snd (runBackground j w)) = countCalls isLoad w /\
  (countCalls isDispatch w <= countCalls isDispatch (snd (runBackground j w)))%nat.
Proof.
  destruct (runBackground_dispatches_only j w) as (new & Hcalls & Hkind).
  unfold countCalls. rewrite Hcalls, !List.filter_app, !length_app.
  split; [ | lia ].
  assert (List.filter isLoad new = []) as ->; [ | simpl; lia ].
  clear Hcalls. induction new as [| c new IH]; [ reflexivity | ].
  simpl in Hkind. apply andb_true_iff in Hkind as [Hc Hnew].
  destruct c; simpl in *; try discriminate. apply IH. exact Hnew.
Qed.

(** The invariant of a batch, relative to the counts [loads0] and
    [dispatches0] of the world in which it started. *)
Lemma runTurn_loads_follow_dispatches source turn st (w : World)
  (loads0 dispatches0 : nat) :
  (length (snd st) + length (List.filter appending (fst st)) + loads0
   <= countCalls isLoad w)%nat ->
  (countCalls isLoad w + length (List.filter loading (fst st)) + dispatches0
   <= countCalls isDispatch w + loads0)%nat ->
  let st' := fst (runTurn source turn st w) in
  let w' := snd (runTurn source turn st w) in
  (length (snd st') + length (List.filter appending (fst st')) + loads0
   <= countCalls isLoad w')%nat /\
  (countCalls isLoad w' + length (List.filter loading (fst st')) + dispatches0
   <= countCalls isDispatch w' + loads0)%nat.
Proof.
  intros H1 H2. cbv zeta. destruct turn as [j | i].
  - rewrite runTurn_world, runTurn_idle by exact I.
    destruct (runBackground_counts j w) as [Hloads Hdispatches].
    rewrite Hloads. lia.
  - destruct st as [gs results]. destruct (gs !! i) as [g | ] eqn:Hg.
    + rewrite (runTurn_outstanding _ _ _ _ g) by exact Hg. cbn [fst snd] in *.
      destruct (outstandingGoroutine_counts source g results w) as [Ha Hl].
      pose proof (filter_insert_length appending gs i g
                    (fst (fst (outstandingGoroutine source g results w))) Hg).
      pose proof (filter_insert_length loading gs i g
                    (fst (fst (outstandingGoroutine source g results w))) Hg).
      cbv zeta in Ha, Hl. lia.
    + unfold runTurn. rewrite Hg. simpl. split; assumption.
Qed.

Lemma runTurns_loads_follow_dispatches source schedule st (w : World)
  (loads0 dispatches0 : nat) :
  (length (snd st) + length (List.filter appending (fst st)) + loads0
   <= countCalls isLoad w)%nat ->
  (countCalls isLoad w + length (List.filter loading (fst st)) + dispatches0
   <= countCalls isDispatch w + loads0)%nat ->
  let st' := fst (runTurns source schedule st w) in
  let w' := snd (runTurns source schedule st w) in
  (length (snd st') + loads0 <= countCalls isLoad w')%nat /\
  (countCalls isLoad w' + dispatches0 <= countCalls isDispatch w' + loads0)%nat.
Proof.
  revert st w. induction schedule as [| turn schedule IH]; intros st w H1 H2.
  - simpl. lia.
  - cbv zeta. rewrite runTurns_cons.
    destruct (runTurn_loads_follow_dispatches source turn st w loads0
                dispatches0 H1 H2) as [H1' H2'].
    apply IH; assumption.
Qed.

(** X12.  Under every interleaving, the messages that [GetOutstanding] returns
    are no more than the loads it has made, and the loads no more than the
    dispatches: a goroutine loads its record only after it has handed its
    event to the dispatcher, and appends only what it has loaded. *)
Theorem GetOutstanding_loads_follow_dispatches
  (params : MessageGetOutstandingParams.t) (schedule : list Turn) (w : World)
  (results : list Message) :
  fst (GetOutstanding params schedule w) = Some (inr results) ->
  let w' := snd (GetOutstanding params schedule w) in
  (length results + countCalls isLoad w <= countCalls isLoad w')%nat /\
  (countCalls isLoad w' + countCalls isDispatch w
   <= countCalls isDispatch w' + countCalls isLoad w)%nat.
Proof.
  intros Hresult. cbv zeta.
  destruct (repo_GetOutstanding (repository w)
              (MessageGetOutstandingParams.UserID params)
              (MessageGetOutstandingParams.Owner params)
              (MessageGetOutstandingParams.Limit params))
    as [[cause | messages] r] eqn:Hfetch.
  - rewrite (GetOutstanding_fetch_failed _ _ _ cause r) in Hresult
      by exact Hfetch. discriminate.
  - rewrite (GetOutstanding_fetched _ _ _ messages r) in * by exact Hfetch.
    cbv zeta in *. cbn [fst snd] in *. unfold outstandingGoroutines in *.
    assert (countCalls isLoad (batchStarted params messages r w)
            = countCalls isLoad w) as Hloads.
    { unfold countCalls, batchStarted. simpl.
      rewrite List.filter_app. simpl. rewrite app_nil_r. reflexivity. }
    assert (countCalls isDispatch (batchStarted params messages r w)
            = countCalls isDispatch w) as Hdispatches.
    { unfold countCalls, batchStarted. simpl.
      rewrite List.filter_app. simpl. rewrite app_nil_r. reflexivity. }
    assert (forall ms, List.filter appending (map OutstandingStarted ms) = []
                       /\ List.filter loading (map OutstandingStarted ms) = [])
      as Hstart.
    { induction ms as [| m ms [IHa IHl]]; simpl; auto. }
    destruct (Hstart messages) as [Ha Hl].
    destruct (runTurns_loads_follow_dispatches
                (MessageGetOutstandingParams.Source params) schedule
                (map OutstandingStarted messages, [])
                (batchStarted params messages r w)
                (countCalls isLoad w) (countCalls isDispatch w))
      as [H1 H2].
    { cbn [fst snd]. rewrite Ha, Hloads. simpl. lia. }
    { cbn [fst snd]. rewrite Hl, Hloads, Hdispatches. simpl. lia. }
    destruct (runTurns _ _ _ _) as [[gs results'] w']. cbn [fst snd] in *.
    destruct (forallb returned gs); [ | discriminate ].
    injection Hresult as ->. split; assumption.
Qed.

(** *** The heartbeat reports the size of the batch *)

Lemma heartbeat_build_succeeded quantity params data (w : World) :
  json_Marshal (heartbeatPayload params quantity) = inr data ->
  registerHeartbeatEvent (HeartbeatStarted quantity params) w =
    (HeartbeatDispatching
       (withData data
          (envelope EventTypeHeartbeatPhoneOutstanding
             (MessageGetOutstandingParams.Source params) w)),
     drew w).
Proof.
  intros Hjson.
  unfold registerHeartbeatEvent, createHeartbeatPhoneOutstandingEvent, bind.
  fold (heartbeatPayload params quantity).
  rewrite (createEvent_success _ _ _ data) by exact Hjson. reflexivity.
Qed.

Lemma runBackground_returned j (w : World) :
  background w !! j = Some HeartbeatReturned -> runBackground j w = (tt, w).
Proof.
  intros Hj. unfold runBackground. rewrite Hj. simpl.
  rewrite list_insert_id by exact Hj. destruct w. reflexivity.
Qed.

(** X13.  When the fetch has returned a batch and the heartbeat payload is
    encoded, the heartbeat goroutine, given its two turns, hands one event to
    the dispatcher: a heartbeat for the owner and the timestamp of the params
    whose quantity is the number of messages fetched (not the limit asked
    for). After that the goroutine has returned, and any further turn of it
    leaves the world as it is. *)
Theorem heartbeat_reports_batch_size
  (params : MessageGetOutstandingParams.t) (w : World)
  (messages : list Message) (r : R) (data : string) :
  repo_GetOutstanding (repository w)
    (MessageGetOutstandingParams.UserID params)
    (MessageGetOutstandingParams.Owner params)
    (MessageGetOutstandingParams.Limit params) = (inr messages, r) ->
  json_Marshal
    (HeartbeatPhoneOutstandingPayload
       (MessageGetOutstandingParams.Owner params)
       (MessageGetOutstandingParams.Timestamp params)
       (Z.of_nat (length messages))) = inr data ->
  let j := length (background w) in
  let w' := snd (GetOutstanding params [TurnBackground j; TurnBackground j] w) in
  exists event : Event,
    eventData event = Some data /\
    eventType event = Some EventTypeHeartbeatPhoneOutstanding /\
    eventSource event = MessageGetOutstandingParams.Source params /\
    calls w' =
      calls w ++
      [CallGetOutstanding (MessageGetOutstandingParams.UserID params)
         (MessageGetOutstandingParams.Owner params)
         (MessageGetOutstandingParams.Limit params);
       CallDispatch event] /\
    background w' !! j = Some HeartbeatReturned /\
    runBackground j w' = (tt, w').
Proof.
  intros Hfetch Hjson. cbv zeta.
  rewrite (GetOutstanding_fetched _ _ _ messages r) by exact Hfetch.
  cbv zeta. unfold outstandingGoroutines.
  rewrite !runTurns_cons. cbn [runTurns ret snd fst].
  rewrite !runTurn_world.
  set (w0 := batchStarted params messages r w).
  set (j := length (background w)).
  set (event := withData data
                  (envelope EventTypeHeartbeatPhoneOutstanding
                     (MessageGetOutstandingParams.Source params) w0)).
  assert (background w0 !! j
          = Some (HeartbeatStarted (Z.of_nat (length messages)) params)) as H0.
  { unfold w0, batchStarted. simpl. apply list_lookup_middle. reflexivity. }
  pose proof (runBackground_turn j _ w0 H0) as Hw1.
  rewrite (heartbeat_build_succeeded _ _ data) in Hw1 by exact Hjson.
  cbn [fst snd] in Hw1. fold event in Hw1.
  set (w1 := snd (runBackground j w0)) in *.
  assert (background w1 !! j = Some (HeartbeatDispatching event)) as H1.
  { rewrite Hw1. unfold setBackground. cbn [background].
    apply list_lookup_insert_eq. apply lookup_lt_Some in H0. exact H0. }
  pose proof (runBackground_turn j _ w1 H1) as Hw2.
  destruct (heartbeat_dispatch event w1) as (Hreturned & Hcalls & _).
  rewrite Hreturned in Hw2.
  set (w2 := snd (runBackground j w1)) in *.
  assert (background w2 !! j = Some HeartbeatReturned) as H2.
  { rewrite Hw2. unfold setBackground. cbn [background].
    apply list_lookup_insert_eq. apply lookup_lt_Some in H1. exact H1. }
  exists event. repeat split.
  - rewrite Hw2. unfold setBackground at 1. cbn [calls]. rewrite Hcalls.
    rewrite Hw1. unfold w0, batchStarted. simpl. rewrite <- app_assoc.
    reflexivity.
  - exact H2.
  - apply runBackground_returned. exact H2.
Qed.

(** *** One message, handed out *)





End FurtherProperties.

(** * The further properties on the in-memory collaborators *)

Section FurtherExamples.

Existing Instance memoryRepository.
Existing Instance exampleBus.
Existing Instance unreachableBus.
Existing Instance exampleLibraries.
Existing Instance exampleMethods.

Lemma find_after_replace {A} (p : A -> bool) (l : list A) (x y : A) :
  List.find p l = Some x -> p y = true ->
  List.find p (map (fun a => if p a then y else a) l) = Some y.
Proof.
  induction l as [| a l IH]; simpl; intros Hfind Hy; [ discriminate | ].
  destruct (p a) eqn:Ha.
  - rewrite Hy. reflexivity.
  - rewrite Ha. apply IH; assumption.
Qed.

Lemma memory_row_key (userID : entities_UserID) (id : UUID) (row : Message) :
  memory_row userID id row = true -> UserID row = userID /\ ID row = id.
Proof.
  unfold memory_row. intros Hrow. apply andb_true_iff in Hrow as [Hu Hi].
  apply String.eqb_eq in Hu. apply N.eqb_eq in Hi. split; assumption.
Qed.

(** The in-memory repository returns an updated record on the next load. *)
Lemma memoryRepository_UpdateThenLoad : UpdateThenLoad (R := list Message).
Proof.
  intros rows rows1 rows2 userID id message updated. simpl.
  unfold memory_Load, memory_Update.
  destruct (List.find (memory_row userID id) rows) as [row | ] eqn:Hfind;
    [ | discriminate ].
  intros Hload Hupdate Hid Huser.
  injection Hload as -> <-. injection Hupdate as <-.
  destruct (find_some _ _ Hfind) as [_ Hrow].
  destruct (memory_row_key _ _ _ Hrow) as [Hu Hi].
  rewrite Huser, Hid, Hu, Hi.
  rewrite (find_after_replace _ _ message updated Hfind); [ reflexivity | ].
  unfold memory_row. rewrite Huser, Hid, Hu, Hi.
  rewrite String.eqb_refl, N.eqb_refl. reflexivity.
Qed.

Lemma exampleMethods_Sent_keepsKey : keepsKey Sent.
Proof. intros message timestamp. split; reflexivity. Qed.

Lemma exampleLibraries_monotoneClock : monotoneClock.
Proof. intros n. simpl. lia. Qed.

(** Example: a send attempt and a delivery reported for a message that is
    still Pending, and a failure reported for one that has failed. *)
Lemma status_change_wrong_status_witness :
  let pending := exampleMessage 1 MessageStatusPending "hello" in
  let failed := exampleMessage 2 MessageStatusFailed "bye" in
  let w := exampleWorld [pending; failed] in
  let params1 := HandleMessageParams.mk 1 "user-1" 1700000100 in
  let params2 := HandleMessageParams.mk 2 "user-1" 1700000100 in
  repo_Load (repository w) "user-1" 1 = (inr pending, [pending; failed]) /\
  repo_Load (repository w) "user-1" 2 = (inr failed, [pending; failed]) /\
  (fst (HandleMessageSending params1 w) =
     Some (NewError
             (Sprintf "message has wrong status [%s]. expected %s"
                [FmtStatus MessageStatusPending;
                 FmtStatus MessageStatusSending])) /\
   calls (snd (HandleMessageSending params1 w)) = [CallLoad "user-1" 1] /\
   repository (snd (HandleMessageSending params1 w)) = [pending; failed]) /\
  (fst (HandleMessageDelivered params1 w) =
     Some (NewError
             (Sprintf "message has wrong status [%s]. expected %s"
                [FmtStatus MessageStatusPending;
                 FmtStatus MessageStatusSent])) /\
   calls (snd (HandleMessageDelivered params1 w)) = [CallLoad "user-1" 1] /\
   repository (snd (HandleMessageDelivered params1 w)) = [pending; failed]) /\
  (fst (HandleMessageFailed params2 w) =
     Some (NewError
             (Sprintf "message has wrong status [%s]. expected [%s,%s]"
                [FmtStatus MessageStatusFailed; FmtStatus MessageStatusSending;
                 FmtStatus MessageStatusSent])) /\
   calls (snd (HandleMessageFailed params2 w)) = [CallLoad "user-1" 2] /\
   repository (snd (HandleMessageFailed params2 w)) = [pending; failed]).
Proof.
  cbv zeta. split; [ reflexivity | ]. split; [ reflexivity | ].
  pose proof (status_change_wrong_status
                (HandleMessageParams.mk 1 "user-1" 1700000100)
                (exampleWorld [exampleMessage 1 MessageStatusPending "hello";
                               exampleMessage 2 MessageStatusFailed "bye"])
                (exampleMessage 1 MessageStatusPending "hello")
                [exampleMessage 1 MessageStatusPending "hello";
                 exampleMessage 2 MessageStatusFailed "bye"]
                eq_refl) as (Hsending & Hdelivered & _).
  pose proof (status_change_wrong_status
                (HandleMessageParams.mk 2 "user-1" 1700000100)
                (exampleWorld [exampleMessage 1 MessageStatusPending "hello";
                               exampleMessage 2 MessageStatusFailed "bye"])
                (exampleMessage 2 MessageStatusFailed "bye")
                [exampleMessage 1 MessageStatusPending "hello";
                 exampleMessage 2 MessageStatusFailed "bye"]
                eq_refl) as (_ & _ & Hfailed).
  split; [ apply Hsending; discriminate | ].
  split; [ apply Hdelivered; discriminate | ].
  apply Hfailed. reflexivity.
Defined.

(** Example: no status change accepts a message that is still Pending. *)
Lemma status_changes_dead_ends_witness :
  let pending := exampleMessage 1 MessageStatusPending "hello" in
  let w := exampleWorld [pending] in
  let params := HandleMessageParams.mk 1 "user-1" 1700000100 in
  repo_Load (repository w) "user-1" 1 = (inr pending, [pending]) /\
  Forall
    (fun handler :
         HandleMessageParams.t
         -> Service (list Message) (list Event) (option Error) =>
       calls (snd (handler params w)) = [CallLoad "user-1" 1] /\
       repository (snd (handler params w)) = [pending] /\
       exists format expected,
         fst (handler params w)
           = Some (NewError
                     (Sprintf format
                        (FmtStatus MessageStatusPending :: expected))))
    [HandleMessageSending; HandleMessageSent; HandleMessageFailed;
     HandleMessageDelivered].
Proof.
  cbv zeta. split; [ reflexivity | ].
  exact (status_changes_dead_ends
           (HandleMessageParams.mk 1 "user-1" 1700000100)
           (exampleWorld [exampleMessage 1 MessageStatusPending "hello"])
           (exampleMessage 1 MessageStatusPending "hello")
           [exampleMessage 1 MessageStatusPending "hello"]
           eq_refl (or_introl eq_refl)).
Defined.

(** Example: the phone reports twice that message 1 has been sent. *)
Lemma HandleMessageSent_not_reentrant_witness :
  let message := exampleMessage 1 MessageStatusSending "hello" in
  let params := HandleMessageParams.mk 1 "user-1" 1700000100 in
  let w := exampleWorld [message] in
  let sent := Sent message 1700000100 in
  repo_Load (repository w) "user-1" 1 = (inr message, [message]) /\
  repo_Update [message] sent = (None, [sent]) /\
  IsSending sent = false /\
  fst (HandleMessageSent params w) = None /\
  fst (HandleMessageSent params (snd (HandleMessageSent params w))) =
    Some (NewError
            (Sprintf "message has wrong status [%s]. expected %s"
               [FmtStatus MessageStatusSent; FmtStatus MessageStatusSending])) /\
  calls (snd (HandleMessageSent params (snd (HandleMessageSent params w))))
    = [CallLoad "user-1" 1; CallUpdate sent; CallLoad "user-1" 1].
Proof.
  cbv zeta. split; [ reflexivity | ]. split; [ reflexivity | ].
  split; [ reflexivity | ].
  exact (HandleMessageSent_not_reentrant
           (HandleMessageParams.mk 1 "user-1" 1700000100)
           (exampleWorld [exampleMessage 1 MessageStatusSending "hello"])
           (exampleMessage 1 MessageStatusSending "hello")
           [exampleMessage 1 MessageStatusSending "hello"]
           [Sent (exampleMessage 1 MessageStatusSending "hello") 1700000100]
           memoryRepository_UpdateThenLoad exampleMethods_Sent_keepsKey
           eq_refl eq_refl eq_refl eq_refl).
Defined.

(** Example: message 1 is sent, and two seconds later delivered. *)
Lemma sending_sent_delivered_witness :
  let message := exampleMessage 1 MessageStatusSending "hello" in
  let params := HandleMessageParams.mk 1 "user-1" 1700000100 in
  let params' := HandleMessageParams.mk 1 "user-1" 1700000102 in
  let w := exampleWorld [message] in
  let sent := Sent message 1700000100 in
  let delivered := Delivered sent 1700000102 in
  repo_Load (repository w) "user-1" 1 = (inr message, [message]) /\
  repo_Update [message] sent = (None, [sent]) /\
  repo_Update [sent] delivered = (None, [delivered]) /\
  IsSent sent = true /\
  fst (HandleMessageSent params w) = None /\
  fst (HandleMessageDelivered params' (snd (HandleMessageSent params w)))
    = None /\
  calls (snd (HandleMessageDelivered params'
                (snd (HandleMessageSent params w))))
    = [CallLoad "user-1" 1; CallUpdate sent; CallLoad "user-1" 1;
       CallUpdate delivered] /\
  Status delivered = MessageStatusDelivered.
Proof.
  cbv zeta. split; [ reflexivity | ]. split; [ reflexivity | ].
  split; [ reflexivity | ]. split; [ reflexivity | ].
  pose proof (sending_sent_delivered
                (HandleMessageParams.mk 1 "user-1" 1700000100)
                (HandleMessageParams.mk 1 "user-1" 1700000102)
                (exampleWorld [exampleMessage 1 MessageStatusSending "hello"])
                (exampleMessage 1 MessageStatusSending "hello")
                [exampleMessage 1 MessageStatusSending "hello"]
                [Sent (exampleMessage 1 MessageStatusSending "hello")
                   1700000100]
                [Delivered
                   (Sent (exampleMessage 1 MessageStatusSending "hello")
                      1700000100) 1700000102]
                memoryRepository_UpdateThenLoad exampleMethods_Sent_keepsKey
                eq_refl eq_refl eq_refl eq_refl eq_refl eq_refl eq_refl)
    as (Hsent & Hdelivered & Hcalls).
  split; [ exact Hsent | ]. split; [ exact Hdelivered | ].
  split; [ exact Hcalls | reflexivity ].
Defined.

(** Example: a received message stored in an empty table and loaded again
    for user-1. *)
Lemma StoreReceivedMessage_round_trip_witness :
  let params := exampleStoreParams in
  let w := exampleWorld [] in
  exists (stored : Message) (w1 : World (list Message) (list Event)),
    StoreReceivedMessage params w = (inr stored, w1) /\
    exists (loaded : Message) (w2 : World (list Message) (list Event)),
      repository_Load "user-1" 7 w1 = (inr loaded, w2) /\
      loaded = stored /\
      UserID loaded = "user-1" /\
      Status loaded = MessageStatusReceived /\
      Type_ loaded = MessageTypeMobileOriginated /\
      ReceivedAt loaded = Some 1700000050 /\
      RequestReceivedAt loaded = 1700000050 /\
      OrderTimestamp loaded = 1700000050 /\
      SendDuration loaded = None /\
      LastAttemptedAt loaded = None /\
      SentAt loaded = None.
Proof.
  cbv zeta. eexists _, _.
  split; [ vm_compute; reflexivity | ].
  refine (StoreReceivedMessage_round_trip exampleStoreParams (exampleWorld [])
            _ _ memoryRepository_StoreThenLoad _).
  vm_compute. reflexivity.
Defined.

(** Example: with the clock of the examples a stored message is updated one
    second after it is created. *)
Lemma stored_message_timestamps_witness :
  exists sent received : Message,
    fst (StoreSentMessage exampleStoreParams (exampleWorld [])) = inr sent /\
    fst (StoreReceivedMessage exampleStoreParams (exampleWorld []))
      = inr received /\
    CreatedAt sent = 1700000000 /\ UpdatedAt sent = 1700000001 /\
    CreatedAt sent <= UpdatedAt sent /\
    CreatedAt received = 1700000000 /\ UpdatedAt received = 1700000001 /\
    CreatedAt received <= UpdatedAt received.
Proof.
  destruct (stored_message_timestamps exampleStoreParams (exampleWorld [])
              exampleLibraries_monotoneClock)
    as (Hsent & Hreceived & _).
  eexists _, _. split; [ reflexivity | ]. split; [ reflexivity | ].
  destruct (Hsent _ eq_refl) as (Hc & Hu & Hle).
  destruct (Hreceived _ eq_refl) as (Hc' & Hu' & Hle').
  split; [ exact Hc | ]. split; [ exact Hu | ]. split; [ exact Hle | ].
  split; [ exact Hc' | ]. split; [ exact Hu' | exact Hle' ].
Defined.

(** Example: nothing is outstanding; the heartbeat goroutine is started. *)
Lemma GetOutstanding_empty_batch_witness :
  let w := exampleWorld [] in
  repo_GetOutstanding (repository w) "user-1" "+18005550199" 10 = (inr [], [])
  /\
  fst (GetOutstanding exampleOutstandingParams exampleSchedule w)
    = Some (inr []) /\
  countCalls isLoad
    (snd (GetOutstanding exampleOutstandingParams exampleSchedule w)) = 0%nat /\
  length
    (background
       (snd (GetOutstanding exampleOutstandingParams exampleSchedule w)))
    = 1%nat /\
  background (snd (GetOutstanding exampleOutstandingParams [] w))
    = [HeartbeatStarted 0 exampleOutstandingParams].
Proof.
  cbv zeta. split; [ reflexivity | ].
  exact (GetOutstanding_empty_batch (repo := memoryRepository)
           (bus := exampleBus) (lib := exampleLibraries)
           exampleOutstandingParams exampleSchedule (exampleWorld []) []
           eq_refl).
Defined.

(** Example: the batch of three messages, of which two are returned after
    two loads and four dispatches (three sending events and the heartbeat). *)
Lemma GetOutstanding_loads_follow_dispatches_witness :
  let w := exampleWorld exampleBatch in
  let w' := snd (GetOutstanding exampleOutstandingParams exampleSchedule w) in
  exists results : list Message,
    fst (GetOutstanding exampleOutstandingParams exampleSchedule w)
      = Some (inr results) /\
    length results = 2%nat /\
    countCalls isLoad w' = 2%nat /\
    countCalls isDispatch w' = 4%nat /\
    (length results + countCalls isLoad w <= countCalls isLoad w')%nat /\
    (countCalls isLoad w' + countCalls isDispatch w
     <= countCalls isDispatch w' + countCalls isLoad w)%nat.
Proof.
  cbv zeta. eexists.
  split; [ vm_compute; reflexivity | ].
  split; [ reflexivity | ]. split; [ reflexivity | ]. split; [ reflexivity | ].
  refine (GetOutstanding_loads_follow_dispatches exampleOutstandingParams
            exampleSchedule (exampleWorld exampleBatch) _ _).
  vm_compute. reflexivity.
Defined.

(** Example: the heartbeat of a batch of three messages asked for with the
    limit 10. *)
Lemma heartbeat_reports_batch_size_witness :
  let w := exampleWorld exampleBatch in
  let w' := snd (GetOutstanding exampleOutstandingParams
                   [TurnBackground 0; TurnBackground 0] w) in
  repo_GetOutstanding (repository w) "user-1" "+18005550199" 10
    = (inr exampleBatch, exampleBatch) /\
  json_Marshal (HeartbeatPhoneOutstandingPayload "+18005550199" 1700000100 3)
    = inr "{owner:+18005550199}" /\
  exists event : Event,
    eventData event = Some "{owner:+18005550199}" /\
    eventType event = Some EventTypeHeartbeatPhoneOutstanding /\
    eventSource event = "phone" /\
    calls w' = [CallGetOutstanding "user-1" "+18005550199" 10;
                CallDispatch event] /\
    background w' !! 0%nat = Some HeartbeatReturned /\
    runBackground 0 w' = (tt, w').
Proof.
  cbv zeta. split; [ reflexivity | ]. split; [ reflexivity | ].
  exact (heartbeat_reports_batch_size exampleOutstandingParams
           (exampleWorld exampleBatch) exampleBatch exampleBatch
           "{owner:+18005550199}" eq_refl eq_refl).
Defined.

End FurtherExamples.

(** * The service with a subscriber behind the dispatcher *)

Section SubscriberExamples.

Existing Instance memoryRepository.
Existing Instance subscribedExampleBus.
Existing Instance exampleLibraries.
Existing Instance exampleMethods.

(** Example: the phone reports that message 1, which is being sent, has
    failed; the subscriber of the event marks the record, and [StoreEvent]
    returns the record as marked. *)
Lemma StoreEvent_protocol_witness :
  let message := exampleMessage 1 MessageStatusSending "hello" in
  let params :=
    MessageStorePhoneEventParams.mk 1 MessageEventNameFailed 1700000100 "phone" in
  let w := exampleWorld [message] in
  let payload :=
    MessagePhoneFailedPayload 1 "+18005550199" 1700000100 "+18005550100"
      "user-1" "hello" in
  phoneEventPayload params message = Some payload /\
  phoneEventType MessageEventNameFailed = Some EventTypeMessagePhoneFailed /\
  json_Marshal payload = inr (payloadText payload) /\
  exists event : Event,
    eventType event = Some EventTypeMessagePhoneFailed /\
    bus_Dispatch (eventDispatcher w) (repository w) event
      = (None, [event], [withStatus MessageStatusFailed message]) /\
    calls (snd (StoreEvent message params w))
      = [CallDispatch event; CallLoad "user-1" 1] /\
    repository (snd (StoreEvent message params w))
      = [withStatus MessageStatusFailed message] /\
    fst (StoreEvent message params w)
      = inr (withStatus MessageStatusFailed message).
Proof.
  cbv zeta. split; [ reflexivity | ]. split; [ reflexivity | ].
  split; [ reflexivity | ].
  eexists. split; [ | split; [ |
    exact (proj1 (proj2
      (StoreEvent_protocol (repo := memoryRepository)
         (bus := subscribedExampleBus) (lib := exampleLibraries)
         (exampleMessage 1 MessageStatusSending "hello")
         (MessageStorePhoneEventParams.mk 1 MessageEventNameFailed 1700000100
            "phone")
         (exampleWorld [exampleMessage 1 MessageStatusSending "hello"])
         _ _ _ eq_refl eq_refl eq_refl)) _ _ eq_refl) ] ].
  - reflexivity.
  - vm_compute. reflexivity.
Defined.


End SubscriberExamples.
